(** * World map and lore API: a model of [main.py] and [schemas.py]

    The HTTP handlers of [main.py] are embedded as computations in a state
    and exception monad over a [world] holding the process globals
    ([TOKENS], the [db] handle, the environment) and a log of the calls
    issued to the document store.  The routing table is the list of the
    [@app.<method>(path)] decorators in the order of the source file. *)

From Stdlib Require Import ZArith QArith String Ascii List Bool Lia.
From stdpp Require Import base option list strings gmap.

Local Open Scope Z_scope.
Local Open Scope string_scope.
Local Open Scope list_scope.

(** ** Values *)

(** [bson.objectid.ObjectId]: the bytes of the id, kept as their lower-case
    hexadecimal rendering, which is what [str] gives back: twelve bytes and
    24 digits for an id the driver makes. *)
Record ObjectId := mkOid { oid_hex : string }.

#[global] Instance ObjectId_eq_dec : EqDecision ObjectId.
Proof. solve_decision. Defined.

Definition is_hex (c : ascii) : bool :=
  let n := nat_of_ascii c in
  ((48 <=? n) && (n <=? 57) || (97 <=? n) && (n <=? 102)
   || (65 <=? n) && (n <=? 70))%nat.

Definition lower (c : ascii) : ascii :=
  let n := nat_of_ascii c in
  if ((65 <=? n) && (n <=? 90))%nat then ascii_of_nat (n + 32) else c.

Fixpoint all_hex (s : string) : bool :=
  match s with
  | EmptyString => true
  | String c s' => is_hex c && all_hex s'
  end.

Fixpoint lowercase (s : string) : string :=
  match s with
  | EmptyString => EmptyString
  | String c s' => String (lower c) (lowercase s')
  end.

(** ASCII whitespace: space, and tab to carriage return. *)
Definition is_space (c : ascii) : bool :=
  let n := nat_of_ascii c in
  ((n =? 32) || (9 <=? n) && (n <=? 13))%nat.

(** [bytes.fromhex(s)], the bytes rendered again in lower-case hexadecimal:
    two hex digits per byte, whitespace skipped before each byte and at the
    end of the string; [None] is a [ValueError]. *)
Fixpoint fromhex (s : string) : option string :=
  match s with
  | EmptyString => Some EmptyString
  | String c s' =>
      if is_space c then fromhex s'
      else
        match s' with
        | String c' s'' =>
            if is_hex c && is_hex c'
            then (fun h => String (lower c) (String (lower c') h))
                   <$> fromhex s''
            else None
        | EmptyString => None
        end
  end.

(** [ObjectId(s)] on a string: the constructor asks for 24 characters that
    [bytes.fromhex] reads, and keeps the bytes read, which are fewer than
    twelve when some of the characters are whitespace.  [None] stands for
    [InvalidId]. *)
Definition ObjectId_of_str (s : string) : option ObjectId :=
  if Nat.eqb (String.length s) 24 then mkOid <$> fromhex s else None.

(** An ObjectId as the driver makes them: its rendering parses back to it. *)
Definition valid_oid (o : ObjectId) : bool :=
  bool_decide (ObjectId_of_str (oid_hex o) = Some o).

#[global] Instance Q_eq_dec : EqDecision Q.
Proof. solve_decision. Defined.

(** The values found in request bodies, stored documents and responses. *)
Inductive value :=
| VNone
| VBool (b : bool)
| VInt (z : Z)
| VFloat (q : Q)
| VStr (s : string)
| VStrs (l : list string)
| VOid (o : ObjectId).

#[global] Instance value_eq_dec : EqDecision value.
Proof. solve_decision. Defined.

(** A Python [dict] with string keys: documents, payloads, JSON objects. *)
Abbreviation doc := (gmap string value).

(** Truth value of [d.get(k)]; a missing key gives [None]. *)
Definition truthy (v : option value) : bool :=
  match v with
  | None | Some VNone => false
  | Some (VBool b) => b
  | Some (VInt z) => negb (Z.eqb z 0)
  | Some (VFloat q) => negb (Qeq_bool q 0)
  | Some (VStr s) => negb (String.eqb s "")
  | Some (VStrs l) => match l with [] => false | _ => true end
  | Some (VOid _) => true
  end.

Definition is_not_None (v : value) : bool :=
  match v with VNone => false | _ => true end.

(** [d.get(k)] as a value: [None] when the key is missing. *)
Definition get (d : doc) (k : string) : value := default VNone (d !! k).

Definition get_default (d : doc) (k : string) (v : value) : value :=
  default v (d !! k).

(** ** The world: process globals and the document store *)

Inductive store_call :=
| Find (c : string)
| FindOne (c : string)
| InsertOne (c : string)
| UpdateOne (c : string)
| DeleteOne (c : string).

(** Modelled from the spec: the handle [database.db] is not among the
    sources.  It is "the underlying store connection" to a document store
    of "named collections"; a collection keeps its documents "in insertion
    order as stored".  main.py drives it through the pymongo API
    ([db[name].find_one], [list_collection_names]), so a handle that is not
    [None] is a pymongo [Database]. *)
Abbreviation Database := (gmap string (list doc)).

(** The state a request runs in: the globals of main.py, the handle, which
    is [None] when there is no connection, and the calls issued to the store
    so far, latest first. *)
Record world := mkWorld {
  environ : gmap string string;            (* os.environ *)
  TOKENS : gset string;                    (* TOKENS: set[str] *)
  db : option Database;                    (* database.db *)
  calls : list store_call
}.

Definition set_TOKENS (t : gset string) (w : world) : world :=
  mkWorld (environ w) t (db w) (calls w).
Definition set_db (d : Database) (w : world) : world :=
  mkWorld (environ w) (TOKENS w) (Some d) (calls w).
Definition log_call (c : store_call) (w : world) : world :=
  mkWorld (environ w) (TOKENS w) (db w) (c :: calls w).

(** The documents of a collection in natural order; a collection that was
    never written to is empty. *)
Definition coll (d : Database) (c : string) : list doc :=
  default [] (d !! c).

Definition docs_of (w : world) (c : string) : list doc :=
  match db w with Some d => coll d c | None => [] end.

(** ** The handler monad: state, and exceptions turned into HTTP errors *)

Inductive outcome (A : Type) :=
| Return (a : A)
| HTTPException (status_code : Z) (detail : string).
Arguments Return {A} a.
Arguments HTTPException {A} status_code detail.

Definition M (A : Type) : Type := world -> outcome A * world.

Definition ret {A} (a : A) : M A := fun w => (Return a, w).
Definition raise {A} (status : Z) (detail : string) : M A :=
  fun w => (HTTPException status detail, w).
Definition bind {A B} (m : M A) (k : A -> M B) : M B :=
  fun w => match m w with
           | (Return a, w') => k a w'
           | (HTTPException s d, w') => (HTTPException s d, w')
           end.

Notation "'let!' x ':=' c1 'in' c2" := (bind c1 (fun x => c2))
  (at level 10, x name, c1 at level 100, c2 at level 200).

(** An exception no handler catches: the server answers 500. *)
Definition unhandled {A} : M A := raise 500 "Internal Server Error".

Definition status_of {A} (o : outcome A) : Z :=
  match o with
  | Return _ => 200
  | HTTPException s _ => s
  end.

(** ** The document store (pymongo) *)

(** [bool(db)], the test of [if db]: [None] is false; a pymongo [Database]
    does not implement truth value testing and raises
    [NotImplementedError]. *)
Definition db_truth : M bool :=
  fun w => match db w with
           | None => ret false w
           | Some _ => unhandled w
           end.

(** The text of that error. *)
Definition NotImplementedError_text : string :=
  "Database objects do not implement truth value testing or bool(). Please compare with None instead: database is not None".

(** [db[c]]: [None] has no subscript, the [TypeError] is not caught. *)
Definition collection (c : string) : M (list doc) :=
  fun w => match db w with
           | None => unhandled w
           | Some d => (Return (coll d c), w)
           end.

(** Record a call to the store, and replace the documents of a collection. *)
Definition call (k : store_call) : M unit :=
  fun w => (Return tt, log_call k w).

Definition store (c : string) (l : list doc) : M unit :=
  fun w => match db w with
           | None => unhandled w
           | Some d => (Return tt, set_db (<[c := l]> d) w)
           end.

(** Rewrite the documents of a collection that exists; an update or a
    delete does not create one. *)
Definition modify (c : string) (f : list doc -> list doc) : M unit :=
  fun w => match db w with
           | None => unhandled w
           | Some d => (Return tt, set_db (alter f c d) w)
           end.

(** The filter [{"_id": obj_id}]. *)
Definition has_id (o : ObjectId) (d : doc) : bool :=
  bool_decide (d !! "_id" = Some (VOid o)).

Definition find_one (c : string) (flt : doc -> bool) : M (option doc) :=
  let! l := collection c in
  let! _ := call (FindOne c) in
  ret (List.find flt l).

Definition find (c : string) (flt : doc -> bool) (limit : option nat)
  : M (list doc) :=
  let! l := collection c in
  let! _ := call (Find c) in
  ret (match limit with
       | Some n => take n (List.filter flt l)
       | None => List.filter flt l
       end).

(** BSON comparison order on the values of the model, as used by a sort:
    a missing field counts as null, numbers come before strings, strings
    before ObjectIds, ObjectIds before booleans.  In a descending sort an
    array stands for its greatest element, an empty one comes before null. *)
Inductive sort_key :=
| KEmpty
| KNull
| KNum (q : Q)
| KStr (s : string)
| KOid (o : ObjectId)
| KBool (b : bool).

Definition max_str (l : list string) : option string :=
  fold_right (fun s acc => match acc with
                           | None => Some s
                           | Some t => if String.ltb t s then Some s else Some t
                           end) None l.

Definition key_desc (v : option value) : sort_key :=
  match v with
  | None | Some VNone => KNull
  | Some (VBool b) => KBool b
  | Some (VInt z) => KNum (inject_Z z)
  | Some (VFloat q) => KNum q
  | Some (VStr s) => KStr s
  | Some (VStrs l) => match max_str l with Some s => KStr s | None => KEmpty end
  | Some (VOid o) => KOid o
  end.

Definition key_rank (k : sort_key) : Z :=
  match k with
  | KEmpty => 0 | KNull => 1 | KNum _ => 2 | KStr _ => 3 | KOid _ => 4
  | KBool _ => 5
  end.

Definition key_lt (a b : sort_key) : bool :=
  match a, b with
  | KNum p, KNum q => negb (Qle_bool q p)
  | KStr s, KStr t => String.ltb s t
  | KOid o, KOid o' => String.ltb (oid_hex o) (oid_hex o')
  | KBool x, KBool y => negb x && y
  | _, _ => Z.ltb (key_rank a) (key_rank b)
  end.

(** The first document of [l] sorted on field [k], descending: the earliest
    document, in natural order, that no other one exceeds. *)
Fixpoint greatest (k : string) (best : doc) (l : list doc) : doc :=
  match l with
  | [] => best
  | d :: l' =>
      if key_lt (key_desc (best !! k)) (key_desc (d !! k))
      then greatest k d l' else greatest k best l'
  end.

(** [find_one(sort=[(k, -1)])] *)
Definition find_one_sorted_desc (c : string) (k : string) : M (option doc) :=
  let! l := collection c in
  let! _ := call (FindOne c) in
  ret (match l with [] => None | d :: l' => Some (greatest k d l') end).

(** BSON holds integers of at most eight bytes: encoding a document with a
    greater one raises [OverflowError] in the driver. *)
Definition int64 (z : Z) : bool := Z.leb (- 2 ^ 63) z && Z.ltb z (2 ^ 63).

Definition bson_value_ok (v : value) : bool :=
  match v with VInt z => int64 z | _ => true end.

Definition bson_ok (d : doc) : bool :=
  bool_decide (map_Forall (fun _ v => bson_value_ok v = true) d).

(** [insert_one(d)]: the driver adds an [_id] when there is none (the fresh
    ObjectId is an input of the model) and encodes the document; the server
    refuses a duplicate. *)
Definition insert_one (c : string) (d : doc) (fresh : ObjectId) : M value :=
  let! l := collection c in
  let! _ := call (InsertOne c) in
  let id := get_default d "_id" (VOid fresh) in
  if negb (bson_ok d) then unhandled                  (* OverflowError *)
  else if existsb (fun d' => bool_decide (d' !! "_id" = Some id)) l
  then unhandled                                      (* DuplicateKeyError *)
  else let! _ := store c (l ++ [<["_id" := id]> d]) in ret id.

Fixpoint update_first (flt : doc -> bool) (f : doc -> doc) (l : list doc)
  : list doc :=
  match l with
  | [] => []
  | d :: l' => if flt d then f d :: l' else d :: update_first flt f l'
  end.

(** [update_one(filter, {"$set": upd})], no upsert. *)
Definition update_one (c : string) (flt : doc -> bool) (upd : doc) : M unit :=
  let! _ := collection c in
  let! _ := call (UpdateOne c) in
  if negb (bson_ok upd) then unhandled                (* OverflowError *)
  else modify c (update_first flt (fun d => upd ∪ d)).

Fixpoint delete_first (flt : doc -> bool) (l : list doc) : list doc :=
  match l with
  | [] => []
  | d :: l' => if flt d then l' else d :: delete_first flt l'
  end.

(** [delete_one(filter)] *)
Definition delete_one (c : string) (flt : doc -> bool) : M unit :=
  let! _ := collection c in
  let! _ := call (DeleteOne c) in
  modify c (delete_first flt).

(** ** Pydantic models *)

(** A model class is the list of its field declarations; an instance is kept
    as its [model_dump()], a dict with every declared field. *)
Inductive ftype :=
| TStr
| TInt
| TFloat (ge le : option Q)
| TStrList.

Inductive fdefault :=
| Required                (* Field(...) *)
| Default (v : value).

Record field := mkField {
  f_name : string;
  f_type : ftype;
  f_optional : bool;      (* Optional[...]: None is accepted *)
  f_default : fdefault
}.

Definition in_range (ge le : option Q) (q : Q) : bool :=
  match ge with Some a => Qle_bool a q | None => true end
  && match le with Some b => Qle_bool q b | None => true end.

Definition integral (q : Q) : option Z :=
  let r := Qred q in
  if Pos.eqb (Qden r) 1 then Some (Qnum r) else None.

(** [float(z)] for a Python [int]: the nearest double, ties to even;
    [None] is an [OverflowError].  The double of an integer of more than 53
    bits is an integer, and is kept as one. *)
Definition float_of_int (z : Z) : option Z :=
  let a := Z.abs z in
  let n := Z.log2 a in
  if Z.ltb n 53 then Some z
  else
    let shift := n - 52 in
    let q := Z.shiftr a shift in
    let r := Z.land a (Z.ones shift) in
    let half := Z.shiftl 1 (shift - 1) in
    let q' := if Z.ltb half r || Z.eqb r half && Z.odd q then q + 1 else q in
    let m := Z.shiftl q' shift in
    if Z.ltb m (2 ^ 1024) then Some (Z.sgn z * m) else None.

Definition required_str (n : string) : field := mkField n TStr false Required.
Definition optional_str (n : string) : field :=
  mkField n TStr true (Default VNone).
Definition optional_int (n : string) : field :=
  mkField n TInt true (Default VNone).

(** schemas.py *)
Definition Category : list field :=
  [ required_str "name"; required_str "slug"; optional_str "description" ].

Definition LoreArticle : list field :=
  [ required_str "title"; required_str "short_description";
    optional_str "main_image_url"; required_str "content_body";
    mkField "category_ids" TStrList false (Default (VStrs []));
    optional_str "slug" ].

Definition POI : list field :=
  [ required_str "name";
    mkField "x_coordinate" (TFloat (Some 0%Q) (Some 1%Q)) false Required;
    mkField "y_coordinate" (TFloat (Some 0%Q) (Some 1%Q)) false Required;
    mkField "icon_type" TStr false (Default (VStr "marker"));
    optional_str "lore_article_id" ].

Definition MapAsset : list field :=
  [ required_str "image_url"; optional_int "width"; optional_int "height";
    mkField "version" TInt false (Default (VInt 1)) ].

(** main.py *)
Definition AuthRequest : list field :=
  [ required_str "username"; required_str "password" ].

Definition MapAssetUpdate : list field :=
  [ required_str "image_url"; optional_int "width"; optional_int "height" ].

Definition POICreate : list field := POI.

Definition POIUpdate : list field :=
  [ optional_str "name";
    mkField "x_coordinate" (TFloat None None) true (Default VNone);
    mkField "y_coordinate" (TFloat None None) true (Default VNone);
    optional_str "icon_type"; optional_str "lore_article_id" ].

Definition LoreCreate : list field := LoreArticle.

Definition LoreUpdate : list field :=
  [ optional_str "title"; optional_str "short_description";
    optional_str "main_image_url"; optional_str "content_body";
    mkField "category_ids" TStrList true (Default VNone);
    optional_str "slug" ].

Definition CategoryCreate : list field := Category.

Definition CategoryUpdate : list field :=
  [ optional_str "name"; optional_str "slug"; optional_str "description" ].

(** ** Requests and responses *)

Inductive method := GET | POST | PUT | DELETE.

#[global] Instance method_eq_dec : EqDecision method.
Proof. solve_decision. Defined.

(** A request whose body, if it has one, has been read as JSON. *)
Record request := mkRequest {
  r_method : method;
  r_path : list string;          (* the segments of the URL path *)
  r_token : option string;       (* query parameter token *)
  r_q : option string;           (* query parameter q *)
  r_body : option doc            (* the JSON body, when it is an object *)
}.

(** What a request draws from outside the program: the bytes of
    [os.urandom(16).hex()] and the ObjectId the driver would make. *)
Record entropy := mkEntropy {
  urandom_hex : string;
  new_oid : ObjectId
}.

(** What arrives: a request whose body could be read, or one whose body is
    not JSON, [json.loads] raising [JSONDecodeError] or, on bytes that are
    not text, another error.  The fields other than the body are those of
    the request. *)
Inductive unreadable := NotJSON | NotText.

Inductive received :=
| Readable (r : request)
| Unreadable (r : request) (why : unreadable).

Definition request_of (x : received) : request :=
  match x with
  | Readable r => r
  | Unreadable r _ => r
  end.

Inductive body :=
| JNull
| JObj (d : doc)
| JArr (l : list (option doc)).     (* an array of objects or nulls *)

Definition json_of (d : option doc) : body :=
  match d with
  | None => JNull
  | Some m => JObj m
  end.


(** ** Sample data *)

Module Sample.

(** A rendering of the values that are not ObjectIds. *)
Definition str (v : value) : string :=
  match v with
  | VNone => "None"
  | VBool true => "True"
  | VBool false => "False"
  | VStr s => s
  | _ => "?"
  end.

Fixpoint starts_with (p s : string) : bool :=
  match p, s with
  | EmptyString, _ => true
  | String a p', String b s' => Ascii.eqb a b && starts_with p' s'
  | _, EmptyString => false
  end.

Fixpoint contains (p s : string) : bool :=
  starts_with p s
  || match s with
     | EmptyString => false
     | String _ s' => contains p s'
     end.

(** A search engine for patterns without metacharacters. *)
Definition regex (q : string) : option (string -> bool) :=
  Some (fun s => contains (lowercase q) (lowercase s)).

(** A reader of the numeric strings of the examples. *)
Definition str_as_float (s : string) : option Q :=
  if String.eqb s "0.5" then Some (1 # 2)
  else if String.eqb s "0.25" then Some (1 # 4)
  else if String.eqb s "1.5" then Some (3 # 2)
  else None.

Definition str_as_int (s : string) : option Z :=
  if String.eqb s "2048" then Some 2048
  else if String.eqb s "1024" then Some 1024
  else None.

Definition token : string := "00112233445566778899aabbccddeeff".

Definition oid1 : ObjectId := mkOid "65a000000000000000000001".
Definition oid2 : ObjectId := mkOid "65a000000000000000000002".
Definition oid3 : ObjectId := mkOid "65a000000000000000000003".

Definition forest : doc :=
  {[ "_id" := VOid oid1; "title" := VStr "The Dark Forest";
     "short_description" := VStr "Where the road ends";
     "main_image_url" := VNone; "content_body" := VStr "<p>Trees.</p>";
     "category_ids" := VStrs []; "slug" := VNone ]}.

Definition town : doc :=
  {[ "_id" := VOid oid1; "name" := VStr "Town";
     "x_coordinate" := VFloat (1 # 4); "y_coordinate" := VFloat (3 # 4);
     "icon_type" := VStr "city"; "lore_article_id" := VNone ]}.

Definition realm : doc :=
  {[ "_id" := VOid oid1; "name" := VStr "Realms"; "slug" := VStr "realms";
     "description" := VNone ]}.

Definition map_v (o : ObjectId) (v : Z) : doc :=
  {[ "_id" := VOid o; "image_url" := VStr "https://example.org/map.png";
     "width" := VNone; "height" := VNone; "version" := VInt v ]}.

Definition store : Database :=
  {[ "lorearticle" := [forest]; "poi" := [town]; "category" := [realm];
     "mapasset" := [map_v oid1 1; map_v oid2 2] ]}.

(** A connected store, one admin logged in. *)
Definition w : world := mkWorld ∅ {[ token ]} (Some store) [].

Definition e : entropy :=
  mkEntropy "8899aabbccddeeff0011223344556677" oid3.

(** The same store in a process that has just started. *)
Definition started : world := mkWorld ∅ ∅ (db w) [].

Definition req (m : method) (path : list string) (tok : option string)
           (b : option doc) : request :=
  mkRequest m path tok None b.

Definition login : request :=
  req POST ["api"; "admin"; "login"] None
      (Some {[ "username" := VStr "admin"; "password" := VStr "changeme" ]}).

Definition list_lore_unauthenticated : request :=
  req GET ["api"; "admin"; "lore"] None None.

Definition harbour : doc :=
  {[ "name" := VStr "Harbour"; "x_coordinate" := VFloat (1 # 2);
     "y_coordinate" := VInt 1; "lore_article_id" := VStr (oid_hex oid1) ]}.

Definition create_poi : request :=
  req POST ["api"; "admin"; "pois"] (Some token) (Some harbour).

(** x_coordinate = 1.5 *)
Definition create_poi_outside : request :=
  req POST ["api"; "admin"; "pois"] (Some token)
      (Some (<["x_coordinate" := VFloat (3 # 2)]> harbour)).

Definition list_pois : request := req GET ["api"; "pois"] None None.

Definition get_forest : request :=
  req GET ["api"; "lore"; oid_hex oid1] None None.

Definition rename_town : request :=
  req PUT ["api"; "admin"; "pois"; oid_hex oid1] (Some token)
      (Some {[ "name" := VStr "Old Town" ]}).

Definition blank_update : request :=
  req PUT ["api"; "admin"; "pois"; oid_hex oid1] (Some token)
      (Some {[ "name" := VNone ]}).

(** No POI carries [oid2]. *)
Definition rename_missing : request :=
  req PUT ["api"; "admin"; "pois"; oid_hex oid2] (Some token)
      (Some {[ "name" := VStr "Nowhere" ]}).

Definition delete_town : request :=
  req DELETE ["api"; "admin"; "pois"; oid_hex oid1] (Some token) None.

Definition new_map : request :=
  req POST ["api"; "admin"; "map"] (Some token)
      (Some {[ "image_url" := VStr "https://example.org/map3.png";
               "width" := VInt 2048 ]}).


(** The same process without a connection to the store. *)
Definition disconnected : world := mkWorld ∅ {[ token ]} None [].

(** An entropy whose ObjectId is already the [_id] of a POI. *)
Definition e_taken : entropy :=
  mkEntropy "8899aabbccddeeff0011223344556677" oid1.

Definition get_map : request := req GET ["api"; "map"] None None.

Definition delete_not_an_id : request :=
  req DELETE ["api"; "admin"; "pois"; "not-an-id"] (Some token) None.

Definition login_wrong : request :=
  req POST ["api"; "admin"; "login"] None
      (Some {[ "username" := VStr "admin"; "password" := VStr "guess" ]}).

(** A POI without its name. *)
Definition create_poi_nameless : request :=
  req POST ["api"; "admin"; "pois"] (Some token)
      (Some (delete "name" harbour)).

Definition rename_forest : request :=
  req PUT ["api"; "admin"; "lore"; oid_hex oid1] (Some token)
      (Some {[ "title" := VStr "The Bright Forest" ]}).

Definition delete_forest : request :=
  req DELETE ["api"; "admin"; "lore"; oid_hex oid1] (Some token) None.

(** x_coordinate = 1.5, in an update *)
Definition move_town_outside : request :=
  req PUT ["api"; "admin"; "pois"; oid_hex oid1] (Some token)
      (Some {[ "x_coordinate" := VFloat (3 # 2) ]}).

Definition list_pois_admin : request :=
  req GET ["api"; "admin"; "pois"] (Some token) None.

Definition search_forest : request :=
  mkRequest GET ["api"; "lore"; "search"] None (Some "forest") None.

(** A create without a token. *)
Definition create_poi_unauthenticated : request :=
  req POST ["api"; "admin"; "pois"] None None.

(** Eight bytes in hexadecimal, each followed by a space: 24 characters. *)
Definition spaced_id : string := "65 a0 00 00 00 00 00 00 ".

Definition get_spaced : request :=
  req GET ["api"; "lore"; spaced_id] None None.

(** A second map asset payload. *)
Definition next_map : request :=
  req POST ["api"; "admin"; "map"] (Some token)
      (Some {[ "image_url" := VStr "https://example.org/map4.png" ]}).

Definition oid4 : ObjectId := mkOid "65a000000000000000000004".

Definition e' : entropy :=
  mkEntropy "ffeeddccbbaa99887766554433221100" oid4.

Definition get_map_admin : request :=
  req GET ["api"; "admin"; "map"] (Some token) None.

End Sample.

Section Handlers.

(** [str] of a value other than an ObjectId, and the store's regular
    expression engine: a pattern gives a case-insensitive search, or is
    refused ([None]). *)
Variable py_str : value -> string.
Variable regex_compile : string -> option (string -> bool).

(** The validator's reading of a string as a number, for a [float] and for
    an [int] field: [None] when the string is not one. *)
Variable str_as_float : string -> option Q.
Variable str_as_int : string -> option Z.

(** *** Validation *)

(** The value a [float] field reads, in the default (lax) mode: a JSON
    number, a boolean, or a numeric string. *)
Definition read_float (v : value) : option Q :=
  match v with
  | VFloat q => Some q
  | VInt z => inject_Z <$> float_of_int z
  | VBool b => Some (inject_Z (Z.b2z b))
  | VStr s => str_as_float s
  | _ => None
  end.

(** The value an [int] field reads: an integer of any size, a boolean, a
    float without fractional part strictly between -2^63 and 2^63, or a
    numeric string. *)
Definition read_int (v : value) : option Z :=
  match v with
  | VInt z => Some z
  | VBool b => Some (Z.b2z b)
  | VFloat q =>
      match integral q with
      | Some z => if Z.ltb (- 2 ^ 63) z && Z.ltb z (2 ^ 63) then Some z
                  else None
      | None => None
      end
  | VStr s => str_as_int s
  | _ => None
  end.

(** Validation of one JSON value against a field type. *)
Definition check_type (t : ftype) (v : value) : option value :=
  match t with
  | TStr => match v with VStr _ => Some v | _ => None end
  | TInt => VInt <$> read_int v
  | TFloat ge le =>
      match read_float v with
      | Some q => if in_range ge le q then Some (VFloat q) else None
      | None => None
      end
  | TStrList => match v with VStrs _ => Some v | _ => None end
  end.

Definition validate_field (f : field) (input : doc) : option value :=
  match input !! f_name f with
  | None => match f_default f with
            | Required => None
            | Default v => Some v
            end
  | Some v =>
      if f_optional f && negb (is_not_None v) then Some VNone
      else check_type (f_type f) v
  end.

(** [None] is a [ValidationError]. *)
Fixpoint validate (schema : list field) (input : doc) : option doc :=
  match schema with
  | [] => Some ∅
  | f :: schema' =>
      match validate_field f input, validate schema' input with
      | Some v, Some m => Some (<[f_name f := v]> m)
      | _, _ => None
      end
  end.

(** *** Helpers *)

Definition oid_str (v : value) : string :=
  match v with
  | VOid o => oid_hex o
  | _ => py_str v
  end.

(** [not d] for a document or [None]. *)
Definition falsy (d : option doc) : bool :=
  match d with
  | None => true
  | Some m => bool_decide (m = ∅)
  end.

Definition doc_to_public (d : option doc) : option doc :=
  if falsy d then d
  else
    match d with
    | None => None
    | Some m =>
        if truthy (m !! "_id")
        then Some (<["id" := VStr (oid_str (get m "_id"))]> (delete "_id" m))
        else Some m
    end.

Definition ADMIN_USERNAME (w : world) : string :=
  default "admin" (environ w !! "ADMIN_USERNAME").
Definition ADMIN_PASSWORD (w : world) : string :=
  default "changeme" (environ w !! "ADMIN_PASSWORD").

Definition require_admin (token : option string) : M bool :=
  fun w =>
    match token with
    | None => raise 401 "Unauthorized" w
    | Some t =>
        if bool_decide (t ∈ TOKENS w) then ret true w
        else raise 401 "Unauthorized" w
    end.

(** *** database.py *)

(** Modelled from the spec: [database.create_document] is not among the
    sources.  "create(collection, record) -> id: [...] inserts it, returns
    the newly assigned id.  Fails with a StoreError if the underlying
    connection is unavailable."  The id comes back as a string, which the
    callers parse again. *)
Definition create_document (c : string) (data : doc) (fresh : ObjectId)
  : M string :=
  let! id := insert_one c data fresh in
  ret (oid_str id).

(** Modelled from the spec: [database.get_documents] is not among the
    sources.  "list(collection) -> sequence of documents: returns all
    documents in insertion order as stored (no pagination, no
    filtering)". *)
Definition get_documents (c : string) : M (list doc) :=
  find c (fun _ => true) None.

(** *** Public API *)

Definition root : M body :=
  ret (JObj {[ "message" := VStr "Backend running" ]}).

Definition env_set (w : world) (k : string) : bool :=
  match environ w !! k with
  | Some v => negb (String.eqb v "")
  | None => false
  end.

(** [s[:n]]: the first [n] characters of a string kept in UTF-8; a byte
    [10xxxxxx] continues a character. *)
Definition continues (c : ascii) : bool :=
  let n := nat_of_ascii c in ((128 <=? n) && (n <? 192))%nat.

Fixpoint first_chars (n : nat) (s : string) : string :=
  match s with
  | EmptyString => EmptyString
  | String c s' =>
      if continues c then String c (first_chars n s')
      else match n with
           | O => EmptyString
           | S n' => String c (first_chars n' s')
           end
  end.

(** [cols = db.list_collection_names() if db else []] tests [db] first:
    without a connection the [try] block sets what [status] already holds;
    with one the test raises, no call reaches the store, and the [except]
    clause reports the error, cut to 120 characters. *)
Definition test_database : M body :=
  fun w =>
    let flag (b : bool) := VStr (if b then "✅ Set" else "❌ Not Set") in
    let status (database : string) : doc :=
      {[ "backend" := VStr "✅ Running";
         "database" := VStr database;
         "database_url" := flag (env_set w "DATABASE_URL");
         "database_name" := flag (env_set w "DATABASE_NAME");
         "collections" := VStrs [] ]} in
    match db_truth w with
    | (Return _, _) => (Return (JObj (status "❌ Not Connected")), w)
    | (HTTPException _ _, _) =>
        (Return (JObj (status (first_chars 120
                                 ("⚠️ " ++ NotImplementedError_text)))), w)
    end.

Definition get_pois : M body :=
  let! pois := get_documents "poi" in
  ret (JArr (map (fun p : doc =>
                    Some {[ "id" := VStr (oid_str (get p "_id"));
                            "name" := get p "name";
                            "x_coordinate" := get p "x_coordinate";
                            "y_coordinate" := get p "y_coordinate";
                            "lore_article_id" := get p "lore_article_id";
                            "icon_type" :=
                              get_default p "icon_type" (VStr "marker") ]})
                 pois)).

Definition get_lore_article (article_id : string) : M body :=
  match ObjectId_of_str article_id with
  | None => raise 400 "Invalid article id"
  | Some obj_id =>
      let! doc := find_one "lorearticle" (has_id obj_id) in
      if falsy doc then raise 404 "Article not found"
      else
        match doc_to_public doc with
        | None => unhandled
        | Some public =>
            match public !! "id" with
            | None => unhandled                       (* KeyError *)
            | Some id =>
                ret (JObj {[ "id" := id;
                             "title" := get public "title";
                             "short_description" :=
                               get public "short_description";
                             "main_image_url" := get public "main_image_url";
                             "content_body" := get public "content_body" ]})
            end
        end
  end.

(** [{k: {"$regex": q, "$options": "i"}}]: only a string can match. *)
Definition regex_field (m : string -> bool) (k : string) (d : doc) : bool :=
  match d !! k with
  | Some (VStr s) => m s
  | _ => false
  end.

Definition search_lore (q : string) : M body :=
  match regex_compile q with
  | None =>
      let! _ := collection "lorearticle" in
      let! _ := call (Find "lorearticle") in
      unhandled                                     (* OperationFailure *)
  | Some m =>
      let! results :=
        find "lorearticle"
             (fun d => regex_field m "title" d
                       || regex_field m "short_description" d)
             (Some 20%nat) in
      ret (JArr (map (fun r : doc =>
                        Some {[ "id" := VStr (oid_str (get r "_id"));
                                "title" := get r "title";
                                "short_description" :=
                                  get r "short_description" ]})
                     results))
  end.

Definition public_get_map : M body :=
  let! connected := db_truth in
  let! doc := if connected
              then find_one_sorted_desc "mapasset" "version"
              else ret None in
  ret (if falsy doc then JNull else json_of (doc_to_public doc)).

(** *** Admin endpoints *)

Definition admin_login (payload : doc) (e : entropy) : M body :=
  fun w =>
    if bool_decide (get payload "username" = VStr (ADMIN_USERNAME w))
       && bool_decide (get payload "password" = VStr (ADMIN_PASSWORD w))
    then
      let token := urandom_hex e in
      (Return (JObj {[ "token" := VStr token ]}),
       set_TOKENS ({[ token ]} ∪ TOKENS w) w)
    else raise 401 "Invalid credentials" w.

Definition get_map : M body := public_get_map.

(** [v + 1]; [None] is a [TypeError]. *)
Definition add_one (v : value) : option value :=
  match v with
  | VInt z => Some (VInt (z + 1))
  | VBool b => Some (VInt (Z.b2z b + 1))
  | VFloat q => Some (VFloat (q + 1))
  | _ => None
  end.

(** The re-fetch that ends every create: [find_one({"_id": ObjectId(new_id)})]
    and the public form of what it finds. *)
Definition fetch_created (c : string) (new_id : string) : M body :=
  match ObjectId_of_str new_id with
  | None => unhandled                                 (* InvalidId *)
  | Some oid =>
      let! created := find_one c (has_id oid) in
      ret (json_of (doc_to_public created))
  end.

Definition set_map (payload : doc) (e : entropy) : M body :=
  let! current := find_one_sorted_desc "mapasset" "version" in
  let version :=
    match current with
    | Some cur => if falsy current then Some (VInt 1)
                  else add_one (get_default cur "version" (VInt 0))
    | None => Some (VInt 1)
    end in                         (* (current.get("version", 0) + 1) if current else 1 *)
  match version with
  | None => unhandled
  | Some v =>
      match validate MapAsset {[ "image_url" := get payload "image_url";
                                 "width" := get payload "width";
                                 "height" := get payload "height";
                                 "version" := v ]} with
      | None => unhandled                             (* ValidationError *)
      | Some new_doc =>
          let! new_id := create_document "mapasset" new_doc (new_oid e) in
          fetch_created "mapasset" new_id
      end
  end.

(** The three groups of CRUD handlers have the same text up to the name of
    the collection; each handler below is named as in the source. *)
Definition admin_list (c : string) : M body :=
  let! docs := get_documents c in
  ret (JArr (map (fun d => doc_to_public (Some d)) docs)).

Definition admin_create (c : string) (payload : doc) (e : entropy) : M body :=
  let! new_id := create_document c payload (new_oid e) in
  fetch_created c new_id.

(** [{k: v for k, v in payload.model_dump().items() if v is not None}] *)
Definition update_doc_of (payload : doc) : doc :=
  filter (fun kv => is_not_None kv.2 = true) payload.

Definition admin_update (c : string) (id : string) (payload : doc) : M body :=
  match ObjectId_of_str id with
  | None => raise 400 "Invalid id"
  | Some obj_id =>
      let update_doc := update_doc_of payload in
      if bool_decide (update_doc = ∅)
      then ret (JObj {[ "updated" := VBool false ]})
      else
        let! _ := update_one c (has_id obj_id) update_doc in
        let! updated := find_one c (has_id obj_id) in
        ret (json_of (doc_to_public updated))
  end.

Definition admin_delete (c : string) (id : string) : M body :=
  match ObjectId_of_str id with
  | None => raise 400 "Invalid id"
  | Some obj_id =>
      let! _ := delete_one c (has_id obj_id) in
      ret (JObj {[ "deleted" := VBool true ]})
  end.

Definition admin_list_pois : M body := admin_list "poi".
Definition admin_create_poi := admin_create "poi".
Definition admin_update_poi := admin_update "poi".
Definition admin_delete_poi := admin_delete "poi".

Definition admin_list_lore : M body := admin_list "lorearticle".
Definition admin_create_lore := admin_create "lorearticle".
Definition admin_update_lore := admin_update "lorearticle".
Definition admin_delete_lore := admin_delete "lorearticle".

Definition admin_list_categories : M body := admin_list "category".
Definition admin_create_category := admin_create "category".
Definition admin_update_category := admin_update "category".
Definition admin_delete_category := admin_delete "category".

(** *** Routing and parameter handling *)

Inductive seg :=
| Lit (s : string)
| Param.                         (* {name}: one non-empty segment *)

Fixpoint match_path (pat : list seg) (path : list string)
  : option (list string) :=
  match pat, path with
  | [], [] => Some []
  | Lit s :: pat', x :: path' =>
      if String.eqb s x then match_path pat' path' else None
  | Param :: pat', x :: path' =>
      if String.eqb x "" then None else cons x <$> match_path pat' path'
  | _, _ => None
  end.

Record route := mkRoute {
  rt_method : method;
  rt_path : list seg;
  rt_guard : bool;               (* dependencies=[Depends(require_admin)] *)
  rt_body : bool;                (* the handler declares a body parameter *)
  rt_call : list string -> request -> entropy -> M body
}.

(** A parameter that fails validation: 422 before the handler runs. *)
Definition unprocessable {A} : M A := raise 422 "Unprocessable Entity".

Definition body_as (schema : list field) (r : request) : M doc :=
  match r_body r with
  | Some b => match validate schema b with
              | Some p => ret p
              | None => unprocessable
              end
  | None => unprocessable
  end.

(** [token: str] and [q: str] in a handler's signature. *)
Definition query_token (r : request) : M string :=
  match r_token r with Some t => ret t | None => unprocessable end.
Definition query_q (r : request) : M string :=
  match r_q r with Some q => ret q | None => unprocessable end.

Definition path_param (ps : list string) : string := default "" (head ps).

Definition api (l : list seg) : list seg := Lit "api" :: l.
Definition admin (l : list seg) : list seg := Lit "api" :: Lit "admin" :: l.

Definition login_route : route :=
  mkRoute POST (admin [Lit "login"]) false true
    (fun _ r e => let! p := body_as AuthRequest r in admin_login p e).

(** The path operations, in the order of the source file. *)
Definition routes : list route :=
  [ mkRoute GET [] false false (fun _ _ _ => root);
    mkRoute GET [Lit "test"] false false (fun _ _ _ => test_database);
    mkRoute GET (api [Lit "pois"]) false false (fun _ _ _ => get_pois);
    mkRoute GET (api [Lit "lore"; Param]) false false
      (fun ps _ _ => get_lore_article (path_param ps));
    mkRoute GET (api [Lit "lore"; Lit "search"]) false false
      (fun _ r _ => let! q := query_q r in search_lore q);
    mkRoute GET (api [Lit "map"]) false false (fun _ _ _ => public_get_map);
    login_route;
    mkRoute GET (admin [Lit "map"]) true false
      (fun _ r _ => let! _ := query_token r in get_map);
    mkRoute POST (admin [Lit "map"]) true true
      (fun _ r e => let! _ := query_token r in
                    let! p := body_as MapAssetUpdate r in set_map p e);
    mkRoute GET (admin [Lit "pois"]) true false
      (fun _ r _ => let! _ := query_token r in admin_list_pois);
    mkRoute POST (admin [Lit "pois"]) true true
      (fun _ r e => let! _ := query_token r in
                    let! p := body_as POICreate r in admin_create_poi p e);
    mkRoute PUT (admin [Lit "pois"; Param]) true true
      (fun ps r _ => let! _ := query_token r in
                     let! p := body_as POIUpdate r in
                     admin_update_poi (path_param ps) p);
    mkRoute DELETE (admin [Lit "pois"; Param]) true false
      (fun ps r _ => let! _ := query_token r in
                     admin_delete_poi (path_param ps));
    mkRoute GET (admin [Lit "lore"]) true false
      (fun _ r _ => let! _ := query_token r in admin_list_lore);
    mkRoute POST (admin [Lit "lore"]) true true
      (fun _ r e => let! _ := query_token r in
                    let! p := body_as LoreCreate r in admin_create_lore p e);
    mkRoute PUT (admin [Lit "lore"; Param]) true true
      (fun ps r _ => let! _ := query_token r in
                     let! p := body_as LoreUpdate r in
                     admin_update_lore (path_param ps) p);
    mkRoute DELETE (admin [Lit "lore"; Param]) true false
      (fun ps r _ => let! _ := query_token r in
                     admin_delete_lore (path_param ps));
    mkRoute GET (admin [Lit "categories"]) true false
      (fun _ r _ => let! _ := query_token r in admin_list_categories);
    mkRoute POST (admin [Lit "categories"]) true true
      (fun _ r e => let! _ := query_token r in
                    let! p := body_as CategoryCreate r in
                    admin_create_category p e);
    mkRoute PUT (admin [Lit "categories"; Param]) true true
      (fun ps r _ => let! _ := query_token r in
                     let! p := body_as CategoryUpdate r in
                     admin_update_category (path_param ps) p);
    mkRoute DELETE (admin [Lit "categories"; Param]) true false
      (fun ps r _ => let! _ := query_token r in
                     admin_delete_category (path_param ps)) ].

Inductive resolution :=
| Matched (rt : route) (ps : list string)
| MethodNotAllowed
| NotFound.

(** The first route whose path and method both match serves the request; a
    route matching the path alone turns "not found" into 405. *)
Fixpoint resolve (rs : list route) (m : method) (path : list string)
         (partial : bool) : resolution :=
  match rs with
  | [] => if partial then MethodNotAllowed else NotFound
  | rt :: rs' =>
      match match_path (rt_path rt) path with
      | Some ps =>
          if bool_decide (rt_method rt = m) then Matched rt ps
          else resolve rs' m path true
      | None => resolve rs' m path partial
      end
  end.

(** One request: the dependency of the route runs first, then the
    parameters are validated, then the handler. *)
Definition serve (rt : route) (ps : list string) (r : request) (e : entropy)
  : M body :=
  if rt_guard rt
  then let! _ := require_admin (r_token r) in rt_call rt ps r e
  else rt_call rt ps r e.

(** [path.rstrip("/")]: the path without its empty last segments. *)
Fixpoint rstrip (path : list string) : list string :=
  match path with
  | [] => []
  | x :: path' =>
      match rstrip path' with
      | [] => if String.eqb x "" then [] else [x]
      | rest => x :: rest
      end
  end.

Definition ends_with_slash (path : list string) : bool :=
  match last path with
  | Some x => String.eqb x ""
  | None => false
  end.

(** The router's [redirect_slashes]: a path other than [/] that no route
    matches is redirected when some route matches it without its trailing
    slashes, or, if it has none, with one added. *)
Definition redirect_slashes (path : list string) : bool :=
  let target := if ends_with_slash path then rstrip path else path ++ [""] in
  negb (bool_decide (path = [])) && negb (bool_decide (target = []))
  && existsb (fun rt => bool_decide (is_Some (match_path (rt_path rt) target)))
             routes.

Definition handle (r : request) (e : entropy) : M body :=
  match resolve routes (r_method r) (r_path r) false with
  | Matched rt ps => serve rt ps r e
  | MethodNotAllowed => raise 405 "Method Not Allowed"
  | NotFound =>
      if redirect_slashes (r_path r) then raise 307 "Temporary Redirect"
      else raise 404 "Not Found"
  end.

(** The framework reads the body of a route that declares one before it
    runs the dependencies of the route: a body that is not JSON is answered
    422, bytes that are not text 400, and neither the guard nor the handler
    runs.  A route without a body parameter does not read the body. *)
Definition receive (x : received) (e : entropy) : M body :=
  match x with
  | Readable r => handle r e
  | Unreadable r why =>
      match resolve routes (r_method r) (r_path r) false with
      | Matched rt _ =>
          if rt_body rt
          then match why with
               | NotJSON => unprocessable
               | NotText => raise 400 "There was an error parsing the body"
               end
          else handle r e
      | _ => handle r e
      end
  end.

(** A sequence of requests served one after the other. *)
Fixpoint run (rs : list (request * entropy)) (w : world)
  : list (outcome body) * world :=
  match rs with
  | [] => ([], w)
  | (r, e) :: rs' =>
      let (o, w') := handle r e w in
      let (os, w'') := run rs' w' in
      (o :: os, w'')
  end.

(** The same for what arrives, readable or not. *)
Fixpoint run_received (xs : list (received * entropy)) (w : world)
  : list (outcome body) * world :=
  match xs with
  | [] => ([], w)
  | (x, e) :: xs' =>
      let (o, w') := receive x e w in
      let (os, w'') := run_received xs' w' in
      (o :: os, w'')
  end.


(** ** Vocabulary of the properties *)

(** The three CRUD groups: the segment of the URL, the collection and the
    model of the partial update. *)
Definition crud : list (string * string * list field) :=
  [ ("pois", "poi", POIUpdate);
    ("lore", "lorearticle", LoreUpdate);
    ("categories", "category", CategoryUpdate) ].

(** The admin route requests, by method and path: main.py declares, with
    [dependencies=[Depends(require_admin)]], [GET] and [POST] on
    [/api/admin/map], [/api/admin/pois], [/api/admin/lore] and
    [/api/admin/categories], and [PUT] and [DELETE] on
    [/api/admin/pois/{poi_id}], [/api/admin/lore/{article_id}] and
    [/api/admin/categories/{category_id}]. *)
Definition admin_groups : list string := ["pois"; "lore"; "categories"].

Definition admin_operation (r : request) : bool :=
  match r_path r with
  | [a; b; c] =>
      String.eqb a "api" && String.eqb b "admin"
      && (String.eqb c "map" || existsb (String.eqb c) admin_groups)
      && match r_method r with GET | POST => true | _ => false end
  | [a; b; c; id] =>
      String.eqb a "api" && String.eqb b "admin"
      && existsb (String.eqb c) admin_groups && negb (String.eqb id "")
      && match r_method r with PUT | DELETE => true | _ => false end
  | _ => false
  end.

(** The methods whose admin routes declare a body parameter. *)
Definition sends_body (r : request) : bool :=
  match r_method r with POST | PUT => true | _ => false end.

Definition requests_of (xs : list (received * entropy))
  : list (request * entropy) :=
  map (fun xe => (request_of xe.1, xe.2)) xs.

(** An id of 24 hexadecimal digits, the form in which ObjectIds are
    written. *)
Definition well_formed_id (s : string) : bool :=
  Nat.eqb (String.length s) 24 && all_hex s.

Definition is_login (r : request) : bool :=
  bool_decide (r_method r = POST)
  && bool_decide (r_path r = ["api"; "admin"; "login"]).

(** The token a login request was answered with, if any. *)
Definition issued_token (r : request) (o : outcome body) : option string :=
  if is_login r then
    match o with
    | Return (JObj d) =>
        match d !! "token" with Some (VStr t) => Some t | _ => None end
    | _ => None
    end
  else None.

(** The tokens issued along a run, given its requests and its responses. *)
Fixpoint issued (rs : list (request * entropy)) (os : list (outcome body))
  : gset string :=
  match rs, os with
  | (r, _) :: rs', o :: os' =>
      match issued_token r o with
      | Some t => {[ t ]} ∪ issued rs' os'
      | None => issued rs' os'
      end
  | _, _ => ∅
  end.

Definition client_error (s : Z) : Prop := 400 <= s < 500.

(** A JSON number, with a boolean read the way the validator reads it. *)
Definition as_number (v : value) : option Q :=
  match v with
  | VInt z => Some (inject_Z z)
  | VFloat q => Some q
  | VBool b => Some (inject_Z (Z.b2z b))
  | _ => None
  end.

(** The field [k] of a payload holds a number outside [0, 1]. *)
Definition outside_unit (b : doc) (k : string) : Prop :=
  exists q, (b !! k) ≫= as_number = Some q /\ ~ (0 <= q /\ q <= 1)%Q.

(** The coordinate [v] of a payload reads as the float [q] of [0, 1]. *)
Definition unit_coordinate (v : option value) (q : Q) : Prop :=
  v ≫= read_float = Some q /\ (0 <= q /\ q <= 1)%Q.

(** A payload of [POST /api/admin/pois] as the POI model reads it: a string
    for the name, a number of [0, 1] for each coordinate, for the icon a
    string or nothing, which gives "marker", for the article a string,
    [None] or nothing. *)
Definition POI_payload (b : doc) (name : string) (x y : Q) (icon : string)
           (lore : value) : Prop :=
  b !! "name" = Some (VStr name)
  /\ unit_coordinate (b !! "x_coordinate") x
  /\ unit_coordinate (b !! "y_coordinate") y
  /\ (b !! "icon_type" = Some (VStr icon)
      \/ b !! "icon_type" = None /\ icon = "marker")
  /\ match b !! "lore_article_id" with
     | None | Some VNone => lore = VNone
     | Some (VStr s) => lore = VStr s
     | Some _ => False
     end.

(** The [model_dump()] of the POI read from such a payload. *)
Definition POI_instance (name : string) (x y : Q) (icon : string)
           (lore : value) : doc :=
  <["name" := VStr name]>
    (<["x_coordinate" := VFloat x]>
       (<["y_coordinate" := VFloat y]>
          (<["icon_type" := VStr icon]>
             (<["lore_article_id" := lore]> ∅)))).

Definition has_oid (d : doc) : Prop := exists o, d !! "_id" = Some (VOid o).

#[global] Instance has_oid_dec (d : doc) : Decision (has_oid d).
Proof.
  unfold has_oid.
  destruct (d !! "_id") as [[| | | | | |o]|];
    first [left; eexists; reflexivity | right; intros [? ?]; discriminate].
Defined.

Definition version_of (d : doc) : option Z :=
  match d !! "version" with Some (VInt z) => Some z | _ => None end.

(** Every document of the collection carries an integer version. *)
Definition versioned (l : list doc) : Prop :=
  Forall (fun d => is_Some (version_of d)) l.

(** [d] is a document of [l] of greatest version. *)
Definition current_of (l : list doc) (d : doc) (z : Z) : Prop :=
  d ∈ l /\ version_of d = Some z
  /\ forall d' z', d' ∈ l -> version_of d' = Some z' -> z' <= z.

(** The [_id] values of a collection. *)
Definition ids (l : list doc) : list (option value) :=
  map (fun d : doc => d !! "_id") l.


(** [steps R m]: running [m] takes a world to an [R]-related one. *)
Definition steps (R : world -> world -> Prop) {A} (m : M A) : Prop :=
  forall w, R w (m w).2.

(** Every field of the model is optional and defaults to [None]: the
    [*Update] models. *)
Definition all_optional (schema : list field) : Prop :=
  Forall (fun f => f_optional f = true /\ f_default f = Default VNone) schema.

(** Every field of the payload is absent or [None]. *)
Definition blank (schema : list field) (b : doc) : Prop :=
  Forall (fun f => b !! f_name f = None \/ b !! f_name f = Some VNone)
         schema.

(** Every stored document carries an ObjectId as its [_id]. *)
Definition ids_typed (w : world) : Prop :=
  match db w with
  | Some d => map_Forall (fun _ l => Forall has_oid l) d
  | None => True
  end.





Definition pure {A} (m : M A) : Prop := forall w, (m w).2 = w.

(** The public record of a POI document, as [get_pois] lists it. *)
Definition poi_record (p : doc) : doc :=
  {[ "id" := VStr (oid_str (get p "_id"));
     "name" := get p "name";
     "x_coordinate" := get p "x_coordinate";
     "y_coordinate" := get p "y_coordinate";
     "lore_article_id" := get p "lore_article_id";
     "icon_type" := get_default p "icon_type" (VStr "marker") ]}.

(** The store as the requests keep it: in every collection each document
    carries an ObjectId, no two the same one, and every map asset carries
    an integer version. *)
Definition db_ok (d : Database) : Prop :=
  map_Forall (fun _ l => Forall has_oid l /\ NoDup (ids l)) d
  /\ versioned (coll d "mapasset").

Definition store_ok (w : world) : Prop :=
  match db w with
  | Some d => db_ok d
  | None => True
  end.

(** [triple I m Q]: [m] keeps the invariant [I], and a value it returns
    from a world satisfying [I] satisfies [Q]. *)
Definition triple {A} (I : world -> Prop) (m : M A) (Q : A -> Prop) : Prop :=
  forall w, I w -> I (m w).2 /\ forall a, (m w).1 = Return a -> Q a.

(** A model instance of one of the classes of the source. *)
Definition instance_of (schema : list field) (p : doc) : Prop :=
  exists b, validate schema b = Some p.

(** The three create routes: the segment of the URL, the collection and
    the model of the payload. *)
Definition creates : list (string * string * list field) :=
  [ ("pois", "poi", POICreate);
    ("lore", "lorearticle", LoreCreate);
    ("categories", "category", CategoryCreate) ].

(** Nothing the process keeps has changed between two worlds, the log of
    the calls apart. *)
Definition unchanged (w w' : world) : Prop :=
  db w' = db w /\ TOKENS w' = TOKENS w /\ environ w' = environ w.

(** The keys of a record listed by [get_pois]. *)
Definition POI_keys : gset string :=
  {[ "id"; "name"; "x_coordinate"; "y_coordinate"; "lore_article_id";
     "icon_type" ]}.

(** A model without an integer field. *)
Definition no_int (schema : list field) : Prop :=
  Forall (fun f => f_type f <> TInt
                   /\ forall z, f_default f <> Default (VInt z)) schema.

(** The document at position [i] of [l] carries the id [o], and none before
    it does: it is the one [update_one] and [find_one] pick. *)
Definition first_carrying (o : ObjectId) (l : list doc) (i : nat) : Prop :=
  (exists a, l !! i = Some a /\ a !! "_id" = Some (VOid o))
  /\ forall j x, (j < i)%nat -> l !! j = Some x -> x !! "_id" <> Some (VOid o).

(** ** Basic facts *)

Lemma bind_Return {A B} (m : M A) (k : A -> M B) w a w' :
  m w = (Return a, w') -> bind m k w = k a w'.
Proof. intros H. unfold bind. now rewrite H. Qed.

Lemma bind_HTTPException {A B} (m : M A) (k : A -> M B) w s d w' :
  m w = (HTTPException s d, w') -> bind m k w = (HTTPException s d, w').
Proof. intros H. unfold bind. now rewrite H. Qed.

Lemma bind_assoc {A B C} (m : M A) (f : A -> M B) (g : B -> M C) w :
  bind (bind m f) g w = bind m (fun x => bind (f x) g) w.
Proof. unfold bind. now destruct (m w) as [[a|s d] w']. Qed.

Lemma bind_ret {A B} (a : A) (k : A -> M B) w : bind (ret a) k w = k a w.
Proof. reflexivity. Qed.

Lemma require_admin_ok t w :
  t ∈ TOKENS w -> require_admin (Some t) w = (Return true, w).
Proof.
  intros H. unfold require_admin. now rewrite bool_decide_eq_true_2.
Qed.

Lemma require_admin_fails token w :
  (token = None \/ exists t, token = Some t /\ t ∉ TOKENS w) ->
  require_admin token w = (HTTPException 401 "Unauthorized", w).
Proof.
  intros [-> | (t & -> & H)]; [reflexivity|].
  unfold require_admin. now rewrite bool_decide_eq_false_2.
Qed.

Lemma collection_connected c w d :
  db w = Some d -> collection c w = (Return (coll d c), w).
Proof. intros H. unfold collection. now rewrite H. Qed.

Lemma find_one_connected c flt w d :
  db w = Some d ->
  find_one c flt w = (Return (List.find flt (coll d c)), log_call (FindOne c) w).
Proof. intros H. unfold find_one, bind, collection. now rewrite H. Qed.

Lemma find_connected c flt limit w d :
  db w = Some d ->
  find c flt limit w
  = (Return (match limit with
             | Some n => take n (List.filter flt (coll d c))
             | None => List.filter flt (coll d c)
             end), log_call (Find c) w).
Proof. intros H. unfold find, bind, collection. now rewrite H. Qed.

Lemma update_one_connected c flt upd w d :
  db w = Some d -> bson_ok upd = true ->
  update_one c flt upd w
  = (Return tt,
     set_db (alter (update_first flt (fun x => upd ∪ x)) c d)
            (log_call (UpdateOne c) w)).
Proof.
  intros H Hb. unfold update_one, bind, collection, modify, call.
  rewrite H, Hb. cbn. now rewrite H.
Qed.

Lemma delete_one_connected c flt w d :
  db w = Some d ->
  delete_one c flt w
  = (Return tt,
     set_db (alter (delete_first flt) c d) (log_call (DeleteOne c) w)).
Proof. intros H. unfold delete_one, bind, collection, modify. rewrite H. cbn. now rewrite H. Qed.

Lemma coll_alter f c c' (d : Database) :
  f [] = [] ->
  coll (alter f c d) c' = if decide (c = c') then f (coll d c') else coll d c'.
Proof.
  intros Hf. unfold coll. rewrite lookup_alter.
  destruct (decide (c = c')) as [->|]; [|reflexivity].
  destruct (d !! c'); cbn; congruence.
Qed.

Lemma alter_same f c (d : Database) :
  f (coll d c) = coll d c -> alter f c d = d.
Proof.
  intros Hf. apply map_eq. intros c'. rewrite lookup_alter.
  destruct (decide (c = c')) as [<-|]; [|reflexivity].
  unfold coll in Hf. destruct (d !! c); cbn in *; congruence.
Qed.

(** ** Routing *)

Lemma String_eqb_nonempty (s : string) : s <> "" -> String.eqb s "" = false.
Proof. intros H. now apply String.eqb_neq. Qed.

Lemma ObjectId_of_str_nonempty s o : ObjectId_of_str s = Some o -> s <> "".
Proof. intros H ->. discriminate H. Qed.

Lemma resolve_In rs m path partial rt ps :
  resolve rs m path partial = Matched rt ps ->
  In rt rs /\ match_path (rt_path rt) path = Some ps /\ rt_method rt = m.
Proof.
  revert partial. induction rs as [|rt' rs IH]; intros partial; cbn.
  - destruct partial; discriminate.
  - destruct (match_path (rt_path rt') path) as [ps'|] eqn:Hp.
    + case_bool_decide as Hm.
      * intros [= <- <-]. auto.
      * intros H. destruct (IH _ H) as (? & ? & ?). auto.
    + intros H. destruct (IH _ H) as (? & ? & ?). auto.
Qed.

(** The article route serves every [GET] of a non-empty segment under
    [/api/lore]. *)
Lemma handle_lore r e id :
  r_method r = GET -> r_path r = ["api"; "lore"; id] -> id <> "" ->
  handle r e = get_lore_article id.
Proof.
  intros Hm Hp Hid. unfold handle. rewrite Hm, Hp. cbn.
  rewrite (String_eqb_nonempty _ Hid). reflexivity.
Qed.

(** ** Public form of a document *)

Lemma falsy_has_id a o : a !! "_id" = Some (VOid o) -> falsy (Some a) = false.
Proof.
  intros H. cbn. apply bool_decide_eq_false_2. intros ->.
  rewrite lookup_empty in H. discriminate.
Qed.

Lemma doc_to_public_oid a o :
  a !! "_id" = Some (VOid o) ->
  doc_to_public (Some a)
  = Some (<["id" := VStr (oid_hex o)]> (delete "_id" a)).
Proof.
  intros H. unfold doc_to_public. rewrite (falsy_has_id _ _ H).
  unfold get. rewrite H. reflexivity.
Qed.

Lemma has_id_true o a : has_id o a = true <-> a !! "_id" = Some (VOid o).
Proof. unfold has_id. apply bool_decide_eq_true. Qed.

Lemma find_has_id_None o (l : list doc) :
  (forall a, a ∈ l -> a !! "_id" <> Some (VOid o)) ->
  List.find (has_id o) l = None.
Proof.
  intros H. destruct (List.find (has_id o) l) as [a|] eqn:Hf; [|reflexivity].
  apply find_some in Hf as [Hin Hid]. apply has_id_true in Hid.
  apply list_elem_of_In in Hin. now destruct (H a Hin).
Qed.

Lemma find_has_id_Some o (l : list doc) :
  (exists a, a ∈ l /\ a !! "_id" = Some (VOid o)) ->
  exists a, a ∈ l /\ a !! "_id" = Some (VOid o)
            /\ List.find (has_id o) l = Some a.
Proof.
  intros (a & Hin & Hid).
  destruct (List.find (has_id o) l) as [a'|] eqn:Hf.
  - apply find_some in Hf as [Hin' Hid']. apply has_id_true in Hid'.
    exists a'. split; [now apply list_elem_of_In|]. auto.
  - apply list_elem_of_In in Hin.
    pose proof (find_none _ _ Hf a Hin) as Hn.
    apply has_id_true in Hid. congruence.
Qed.

Lemma get_public o (a : doc) k :
  k <> "id" -> k <> "_id" ->
  get (<["id" := VStr (oid_hex o)]> (delete "_id" a)) k = get a k.
Proof.
  intros H1 H2. unfold get.
  rewrite lookup_insert_ne by congruence.
  rewrite lookup_delete_ne by congruence. reflexivity.
Qed.

(** ** C5: fetching one lore article *)

(** *** What the constructor of ObjectIds accepts *)

Lemma is_hex_not_space c : is_hex c = true -> is_space c = false.
Proof.
  destruct c as [[] [] [] [] [] [] [] []]; cbn; intros H;
    first [reflexivity | discriminate H].
Qed.

Lemma fromhex_all_hex n s :
  String.length s = (2 * n)%nat -> all_hex s = true ->
  fromhex s = Some (lowercase s).
Proof.
  revert s. induction n as [|n IH]; intros s Hlen Hhex.
  - destruct s; [reflexivity|discriminate].
  - destruct s as [|c [|c' s]]; try (cbn in Hlen; lia).
    cbn [all_hex] in Hhex. apply andb_prop in Hhex as [Hc Hhex].
    apply andb_prop in Hhex as [Hc' Hhex].
    cbn [fromhex lowercase]. rewrite (is_hex_not_space c Hc), Hc, Hc'.
    cbn [andb]. rewrite IH; [reflexivity| |exact Hhex].
    cbn in Hlen. lia.
Qed.

(** The ids of 24 hexadecimal digits are accepted, and read as themselves
    in lower case; an id of another length is refused. *)
Lemma ObjectId_of_str_well_formed s :
  well_formed_id s = true -> ObjectId_of_str s = Some (mkOid (lowercase s)).
Proof.
  unfold well_formed_id, ObjectId_of_str. intros H.
  apply andb_prop in H as [Hlen Hhex]. rewrite Hlen.
  apply Nat.eqb_eq in Hlen.
  now rewrite (fromhex_all_hex 12 s Hlen Hhex).
Qed.

Lemma ObjectId_of_str_length s o :
  ObjectId_of_str s = Some o -> String.length s = 24%nat.
Proof.
  unfold ObjectId_of_str.
  destruct (Nat.eqb_spec (String.length s) 24); [auto|discriminate].
Qed.

(** Claim C5.  A request [GET /api/lore/{id}] is answered with 400 when the
    constructor of ObjectIds refuses the id, as it does every id that is not
    24 characters long; with 404 when the constructor accepts the id, as it
    does every id of 24 hexadecimal digits, and no article carries it; and
    otherwise with the public shape
    [{id, title, short_description, main_image_url, content_body}] of an
    article carrying it.  With a connected store the answer is one of these
    three, never a server error. *)
Theorem C5_get_lore_article (r : request) (e : entropy) (w : world)
        (id : string) :
  r_method r = GET -> r_path r = ["api"; "lore"; id] -> id <> "" ->
  (ObjectId_of_str id = None ->
   handle r e w = (HTTPException 400 "Invalid article id", w))
  /\ (String.length id <> 24%nat -> ObjectId_of_str id = None)
  /\ (well_formed_id id = true ->
      ObjectId_of_str id = Some (mkOid (lowercase id)))
  /\ (forall o d,
        ObjectId_of_str id = Some o -> db w = Some d ->
        (forall a, a ∈ coll d "lorearticle" -> a !! "_id" <> Some (VOid o)) ->
        handle r e w = (HTTPException 404 "Article not found",
                        log_call (FindOne "lorearticle") w))
  /\ (forall o d,
        ObjectId_of_str id = Some o -> db w = Some d ->
        (exists a, a ∈ coll d "lorearticle" /\ a !! "_id" = Some (VOid o)) ->
        exists a, a ∈ coll d "lorearticle" /\ a !! "_id" = Some (VOid o)
          /\ handle r e w
             = (Return (JObj {[ "id" := VStr (oid_hex o);
                                "title" := get a "title";
                                "short_description" :=
                                  get a "short_description";
                                "main_image_url" := get a "main_image_url";
                                "content_body" := get a "content_body" ]}),
                log_call (FindOne "lorearticle") w))
  /\ (forall d, db w = Some d ->
                status_of (handle r e w).1 = 200
                \/ status_of (handle r e w).1 = 400
                \/ status_of (handle r e w).1 = 404).
Proof.
  intros Hm Hp Hid. rewrite (handle_lore r e id Hm Hp Hid).
  unfold get_lore_article.
  split; [|split; [|split; [|split; [|split]]]].
  - intros ->. reflexivity.
  - intros Hlen. destruct (ObjectId_of_str id) as [o|] eqn:Ho; [|reflexivity].
    now apply ObjectId_of_str_length in Ho.
  - apply ObjectId_of_str_well_formed.
  - intros o d -> Hd Hnone.
    rewrite (bind_Return _ _ _ _ _ (find_one_connected _ _ _ _ Hd)).
    rewrite (find_has_id_None _ _ Hnone). reflexivity.
  - intros o d -> Hd Hsome.
    destruct (find_has_id_Some _ _ Hsome) as (a & Hin & Ha & Hf).
    exists a. split; [assumption|]. split; [assumption|].
    rewrite (bind_Return _ _ _ _ _ (find_one_connected _ _ _ _ Hd)).
    rewrite Hf, (falsy_has_id _ _ Ha), (doc_to_public_oid _ _ Ha).
    rewrite lookup_insert_eq.
    rewrite !get_public by discriminate. reflexivity.
  - intros d Hd. destruct (ObjectId_of_str id) as [o|]; [|auto].
    rewrite (bind_Return _ _ _ _ _ (find_one_connected _ _ _ _ Hd)).
    destruct (List.find (has_id o) (coll d "lorearticle")) as [a|] eqn:Hf;
      [|auto].
    apply find_some in Hf as [_ Ha]. apply has_id_true in Ha.
    rewrite (falsy_has_id _ _ Ha), (doc_to_public_oid _ _ Ha).
    rewrite lookup_insert_eq. auto.
Qed.

(** ** C6: the search route *)

(** Claim C6.  [GET /api/lore/search?q=forest], sent to a store holding the
    article "The Dark Forest", is served by the route [/api/lore/{article_id}]
    declared before the search route: the handler takes "search" for an
    article id and answers 400, and the search never runs. *)
Theorem C6_search_answered_by_article_route :
  handle (mkRequest GET ["api"; "lore"; "search"] None (Some "forest") None)
         Sample.e Sample.w
  = (HTTPException 400 "Invalid article id", Sample.w).
Proof. reflexivity. Qed.

(** Property X18.  Every [GET /api/lore/search], whatever its query and
    the store, is served by the article route and answered 400 "Invalid
    article id"; the world stays as it was. *)
Lemma search_route_unreachable r e w :
  r_method r = GET -> r_path r = ["api"; "lore"; "search"] ->
  handle r e w = (HTTPException 400 "Invalid article id", w).
Proof.
  intros Hm Hp. rewrite (handle_lore r e "search" Hm Hp) by discriminate.
  reflexivity.
Qed.

(** ** Effects of a request on the process globals *)

Section Frame.

Variable R : world -> world -> Prop.
Hypothesis R_refl : forall w, R w w.
Hypothesis R_trans : forall a b c, R a b -> R b c -> R a c.
Hypothesis R_log : forall k w, R w (log_call k w).
Hypothesis R_db : forall d w, R w (set_db d w).

Lemma steps_ret {A} (a : A) : steps R (ret a).
Proof. intros w. apply R_refl. Qed.

Lemma steps_raise {A} s d : steps R (@raise A s d).
Proof. intros w. apply R_refl. Qed.

Lemma steps_bind {A B} (m : M A) (k : A -> M B) :
  steps R m -> (forall a, steps R (k a)) -> steps R (bind m k).
Proof.
  intros Hm Hk w. unfold bind. specialize (Hm w).
  destruct (m w) as [[a|s d] w']; cbn in *; [|assumption].
  eapply R_trans; [eassumption|]. apply Hk.
Qed.

Lemma steps_collection c : steps R (collection c).
Proof. intros w. unfold collection. destruct (db w); apply R_refl. Qed.

Lemma steps_call k : steps R (call k).
Proof. intros w. apply R_log. Qed.

Lemma steps_store c l : steps R (store c l).
Proof. intros w. unfold store. destruct (db w); [apply R_db|apply R_refl]. Qed.

Lemma steps_modify c f : steps R (modify c f).
Proof. intros w. unfold modify. destruct (db w); [apply R_db|apply R_refl]. Qed.

Lemma steps_require_admin t : steps R (require_admin t).
Proof.
  intros w. unfold require_admin. destruct t; [case_bool_decide|]; apply R_refl.
Qed.

Lemma steps_db_truth : steps R db_truth.
Proof. intros w. unfold db_truth. destruct (db w); apply R_refl. Qed.

Lemma steps_test_database : steps R test_database.
Proof.
  intros w. unfold test_database. destruct (db_truth w) as [[?|? ?] ?];
    apply R_refl.
Qed.

Ltac steps_with tac :=
  repeat first
    [ tac | apply steps_ret | apply steps_raise | apply steps_collection
    | apply steps_call | apply steps_store | apply steps_modify
    | apply steps_test_database | apply steps_db_truth
    | apply steps_bind; [|intros ?]
    | match goal with
      | |- steps _ (match ?x with _ => _ end) => destruct x
      | |- steps _ (let (_, _) := ?x in _) => destruct x
      end
    | progress unfold unhandled, unprocessable, find_one, find, insert_one,
        find_one_sorted_desc, update_one, delete_one, create_document,
        get_documents, fetch_created, query_token, query_q, body_as ].

Ltac steps := steps_with fail.

Lemma steps_public_get_map : steps R public_get_map.
Proof. unfold public_get_map. steps. Qed.

Lemma steps_routes :
  Forall (fun rt => rt = login_route
                    \/ forall ps r e, steps R (rt_call rt ps r e)) routes.
Proof.
  unfold routes.
  repeat (apply Forall_cons; split;
          [first [left; reflexivity
                 | right; intros ps r e; cbn [rt_call];
                   unfold root, get_pois, get_lore_article, search_lore,
                     get_map, set_map, admin_list_pois, admin_create_poi,
                     admin_update_poi, admin_delete_poi, admin_list_lore,
                     admin_create_lore, admin_update_lore, admin_delete_lore,
                     admin_list_categories, admin_create_category,
                     admin_update_category, admin_delete_category,
                     admin_list, admin_create, admin_update, admin_delete;
                   solve [steps_with ltac:(apply steps_public_get_map)]] |]).
  apply Forall_nil. exact I.
Qed.

Lemma match_path_literal ls path ps :
  match_path (map Lit ls) path = Some ps -> path = ls.
Proof.
  revert path. induction ls as [|x ls IH]; intros [|y path]; cbn;
    try discriminate; [reflexivity|].
  destruct (String.eqb_spec x y); [subst|discriminate].
  intros H. f_equal. now apply IH.
Qed.

(** A request that is not a login is served by another route. *)
Lemma resolve_login r rt ps :
  resolve routes (r_method r) (r_path r) false = Matched rt ps ->
  rt = login_route -> is_login r = true.
Proof.
  intros H ->. apply resolve_In in H as (_ & Hp & Hm). cbn in Hm.
  unfold is_login. rewrite <- Hm, bool_decide_eq_true_2 by reflexivity. cbn.
  apply bool_decide_eq_true_2.
  change (rt_path login_route) with (map Lit ["api"; "admin"; "login"]) in Hp.
  now apply match_path_literal in Hp.
Qed.

Lemma steps_handle_other r e : is_login r = false -> steps R (handle r e).
Proof.
  intros Hl. unfold handle.
  destruct (resolve routes (r_method r) (r_path r) false) as [rt ps| |] eqn:Hr;
    [|apply steps_raise|destruct (redirect_slashes _); apply steps_raise].
  pose proof (resolve_login _ _ _ Hr) as Hlogin.
  apply resolve_In in Hr as (Hin & _ & _).
  pose proof (proj1 (List.Forall_forall _ _) steps_routes rt Hin) as [->|Hs].
  - rewrite Hlogin in Hl by reflexivity. discriminate.
  - unfold serve. destruct (rt_guard rt); [|apply Hs].
    apply steps_bind; [apply steps_require_admin|intros _; apply Hs].
Qed.

Hypothesis R_tokens : forall t w, R w (set_TOKENS ({[ t ]} ∪ TOKENS w) w).

Lemma steps_admin_login p e : steps R (admin_login p e).
Proof.
  intros w. unfold admin_login.
  destruct (_ && _); [apply R_tokens|apply R_refl].
Qed.

Lemma steps_handle r e : steps R (handle r e).
Proof.
  destruct (is_login r) eqn:Hl; [|now apply steps_handle_other].
  unfold handle.
  destruct (resolve routes (r_method r) (r_path r) false) as [rt ps| |] eqn:Hr;
    [|apply steps_raise|destruct (redirect_slashes _); apply steps_raise].
  apply resolve_In in Hr as (Hin & _ & _).
  assert (forall ps r e, steps R (rt_call rt ps r e)) as Hs.
  { pose proof (proj1 (List.Forall_forall _ _) steps_routes rt Hin) as [->|Hs];
      [|exact Hs].
    intros ps' r' e'. cbn. apply steps_bind; [|intros; apply steps_admin_login].
    steps. }
  unfold serve. destruct (rt_guard rt); [|apply Hs].
  apply steps_bind; [apply steps_require_admin|intros _; apply Hs].
Qed.

Lemma steps_run rs w : R w (run rs w).2.
Proof.
  revert w. induction rs as [|[r e] rs IH]; intros w; cbn; [apply R_refl|].
  pose proof (steps_handle r e w) as H.
  destruct (handle r e w) as [o w1]. specialize (IH w1).
  destruct (run rs w1) as [os w2]. cbn in *. eauto.
Qed.

End Frame.

(** ** C1: the admin guard and the token set *)

Lemma TOKENS_grow rs w : TOKENS w ⊆ TOKENS (run rs w).2.
Proof.
  apply (steps_run (fun a b => TOKENS a ⊆ TOKENS b)); intros; cbn;
    set_solver.
Qed.

Lemma TOKENS_kept r e w :
  is_login r = false -> TOKENS (handle r e w).2 = TOKENS w.
Proof.
  intros Hl.
  apply (steps_handle_other (fun a b => TOKENS b = TOKENS a)); intros; cbn;
    congruence.
Qed.

Lemma handle_login r e :
  is_login r = true ->
  handle r e = (let! p := body_as AuthRequest r in admin_login p e).
Proof.
  unfold is_login. intros H. apply andb_prop in H as [Hm Hp].
  apply bool_decide_eq_true in Hm. apply bool_decide_eq_true in Hp.
  unfold handle. rewrite Hm, Hp. reflexivity.
Qed.

Lemma TOKENS_login r e w :
  is_login r = true ->
  TOKENS (handle r e w).2
  = match issued_token r (handle r e w).1 with
    | Some t => {[ t ]} ∪ TOKENS w
    | None => TOKENS w
    end.
Proof.
  intros Hl. unfold issued_token. rewrite Hl, (handle_login r e Hl).
  unfold body_as, bind.
  destruct (r_body r) as [b|]; [|reflexivity].
  destruct (validate AuthRequest b) as [p|]; [|reflexivity].
  cbn. unfold admin_login. destruct (_ && _); [|reflexivity].
  cbn. rewrite lookup_singleton_eq. reflexivity.
Qed.

Lemma TOKENS_handle r e w :
  TOKENS (handle r e w).2
  = match issued_token r (handle r e w).1 with
    | Some t => {[ t ]} ∪ TOKENS w
    | None => TOKENS w
    end.
Proof.
  destruct (is_login r) eqn:Hl; [now apply TOKENS_login|].
  rewrite TOKENS_kept by assumption. unfold issued_token. now rewrite Hl.
Qed.

(** The token set is what it was at the start plus the tokens handed out
    by the logins since. *)
Lemma TOKENS_run rs w :
  TOKENS (run rs w).2 = TOKENS w ∪ issued rs (run rs w).1.
Proof.
  revert w. induction rs as [|[r e] rs IH]; intros w; cbn.
  - set_solver.
  - pose proof (TOKENS_handle r e w) as Hh.
    destruct (handle r e w) as [o w1]. specialize (IH w1).
    destruct (run rs w1) as [os w2]. cbn in *. rewrite IH, Hh.
    destruct (issued_token r o); set_solver.
Qed.

Lemma validate_AuthRequest b u p :
  b !! "username" = Some (VStr u) -> b !! "password" = Some (VStr p) ->
  validate AuthRequest b
  = Some (<["username" := VStr u]> (<["password" := VStr p]> ∅)).
Proof.
  intros Hu Hp. cbn. unfold validate_field. cbn. rewrite Hu, Hp. reflexivity.
Qed.

Lemma login_configured r e w b :
  is_login r = true -> r_body r = Some b ->
  b !! "username" = Some (VStr (ADMIN_USERNAME w)) ->
  b !! "password" = Some (VStr (ADMIN_PASSWORD w)) ->
  handle r e w
  = (Return (JObj {[ "token" := VStr (urandom_hex e) ]}),
     set_TOKENS ({[ urandom_hex e ]} ∪ TOKENS w) w).
Proof.
  intros Hl Hb Hu Hp. rewrite (handle_login r e Hl). unfold body_as.
  rewrite Hb, (validate_AuthRequest _ _ _ Hu Hp). cbn. unfold admin_login.
  unfold get. rewrite lookup_insert_eq, lookup_insert_ne by discriminate.
  rewrite lookup_insert_eq. cbn.
  rewrite !bool_decide_eq_true_2 by reflexivity. reflexivity.
Qed.

(** What arrives is served as a request, or refused before the route is
    entered, the world unchanged. *)
Lemma receive_cases x e w :
  receive x e w = handle (request_of x) e w
  \/ exists s d, receive x e w = (HTTPException s d, w).
Proof.
  destruct x as [r|r why]; [now left|]. unfold receive.
  destruct (resolve routes (r_method r) (r_path r) false) as [rt ps| |];
    [|now left|now left].
  destruct (rt_body rt); [|now left].
  right. destruct why; do 2 eexists; reflexivity.
Qed.

Lemma TOKENS_receive x e w :
  TOKENS (receive x e w).2
  = match issued_token (request_of x) (receive x e w).1 with
    | Some t => {[ t ]} ∪ TOKENS w
    | None => TOKENS w
    end.
Proof.
  destruct (receive_cases x e w) as [-> | (s & d & ->)];
    [apply TOKENS_handle|].
  unfold issued_token. now destruct (is_login (request_of x)).
Qed.

Lemma TOKENS_run_received xs w :
  TOKENS (run_received xs w).2
  = TOKENS w ∪ issued (requests_of xs) (run_received xs w).1.
Proof.
  revert w. induction xs as [|[x e] xs IH]; intros w; cbn.
  - set_solver.
  - pose proof (TOKENS_receive x e w) as Hh.
    destruct (receive x e w) as [o w1]. specialize (IH w1).
    destruct (run_received xs w1) as [os w2]. cbn in *. rewrite IH, Hh.
    destruct (issued_token (request_of x) o); set_solver.
Qed.

Lemma TOKENS_grow_received xs w : TOKENS w ⊆ TOKENS (run_received xs w).2.
Proof. rewrite TOKENS_run_received. set_solver. Qed.

(** The admin route requests are served by routes that depend on
    [require_admin]; those of [POST] and [PUT] declare a body. *)
Lemma admin_operation_guarded r :
  admin_operation r = true ->
  exists rt ps,
    resolve routes (r_method r) (r_path r) false = Matched rt ps
    /\ rt_guard rt = true /\ rt_body rt = sends_body r.
Proof.
  unfold admin_operation, sends_body.
  destruct (r_path r) as [|a [|b [|c [|id [|? ?]]]]]; try discriminate.
  - rewrite !andb_true_iff, orb_true_iff. intros [[[Ha Hb] Hc] Hm].
    apply String.eqb_eq in Ha, Hb. subst a b.
    assert (In c ("map" :: admin_groups)) as Hin.
    { destruct Hc as [Hc|Hc]; [apply String.eqb_eq in Hc; now left|].
      right. apply existsb_exists in Hc as (g & Hg & Hc).
      apply String.eqb_eq in Hc. now subst. }
    destruct Hin as [<-|[<-|[<-|[<-|[]]]]];
      destruct (r_method r); try discriminate;
      do 2 eexists; (split; [reflexivity|split; reflexivity]).
  - rewrite !andb_true_iff, negb_true_iff. intros [[[[Ha Hb] Hc] Hid] Hm].
    apply String.eqb_eq in Ha, Hb. subst a b.
    apply existsb_exists in Hc as (g & Hin & Hc).
    apply String.eqb_eq in Hc. subst g.
    destruct Hin as [<-|[<-|[<-|[]]]];
      destruct (r_method r); try discriminate; cbn; rewrite Hid;
      do 2 eexists; (split; [reflexivity|split; reflexivity]).
Qed.

(** Claim C1.  In a process started with an empty token set and having
    served any sequence of requests: a request to an admin route without a
    token, or with a token that no login has issued, is answered 401 when
    its body was read as JSON or when its route takes no body; a [POST] or
    [PUT] to an admin route whose body cannot be read is refused before the
    guard runs, whatever its token, with 422, or 400 when the body is not
    text; a login with the configured username and password returns a token
    that enters the set; and every token issued by a login is accepted by
    the guard, also after any further sequence of requests. *)
Theorem C1_admin_guard (xs : list (received * entropy)) (w0 : world) :
  TOKENS w0 = ∅ ->
  let os := (run_received xs w0).1 in
  let w := (run_received xs w0).2 in
  (forall x e,
      admin_operation (request_of x) = true ->
      (r_token (request_of x) = None
       \/ exists t, r_token (request_of x) = Some t
                    /\ t ∉ issued (requests_of xs) os) ->
      match x with
      | Readable _ => receive x e w = (HTTPException 401 "Unauthorized", w)
      | Unreadable r _ =>
          sends_body r = false ->
          receive x e w = (HTTPException 401 "Unauthorized", w)
      end)
  /\ (forall r why e,
        admin_operation r = true -> sends_body r = true ->
        receive (Unreadable r why) e w
        = (match why with
           | NotJSON => HTTPException 422 "Unprocessable Entity"
           | NotText => HTTPException 400 "There was an error parsing the body"
           end, w))
  /\ (forall r e b,
        is_login r = true -> r_body r = Some b ->
        b !! "username" = Some (VStr (ADMIN_USERNAME w)) ->
        b !! "password" = Some (VStr (ADMIN_PASSWORD w)) ->
        receive (Readable r) e w
        = (Return (JObj {[ "token" := VStr (urandom_hex e) ]}),
           set_TOKENS ({[ urandom_hex e ]} ∪ TOKENS w) w)
        /\ issued_token r (receive (Readable r) e w).1
           = Some (urandom_hex e))
  /\ (forall t xs',
        t ∈ issued (requests_of xs) os ->
        let w' := (run_received xs' w).2 in
        require_admin (Some t) w' = (Return true, w')).
Proof.
  intros H0 os w.
  assert (TOKENS w = issued (requests_of xs) os) as Hw.
  { unfold w, os. rewrite TOKENS_run_received, H0. set_solver. }
  assert (forall r e,
             admin_operation r = true ->
             (r_token r = None
              \/ exists t, r_token r = Some t
                           /\ t ∉ issued (requests_of xs) os) ->
             handle r e w = (HTTPException 401 "Unauthorized", w)) as Hguard.
  { intros r e Hadm Htok.
    destruct (admin_operation_guarded r Hadm) as (rt & ps & Hr & Hg & _).
    unfold handle. rewrite Hr. unfold serve. rewrite Hg.
    apply bind_HTTPException. apply require_admin_fails.
    rewrite Hw. exact Htok. }
  split; [|split; [|split]].
  - intros [r|r why] e Hadm Htok; cbn [request_of] in *.
    + now apply Hguard.
    + intros Hbody.
      destruct (admin_operation_guarded r Hadm) as (rt & ps & Hr & _ & Hb).
      unfold receive. rewrite Hr, Hb, Hbody. now apply Hguard.
  - intros r why e Hadm Hbody.
    destruct (admin_operation_guarded r Hadm) as (rt & ps & Hr & _ & Hb).
    unfold receive. rewrite Hr, Hb, Hbody. now destruct why.
  - intros r e b Hl Hb Hu Hp. cbn [receive].
    rewrite (login_configured r e w b Hl Hb Hu Hp). split; [reflexivity|].
    unfold issued_token. rewrite Hl. cbn.
    rewrite lookup_singleton_eq. reflexivity.
  - intros t xs' Ht w'. apply require_admin_ok.
    apply (TOKENS_grow_received xs' w). rewrite Hw. exact Ht.
Qed.

(** ** Validation *)

Lemma validate_None schema f b :
  In f schema -> validate_field f b = None -> validate schema b = None.
Proof.
  induction schema as [|g schema IH]; intros Hin Hf; [destruct Hin|].
  destruct Hin as [<-|Hin]; cbn.
  - now rewrite Hf.
  - rewrite (IH Hin Hf). now destruct (validate_field g b).
Qed.

Lemma in_range_unit q :
  in_range (Some 0%Q) (Some 1%Q) q = true <-> (0 <= q /\ q <= 1)%Q.
Proof.
  unfold in_range. rewrite andb_true_iff, !Qle_bool_iff. reflexivity.
Qed.

Lemma float_of_int_small z : Z.abs z < 2 ^ 53 -> float_of_int z = Some z.
Proof.
  intros H. unfold float_of_int.
  destruct (Z.ltb_spec (Z.log2 (Z.abs z)) 53) as [Hn|Hn]; [reflexivity|].
  exfalso. destruct (Z.eq_dec (Z.abs z) 0) as [E|E].
  - rewrite E in Hn. cbn in Hn. lia.
  - assert (0 < Z.abs z) as Hp by lia.
    destruct (Z.log2_spec _ Hp) as [Hlo _].
    assert (2 ^ 53 <= 2 ^ Z.log2 (Z.abs z)) by (apply Z.pow_le_mono_r; lia).
    lia.
Qed.

(** Rounding keeps an integer on its side of [0, 1]. *)
Lemma float_of_int_outside z m :
  float_of_int z = Some m -> z < 0 \/ 1 < z -> m < 0 \/ 1 < m.
Proof.
  unfold float_of_int. intros H Hz.
  destruct (Z.ltb_spec (Z.log2 (Z.abs z)) 53) as [Hn|Hn];
    [injection H as <-; exact Hz|].
  remember (Z.abs z) as a eqn:Ha. remember (Z.log2 a - 52) as shift eqn:Hs.
  remember (Z.shiftr a shift) as q eqn:Hq.
  remember (if (_ || _)%bool then q + 1 else q) as q' eqn:Hq'.
  destruct (Z.ltb _ (2 ^ 1024)); [|discriminate]. injection H as <-.
  assert (0 < a) as Hpos.
  { destruct (Z.eq_dec a 0) as [E|E]; [rewrite E in Hn; cbn in Hn; lia|lia]. }
  assert (1 <= q) as H1.
  { subst q. rewrite Z.shiftr_div_pow2 by lia.
    destruct (Z.log2_spec a Hpos) as [Hlo _].
    apply Z.div_le_lower_bound; [apply Z.pow_pos_nonneg; lia|].
    rewrite Z.mul_1_r. etransitivity; [|exact Hlo].
    apply Z.pow_le_mono_r; lia. }
  assert (1 <= q') as H2 by (subst q'; destruct (_ || _)%bool; lia).
  assert (2 <= Z.shiftl q' shift) as H3.
  { rewrite Z.shiftl_mul_pow2 by lia.
    assert (2 ^ 1 <= 2 ^ shift) by (apply Z.pow_le_mono_r; lia).
    change (2 ^ 1) with 2 in *. nia. }
  destruct z; cbn [Z.sgn]; lia.
Qed.

Lemma unit_inject_Z z : (0 <= inject_Z z /\ inject_Z z <= 1)%Q <-> 0 <= z <= 1.
Proof.
  change 0%Q with (inject_Z 0). change 1%Q with (inject_Z 1).
  rewrite <- !Zle_Qle. reflexivity.
Qed.

Lemma check_unit_outside v q :
  as_number v = Some q -> ~ (0 <= q /\ q <= 1)%Q ->
  check_type (TFloat (Some 0%Q) (Some 1%Q)) v = None.
Proof.
  intros Hv Hq.
  assert (in_range (Some 0%Q) (Some 1%Q) q = false) as Hr.
  { apply not_true_is_false. now rewrite in_range_unit. }
  destruct v as [|b|z|q'|s|l|o]; try discriminate; cbn in Hv;
    injection Hv as <-; unfold check_type, read_float.
  - now rewrite Hr.
  - destruct (float_of_int z) as [m|] eqn:Hm; [|reflexivity]. cbn.
    rewrite unit_inject_Z in Hq.
    assert (m < 0 \/ 1 < m) as Hout
      by (apply (float_of_int_outside z m Hm); lia).
    assert (in_range (Some 0%Q) (Some 1%Q) (inject_Z m) = false) as ->;
      [|reflexivity].
    apply not_true_is_false. rewrite in_range_unit, unit_inject_Z. lia.
  - now rewrite Hr.
Qed.

Lemma validate_POI_outside b :
  outside_unit b "x_coordinate" \/ outside_unit b "y_coordinate" ->
  validate POI b = None.
Proof.
  intros [(q & Hq & Hr)|(q & Hq & Hr)].
  - apply (validate_None _ (mkField "x_coordinate" (TFloat (Some 0%Q) (Some 1%Q))
                                    false Required)); [cbn; auto|].
    unfold validate_field. cbn.
    destruct (b !! "x_coordinate") as [v|]; [|discriminate]. cbn in Hq.
    now apply (check_unit_outside v q).
  - apply (validate_None _ (mkField "y_coordinate" (TFloat (Some 0%Q) (Some 1%Q))
                                    false Required)); [cbn; auto|].
    unfold validate_field. cbn.
    destruct (b !! "y_coordinate") as [v|]; [|discriminate]. cbn in Hq.
    now apply (check_unit_outside v q).
Qed.

Lemma handle_create_poi r e :
  r_method r = POST -> r_path r = ["api"; "admin"; "pois"] ->
  handle r e
  = (let! _ := require_admin (r_token r) in
     let! _ := query_token r in
     let! p := body_as POICreate r in
     admin_create_poi p e).
Proof. intros Hm Hp. unfold handle. rewrite Hm, Hp. reflexivity. Qed.

(** ** C3: a POI outside the map *)

(** Claim C3.  A request [POST /api/admin/pois] whose payload has an
    [x_coordinate] or a [y_coordinate] outside [0, 1] is answered with a
    client error (401 without a valid token, 422 otherwise) and leaves the
    world as it was: no document is stored and no call reaches the store. *)
Theorem C3_poi_out_of_range (r : request) (e : entropy) (w : world)
        (b : doc) :
  r_method r = POST -> r_path r = ["api"; "admin"; "pois"] ->
  r_body r = Some b ->
  outside_unit b "x_coordinate" \/ outside_unit b "y_coordinate" ->
  client_error (status_of (handle r e w).1)
  /\ (handle r e w).2 = w.
Proof.
  intros Hm Hp Hb Hout. rewrite (handle_create_poi r e Hm Hp).
  unfold bind, require_admin, query_token, body_as, POICreate.
  rewrite Hb, (validate_POI_outside b Hout).
  destruct (r_token r) as [t|]; [|cbn; unfold client_error; split; [lia|reflexivity]].
  case_bool_decide; cbn; unfold client_error; split; (lia || reflexivity).
Qed.

(** ** The update and delete routes *)

(** The requests of the three CRUD groups reach their handlers. *)
Lemma handle_update r e seg c schema id :
  In (seg, c, schema) crud ->
  r_method r = PUT -> r_path r = ["api"; "admin"; seg; id] -> id <> "" ->
  handle r e
  = (let! _ := require_admin (r_token r) in
     let! _ := query_token r in
     let! p := body_as schema r in
     admin_update c id p).
Proof.
  intros Hin Hm Hp Hid. unfold handle. rewrite Hm, Hp.
  destruct Hin as [[= <- <- <-]|[[= <- <- <-]|[[= <- <- <-]|[]]]]; cbn;
    rewrite (String_eqb_nonempty _ Hid); reflexivity.
Qed.

Lemma handle_delete r e seg c schema id :
  In (seg, c, schema) crud ->
  r_method r = DELETE -> r_path r = ["api"; "admin"; seg; id] -> id <> "" ->
  handle r e
  = (let! _ := require_admin (r_token r) in
     let! _ := query_token r in
     admin_delete c id).
Proof.
  intros Hin Hm Hp Hid. unfold handle. rewrite Hm, Hp.
  destruct Hin as [[= <- <- <-]|[[= <- <- <-]|[[= <- <- <-]|[]]]]; cbn;
    rewrite (String_eqb_nonempty _ Hid); reflexivity.
Qed.

(** With a token of the set, the guard and the [token] parameter let the
    handler run. *)
Lemma accepted_runs r t w (k : M body) :
  r_token r = Some t -> t ∈ TOKENS w ->
  (let! _ := require_admin (r_token r) in let! _ := query_token r in k) w
  = k w.
Proof.
  intros Hr Ht. rewrite Hr.
  rewrite (bind_Return _ _ _ _ _ (require_admin_ok t w Ht)).
  unfold query_token. rewrite Hr. reflexivity.
Qed.

Lemma body_as_valid schema r b p w :
  r_body r = Some b -> validate schema b = Some p ->
  body_as schema r w = (Return p, w).
Proof. intros Hb Hv. unfold body_as. now rewrite Hb, Hv. Qed.

(** *** Blank payloads *)

Lemma validate_blank schema b :
  all_optional schema -> blank schema b ->
  exists p, validate schema b = Some p
            /\ forall k v, p !! k = Some v -> v = VNone.
Proof.
  induction schema as [|f schema IH]; intros Hopt Hblank; cbn.
  - exists ∅. split; [reflexivity|]. intros k v. now rewrite lookup_empty.
  - apply Forall_cons in Hopt as [[Ho Hd] Hopt].
    apply Forall_cons in Hblank as [Hf Hblank].
    destruct (IH Hopt Hblank) as (p & Hp & Hnone).
    rewrite Hp. unfold validate_field. rewrite Ho, Hd.
    exists (<[f_name f := VNone]> p).
    destruct Hf as [-> | ->]; cbn;
      (split; [reflexivity|]); intros k v; rewrite lookup_insert;
      case_decide; [congruence|apply Hnone|congruence|apply Hnone].
Qed.

Lemma update_doc_of_None (p : doc) :
  (forall k v, p !! k = Some v -> v = VNone) -> update_doc_of p = ∅.
Proof.
  intros H. apply map_eq. intros k. rewrite lookup_empty.
  apply map_lookup_filter_None. right. intros v Hk. cbn.
  rewrite (H k v Hk). discriminate.
Qed.

Lemma crud_all_optional seg c schema :
  In (seg, c, schema) crud -> all_optional schema.
Proof.
  intros [[= <- <- <-]|[[= <- <- <-]|[[= <- <- <-]|[]]]];
    repeat (apply Forall_cons; split; [split; reflexivity|]);
    apply Forall_nil; exact I.
Qed.

(** *** What the driver can encode *)

Lemma check_type_no_int t v v' :
  t <> TInt -> check_type t v = Some v' -> bson_value_ok v' = true.
Proof.
  intros Ht. destruct t as [| |ge le|]; [|congruence| |]; cbn.
  - destruct v; intros [= <-]; reflexivity.
  - destruct (read_float v) as [q|]; [|discriminate].
    destruct (in_range ge le q); intros [= <-]; reflexivity.
  - destruct v; intros [= <-]; reflexivity.
Qed.

Lemma validate_bson_ok schema b p :
  no_int schema -> validate schema b = Some p -> bson_ok p = true.
Proof.
  intros Hs Hv. apply bool_decide_eq_true_2.
  revert p Hv. induction Hs as [|f schema [Ht Hd] Hs IH]; cbn; intros p.
  - intros [= <-]. apply map_Forall_empty.
  - destruct (validate_field f b) as [v|] eqn:Hf; [|discriminate].
    destruct (validate schema b) as [m|]; [|discriminate].
    intros [= <-]. apply map_Forall_insert_2; [|now apply IH].
    unfold validate_field in Hf.
    destruct (b !! f_name f) as [x|].
    + destruct (f_optional f && negb (is_not_None x)).
      * now injection Hf as <-.
      * apply (check_type_no_int _ _ _ Ht Hf).
    + destruct (f_default f) as [|dv] eqn:Hdv; [discriminate|].
      injection Hf as <-. destruct dv; try reflexivity.
      now destruct (Hd z).
Qed.

Lemma bson_ok_update_doc_of (p : doc) :
  bson_ok p = true -> bson_ok (update_doc_of p) = true.
Proof.
  intros H. apply bool_decide_eq_true_2. apply bool_decide_eq_true_1 in H.
  intros k v Hk. apply map_lookup_filter_Some in Hk as [Hk _].
  exact (H k v Hk).
Qed.

Lemma crud_no_int seg c schema :
  In (seg, c, schema) crud -> no_int schema.
Proof.
  intros [[= <- <- <-]|[[= <- <- <-]|[[= <- <- <-]|[]]]];
    repeat (apply Forall_cons; split; [split; [discriminate|intros z; discriminate]|]);
    apply Forall_nil; exact I.
Qed.

Lemma crud_update_encodes seg c schema b p :
  In (seg, c, schema) crud -> validate schema b = Some p ->
  bson_ok (update_doc_of p) = true.
Proof.
  intros Hin Hv. apply bson_ok_update_doc_of.
  exact (validate_bson_ok _ _ _ (crud_no_int _ _ _ Hin) Hv).
Qed.

(** *** Merging *)

Lemma lookup_merged (p a : doc) k :
  (update_doc_of p ∪ a) !! k
  = match p !! k with
    | Some v => if is_not_None v then Some v else a !! k
    | None => a !! k
    end.
Proof.
  unfold update_doc_of.
  destruct (p !! k) as [v|] eqn:Hp.
  - destruct (is_not_None v) eqn:Hv.
    + apply lookup_union_Some_l. apply map_lookup_filter_Some. auto.
    + rewrite lookup_union_r; [reflexivity|].
      apply map_lookup_filter_None. right. intros v' Hk. cbn.
      rewrite Hp in Hk. injection Hk as <-. rewrite Hv. discriminate.
  - rewrite lookup_union_r; [reflexivity|].
    apply map_lookup_filter_None. now left.
Qed.

Lemma update_first_lookup (flt : doc -> bool) f (l : list doc) i a :
  l !! i = Some a ->
  update_first flt f l !! i = Some a
  \/ (flt a = true /\ update_first flt f l !! i = Some (f a)).
Proof.
  revert i. induction l as [|x l IH]; intros i; [discriminate|]. cbn.
  destruct (flt x) eqn:Hx.
  - destruct i as [|i]; cbn; [|auto]. intros [= <-]. auto.
  - destruct i as [|i]; cbn; [auto|]. apply IH.
Qed.

Lemma update_first_find (flt : doc -> bool) f (l : list doc) a :
  List.find flt l = Some a -> flt (f a) = true ->
  List.find flt (update_first flt f l) = Some (f a).
Proof.
  intros Hfind Hf. induction l as [|x l IH]; [discriminate|]. cbn in *.
  destruct (flt x) eqn:Hx.
  - injection Hfind as <-. cbn. now rewrite Hf.
  - cbn. rewrite Hx. now apply IH.
Qed.

Lemma update_first_none (flt : doc -> bool) f (l : list doc) :
  List.find flt l = None -> update_first flt f l = l.
Proof.
  induction l as [|x l IH]; [reflexivity|]. cbn.
  destruct (flt x); [discriminate|]. intros H. now rewrite IH.
Qed.

Lemma length_update_first (flt : doc -> bool) f (l : list doc) :
  length (update_first flt f l) = length l.
Proof.
  induction l as [|x l IH]; [reflexivity|]. cbn.
  destruct (flt x); cbn; congruence.
Qed.

(** [update_first] rewrites the first document the filter accepts, and no
    other. *)
Lemma update_first_at (flt : doc -> bool) f (l : list doc) i a :
  l !! i = Some a ->
  update_first flt f l !! i
  = Some (if flt a && forallb (fun x => negb (flt x)) (take i l)
          then f a else a).
Proof.
  revert i. induction l as [|x l IH]; intros i; [discriminate|]. cbn.
  destruct i as [|i]; cbn.
  - intros [= ->]. rewrite andb_true_r. now destruct (flt a).
  - intros Hi. destruct (flt x) eqn:Hx; cbn.
    + rewrite andb_false_r. exact Hi.
    + now apply IH.
Qed.

Lemma first_carrying_spec o (l : list doc) i a :
  l !! i = Some a ->
  has_id o a && forallb (fun x => negb (has_id o x)) (take i l) = true
  <-> first_carrying o l i.
Proof.
  intros Hi. rewrite andb_true_iff, has_id_true, forallb_forall.
  unfold first_carrying. split.
  - intros [Ha Hbefore]. split; [eauto|].
    intros j x Hj Hx Hid.
    assert (In x (take i l)) as Hin.
    { apply list_elem_of_In, (list_elem_of_lookup_2 _ j).
      rewrite lookup_take_lt by exact Hj. exact Hx. }
    specialize (Hbefore x Hin). apply negb_true_iff in Hbefore.
    apply has_id_true in Hid. congruence.
  - intros [(a' & Ha' & Hid) Hbefore]. rewrite Hi in Ha'.
    injection Ha' as <-. split; [exact Hid|].
    intros x Hin. apply negb_true_iff, not_true_is_false. intros Hx.
    apply has_id_true in Hx.
    apply list_elem_of_In, list_elem_of_lookup_1 in Hin as [j Hj].
    apply lookup_take_Some in Hj as [Hj Hlt].
    exact (Hbefore j x Hlt Hj Hx).
Qed.

(** ** C7: partial updates *)

(** Claim C7.  On each of the three update routes, with a token of the set
    and an id the constructor of ObjectIds accepts: a payload whose fields
    are all absent or [None] is answered [{"updated": false}] and the world
    stays as it was (no call reaches the store); any other valid payload
    rewrites the first document of the route's collection that carries the
    id, which takes the fields given with a value other than [None] and
    keeps every other field, while every other document of the collection,
    every other collection and the tokens stay as they were. *)
Theorem C7_partial_update (r : request) (e : entropy) (w : world)
        (seg c : string) (schema : list field) (id t : string)
        (o : ObjectId) (b : doc) :
  In (seg, c, schema) crud ->
  r_method r = PUT -> r_path r = ["api"; "admin"; seg; id] ->
  ObjectId_of_str id = Some o ->
  r_token r = Some t -> t ∈ TOKENS w ->
  r_body r = Some b ->
  (blank schema b ->
   handle r e w = (Return (JObj {[ "updated" := VBool false ]}), w))
  /\ (forall p d,
        validate schema b = Some p -> update_doc_of p <> ∅ ->
        db w = Some d ->
        exists d',
          db (handle r e w).2 = Some d'
          /\ TOKENS (handle r e w).2 = TOKENS w
          /\ (forall c', c' <> c -> d' !! c' = d !! c')
          /\ length (coll d' c) = length (coll d c)
          /\ (forall i a,
                coll d c !! i = Some a ->
                exists a',
                  coll d' c !! i = Some a'
                  /\ (first_carrying o (coll d c) i ->
                      forall k,
                        a' !! k
                        = match p !! k with
                          | Some v => if is_not_None v then Some v
                                      else a !! k
                          | None => a !! k
                          end)
                  /\ (~ first_carrying o (coll d c) i -> a' = a))).
Proof.
  intros Hin Hm Hp Hid Htok Ht Hb.
  rewrite (handle_update r e seg c schema id Hin Hm Hp
             (ObjectId_of_str_nonempty _ _ Hid)).
  rewrite (accepted_runs r t w _ Htok Ht). split.
  - intros Hblank.
    destruct (validate_blank schema b (crud_all_optional _ _ _ Hin) Hblank)
      as (p & Hv & Hnone).
    rewrite (bind_Return _ _ _ _ _ (body_as_valid _ _ _ _ w Hb Hv)).
    unfold admin_update. rewrite Hid, (update_doc_of_None p Hnone).
    rewrite bool_decide_eq_true_2 by reflexivity. reflexivity.
  - intros p d Hv Hne Hd.
    rewrite (bind_Return _ _ _ _ _ (body_as_valid _ _ _ _ w Hb Hv)).
    unfold admin_update. rewrite Hid.
    rewrite bool_decide_eq_false_2 by assumption.
    rewrite (bind_Return _ _ _ _ _
               (update_one_connected _ _ _ _ _ Hd
                  (crud_update_encodes _ _ _ _ _ Hin Hv))).
    set (d' := alter (update_first (has_id o)
                                   (fun x : doc => update_doc_of p ∪ x)) c d).
    set (w1 := set_db d' (log_call (UpdateOne c) w)).
    assert (db w1 = Some d') as Hd1 by reflexivity.
    rewrite (bind_Return _ _ _ _ _ (find_one_connected _ _ _ _ Hd1)).
    exists d'. split; [reflexivity|]. split; [reflexivity|].
    split; [|split].
    + intros c' Hc'. unfold d'. apply lookup_alter_ne. congruence.
    + unfold d'. rewrite coll_alter by reflexivity.
      rewrite decide_True by reflexivity. apply length_update_first.
    + intros i a Hi. unfold d'. rewrite coll_alter by reflexivity.
      rewrite decide_True by reflexivity.
      rewrite (update_first_at _ _ _ i a Hi).
      pose proof (first_carrying_spec o _ i a Hi) as Hspec.
      destruct (has_id o a && _) eqn:Hc; eexists; (split; [reflexivity|]).
      * split; [|intros Hn; destruct Hn; now apply Hspec].
        intros _ k. apply lookup_merged.
      * split; [|reflexivity].
        intros Hf. apply Hspec in Hf. discriminate.
Qed.

(** ** C10: updating a document that does not exist *)

(** Claim C10.  On each of the three update routes, with a token of the set,
    a well-formed id that no document of the collection carries and a valid
    payload with a field other than [None]: the handler returns normally
    with a null body, and the store holds the documents it held. *)
Theorem C10_update_missing (r : request) (e : entropy) (w : world)
        (seg c : string) (schema : list field) (id t : string)
        (o : ObjectId) (b p : doc) (d : Database) :
  In (seg, c, schema) crud ->
  r_method r = PUT -> r_path r = ["api"; "admin"; seg; id] ->
  ObjectId_of_str id = Some o ->
  r_token r = Some t -> t ∈ TOKENS w ->
  r_body r = Some b -> validate schema b = Some p ->
  (exists k v, p !! k = Some v /\ v <> VNone) ->
  db w = Some d ->
  (forall a, a ∈ coll d c -> a !! "_id" <> Some (VOid o)) ->
  (handle r e w).1 = Return JNull
  /\ status_of (handle r e w).1 = 200
  /\ db (handle r e w).2 = Some d.
Proof.
  intros Hin Hm Hp Hid Htok Ht Hb Hv (k & v & Hk & Hnn) Hd Hmiss.
  rewrite (handle_update r e seg c schema id Hin Hm Hp
             (ObjectId_of_str_nonempty _ _ Hid)).
  rewrite (accepted_runs r t w _ Htok Ht).
  rewrite (bind_Return _ _ _ _ _ (body_as_valid _ _ _ _ w Hb Hv)).
  unfold admin_update. rewrite Hid.
  assert (update_doc_of p <> ∅) as Hne.
  { intros Hempty.
    assert (update_doc_of p !! k = Some v) as Hl.
    { apply map_lookup_filter_Some. split; [assumption|].
      cbn. now destruct v. }
    rewrite Hempty, lookup_empty in Hl. discriminate. }
  rewrite bool_decide_eq_false_2 by assumption.
  rewrite (bind_Return _ _ _ _ _
             (update_one_connected _ _ _ _ _ Hd
                (crud_update_encodes _ _ _ _ _ Hin Hv))).
  pose proof (find_has_id_None o _ Hmiss) as Hfind.
  rewrite (alter_same _ c d) by (now apply update_first_none).
  set (w1 := set_db d (log_call (UpdateOne c) w)).
  assert (db w1 = Some d) as Hd1 by reflexivity.
  rewrite (bind_Return _ _ _ _ _ (find_one_connected _ _ _ _ Hd1)).
  rewrite Hfind. cbn. auto.
Qed.

(** ** C8: deleting *)

Lemma delete_first_none (flt : doc -> bool) (l : list doc) :
  List.find flt l = None -> delete_first flt l = l.
Proof.
  induction l as [|x l IH]; [reflexivity|]. cbn.
  destruct (flt x); [discriminate|]. intros H. now rewrite IH.
Qed.

Lemma find_not_in_ids o (l : list doc) :
  Some (VOid o) ∉ ids l -> List.find (has_id o) l = None.
Proof.
  intros H. apply find_has_id_None. intros a Ha Hid. apply H.
  unfold ids. rewrite <- Hid. apply list_elem_of_fmap. eauto.
Qed.

(** Where ids are unique, the document removed was the only one of its id. *)
Lemma delete_first_gone o (l : list doc) :
  NoDup (ids l) -> List.find (has_id o) (delete_first (has_id o) l) = None.
Proof.
  induction l as [|x l IH]; [reflexivity|]. cbn.
  intros Hnd. apply NoDup_cons in Hnd as [Hx Hnd].
  destruct (has_id o x) eqn:Ho.
  - apply has_id_true in Ho. rewrite Ho in Hx. now apply find_not_in_ids.
  - cbn. rewrite Ho. now apply IH.
Qed.

Lemma delete_first_sublist (flt : doc -> bool) (l : list doc) a :
  a ∈ delete_first flt l -> a ∈ l.
Proof.
  induction l as [|x l IH]; [easy|]. cbn. destruct (flt x).
  - intros H. now right.
  - intros H. apply elem_of_cons in H as [->|H]; [left|right; auto].
Qed.

Lemma delete_connected r t w c id o d :
  r_token r = Some t -> t ∈ TOKENS w ->
  ObjectId_of_str id = Some o -> db w = Some d ->
  (let! _ := require_admin (r_token r) in
   let! _ := query_token r in
   admin_delete c id) w
  = (Return (JObj {[ "deleted" := VBool true ]}),
     set_db (alter (delete_first (has_id o)) c d)
            (log_call (DeleteOne c) w)).
Proof.
  intros Htok Ht Hid Hd. rewrite (accepted_runs r t w _ Htok Ht).
  unfold admin_delete. rewrite Hid.
  now rewrite (bind_Return _ _ _ _ _ (delete_one_connected _ _ _ _ Hd)).
Qed.

(** Claim C8.  On each of the three delete routes, with a token of the set,
    a connected store and a well-formed id: the answer is
    [{"deleted": true}] whether or not a document carries the id; no
    document of the collection carries the id afterwards, and nothing
    changes when none did before; a second delete gives the same answer and
    leaves the store as the first one left it. *)
Theorem C8_delete_idempotent (r : request) (e e' : entropy) (w : world)
        (seg c : string) (schema : list field) (id t : string)
        (o : ObjectId) (d : Database) :
  In (seg, c, schema) crud ->
  r_method r = DELETE -> r_path r = ["api"; "admin"; seg; id] ->
  ObjectId_of_str id = Some o ->
  r_token r = Some t -> t ∈ TOKENS w ->
  db w = Some d -> NoDup (ids (coll d c)) ->
  let w1 := (handle r e w).2 in
  let w2 := (handle r e' w1).2 in
  (handle r e w).1 = Return (JObj {[ "deleted" := VBool true ]})
  /\ (handle r e' w1).1 = Return (JObj {[ "deleted" := VBool true ]})
  /\ db w2 = db w1
  /\ (forall a, a ∈ docs_of w1 c -> a !! "_id" <> Some (VOid o))
  /\ ((forall a, a ∈ coll d c -> a !! "_id" <> Some (VOid o)) ->
      db w1 = db w).
Proof.
  intros Hin Hm Hp Hid Htok Ht Hd Hnd.
  pose proof (ObjectId_of_str_nonempty _ _ Hid) as Hne.
  rewrite !(handle_delete r _ seg c schema id Hin Hm Hp Hne).
  rewrite (delete_connected r t w c id o d Htok Ht Hid Hd). cbn zeta. cbn [fst snd].
  set (d1 := alter (delete_first (has_id o)) c d).
  set (w1 := set_db d1 (log_call (DeleteOne c) w)).
  assert (db w1 = Some d1) as Hd1 by reflexivity.
  assert (t ∈ TOKENS w1) as Ht1 by exact Ht.
  rewrite (delete_connected r t w1 c id o d1 Htok Ht1 Hid Hd1). cbn [fst snd].
  assert (coll d1 c = delete_first (has_id o) (coll d c)) as Hc.
  { unfold d1. rewrite coll_alter by reflexivity.
    now rewrite decide_True by reflexivity. }
  pose proof (delete_first_gone o _ Hnd) as Hgone. rewrite <- Hc in Hgone.
  split; [reflexivity|]. split; [reflexivity|]. split; [|split].
  - cbn. f_equal. apply alter_same. now apply delete_first_none.
  - intros a Ha Hida. unfold docs_of in Ha. rewrite Hd1 in Ha.
    apply list_elem_of_In in Ha.
    pose proof (find_none _ _ Hgone a Ha) as Hn.
    apply has_id_true in Hida. congruence.
  - intros Hmiss. cbn. rewrite Hd. f_equal. unfold d1. apply alter_same.
    apply delete_first_none. now apply find_has_id_None.
Qed.

(** ** What a response shows of the ids *)







Lemma pure_query_token r : pure (query_token r).
Proof. intros w. unfold query_token. now destruct (r_token r). Qed.

Lemma pure_require_admin t : pure (require_admin t).
Proof.
  intros w. unfold require_admin. destruct t; [case_bool_decide|]; reflexivity.
Qed.

















Lemma greatest_In k best (l : list doc) : greatest k best l ∈ best :: l.
Proof.
  revert best. induction l as [|x l IH]; intros best; cbn; [left|].
  destruct (key_lt _ _).
  - right. apply IH.
  - specialize (IH best). apply elem_of_cons in IH as [->|IH];
      [left|right; now right].
Qed.





Lemma pure_query_q r : pure (query_q r).
Proof. intros w. unfold query_q. now destruct (r_q r). Qed.


(** ** C9: the internal id in responses *)


(** ** Creating a document *)

Lemma validate_cons f schema b p :
  validate (f :: schema) b = Some p ->
  exists v m, validate_field f b = Some v /\ validate schema b = Some m
              /\ p = <[f_name f := v]> m.
Proof.
  cbn. destruct (validate_field f b) as [v|]; [|discriminate].
  destruct (validate schema b) as [m|]; [|discriminate].
  intros [= <-]. eauto.
Qed.

(** A validated model holds its declared fields and nothing else. *)
Lemma validate_dom schema b p k :
  validate schema b = Some p -> is_Some (p !! k) -> In k (map f_name schema).
Proof.
  revert p. induction schema as [|f schema IH]; intros p Hv Hk.
  - injection Hv as <-. rewrite lookup_empty in Hk. now destruct Hk.
  - apply validate_cons in Hv as (v & m & _ & Hm & ->).
    rewrite lookup_insert in Hk. case_decide; [now left|right; eauto].
Qed.

Lemma validate_no_id schema b p :
  ~ In "_id" (map f_name schema) ->
  validate schema b = Some p -> p !! "_id" = None.
Proof.
  intros Hn Hv. destruct (p !! "_id") eqn:Hp; [|reflexivity].
  destruct Hn. eapply validate_dom; eauto.
Qed.

Lemma existsb_fresh id (l : list doc) :
  Some id ∉ ids l ->
  existsb (fun a : doc => bool_decide (a !! "_id" = Some id)) l = false.
Proof.
  intros H. apply not_true_is_false. intros Hex.
  apply existsb_exists in Hex as (a & Hin & Ha).
  apply bool_decide_eq_true in Ha. apply H. rewrite <- Ha.
  unfold ids. apply list_elem_of_fmap. exists a.
  split; [reflexivity|now apply list_elem_of_In].
Qed.

Lemma find_app_None (flt : doc -> bool) (l l' : list doc) :
  List.find flt l = None -> List.find flt (l ++ l') = List.find flt l'.
Proof.
  induction l as [|x l IH]; [reflexivity|]. cbn.
  destruct (flt x); [discriminate|]. exact IH.
Qed.

Lemma coll_insert c c' l (d : Database) :
  coll (<[c := l]> d) c' = if decide (c = c') then l else coll d c'.
Proof.
  unfold coll. rewrite lookup_insert. now case_decide.
Qed.

Lemma insert_one_connected c p o w d :
  db w = Some d -> p !! "_id" = None -> bson_ok p = true ->
  Some (VOid o) ∉ ids (coll d c) ->
  insert_one c p o w
  = (Return (VOid o),
     set_db (<[c := coll d c ++ [<["_id" := VOid o]> p]]> d)
            (log_call (InsertOne c) w)).
Proof.
  intros Hd Hp Hb Hfresh. unfold insert_one.
  rewrite (bind_Return _ _ _ _ _ (collection_connected c w d Hd)).
  unfold bind at 1. cbn [call]. unfold get_default. rewrite Hp. cbn [default].
  rewrite Hb. cbn [negb]. rewrite (existsb_fresh _ _ Hfresh).
  unfold bind, store. cbn. rewrite Hd. reflexivity.
Qed.

(** What a create answers and stores when the new ObjectId is well formed
    and not yet in the collection. *)
Lemma create_connected c p e w d :
  db w = Some d -> p !! "_id" = None -> bson_ok p = true ->
  valid_oid (new_oid e) = true ->
  Some (VOid (new_oid e)) ∉ ids (coll d c) ->
  admin_create c p e w
  = (Return (JObj (<["id" := VStr (oid_hex (new_oid e))]> p)),
     log_call (FindOne c)
       (set_db (<[c := coll d c ++ [<["_id" := VOid (new_oid e)]> p]]> d)
               (log_call (InsertOne c) w))).
Proof.
  intros Hd Hp Hb Hvalid Hfresh. unfold admin_create, create_document.
  rewrite bind_assoc.
  rewrite (bind_Return _ _ _ _ _
             (insert_one_connected c p (new_oid e) w d Hd Hp Hb Hfresh)).
  rewrite bind_ret. cbn [oid_str]. unfold fetch_created.
  apply bool_decide_eq_true in Hvalid. rewrite Hvalid.
  set (new := <["_id" := VOid (new_oid e)]> p).
  set (d1 := <[c := coll d c ++ [new]]> d).
  set (w1 := set_db d1 (log_call (InsertOne c) w)).
  assert (db w1 = Some d1) as Hd1 by reflexivity.
  rewrite (bind_Return _ _ _ _ _ (find_one_connected _ _ _ _ Hd1)).
  unfold d1 at 1. rewrite coll_insert, decide_True by reflexivity.
  rewrite find_app_None by (now apply find_not_in_ids).
  assert (new !! "_id" = Some (VOid (new_oid e))) as Hnew
      by apply lookup_insert_eq.
  cbn [List.find]. rewrite (proj2 (has_id_true _ _) Hnew).
  rewrite (doc_to_public_oid _ _ Hnew). unfold new.
  rewrite delete_insert_eq, (delete_id _ _ Hp). reflexivity.
Qed.

(** ** C4: creating a POI and listing it *)

Lemma filter_all (l : list doc) : List.filter (fun _ => true) l = l.
Proof. induction l as [|x l IH]; cbn; congruence. Qed.

Lemma handle_get_pois r e :
  r_method r = GET -> r_path r = ["api"; "pois"] -> handle r e = get_pois.
Proof. intros Hm Hp. unfold handle. rewrite Hm, Hp. reflexivity. Qed.

Lemma get_pois_connected w d :
  db w = Some d ->
  get_pois w = (Return (JArr (map (fun p => Some (poi_record p))
                                  (coll d "poi"))),
                log_call (Find "poi") w).
Proof.
  intros Hd. unfold get_pois, get_documents.
  rewrite (bind_Return _ _ _ _ _ (find_connected _ _ _ _ _ Hd)).
  now rewrite filter_all.
Qed.

(** The payload the model reads is accepted. *)
Lemma validate_POI_payload b name x y icon lore :
  POI_payload b name x y icon lore ->
  validate POI b = Some (POI_instance name x y icon lore).
Proof.
  intros (Hn & (Hx & Hxr) & (Hy & Hyr) & Hi & Hl).
  apply in_range_unit in Hxr, Hyr.
  unfold validate, POI, validate_field, POI_instance.
  cbn [f_name f_type f_optional f_default required_str optional_str andb].
  rewrite Hn. cbn [check_type].
  destruct (b !! "x_coordinate") as [vx|]; [|discriminate]. cbn in Hx.
  destruct (b !! "y_coordinate") as [vy|]; [|discriminate]. cbn in Hy.
  rewrite Hx, Hxr, Hy, Hyr.
  assert (match b !! "icon_type" with
          | Some v => match v with VStr _ => Some v | _ => None end
          | None => Some (VStr "marker")
          end = Some (VStr icon)) as ->.
  { destruct Hi as [-> | [-> ->]]; reflexivity. }
  assert (match b !! "lore_article_id" with
          | Some v => if negb (is_not_None v) then Some VNone
                      else match v with VStr _ => Some v | _ => None end
          | None => Some VNone
          end = Some lore) as ->.
  { destruct (b !! "lore_article_id") as [[| | | |s| |]|]; cbn in Hl |- *;
      try contradiction; now rewrite Hl. }
  reflexivity.
Qed.

(** And every payload the model accepts is one of those. *)
Lemma POI_payload_complete b p :
  validate POI b = Some p ->
  exists name x y icon lore,
    POI_payload b name x y icon lore /\ p = POI_instance name x y icon lore.
Proof.
  intros Hv. unfold POI in Hv.
  apply validate_cons in Hv as (v1 & m1 & Hf1 & Hv & ->).
  apply validate_cons in Hv as (v2 & m2 & Hf2 & Hv & ->).
  apply validate_cons in Hv as (v3 & m3 & Hf3 & Hv & ->).
  apply validate_cons in Hv as (v4 & m4 & Hf4 & Hv & ->).
  apply validate_cons in Hv as (v5 & m5 & Hf5 & Hv & ->).
  injection Hv as <-.
  unfold validate_field in Hf1, Hf2, Hf3, Hf4, Hf5.
  cbn [f_name f_type f_optional f_default required_str optional_str andb
       check_type] in Hf1, Hf2, Hf3, Hf4, Hf5.
  destruct (b !! "name") as [[| | | |name| |]|] eqn:Hn; try discriminate.
  injection Hf1 as <-.
  destruct (b !! "x_coordinate") as [vx|] eqn:Hbx; [|discriminate].
  destruct (read_float vx) as [x|] eqn:Hx; [|discriminate].
  destruct (in_range _ _ x) eqn:Hxr; [|discriminate]. injection Hf2 as <-.
  destruct (b !! "y_coordinate") as [vy|] eqn:Hby; [|discriminate].
  destruct (read_float vy) as [y|] eqn:Hy; [|discriminate].
  destruct (in_range _ _ y) eqn:Hyr; [|discriminate]. injection Hf3 as <-.
  apply in_range_unit in Hxr, Hyr.
  assert (exists icon, v4 = VStr icon
            /\ (b !! "icon_type" = Some (VStr icon)
                \/ b !! "icon_type" = None /\ icon = "marker")) as (icon & -> & Hi).
  { destruct (b !! "icon_type") as [[| | | |icon| |]|]; try discriminate;
      injection Hf4 as <-; eauto. }
  exists name, x, y, icon, v5. split; [|reflexivity].
  unfold POI_payload, unit_coordinate. rewrite Hbx, Hby. cbn.
  split; [exact Hn|]. split; [tauto|]. split; [tauto|].
  split; [exact Hi|].
  destruct (b !! "lore_article_id") as [[| | | |s| |]|]; cbn in Hf5;
    try discriminate; now injection Hf5 as <-.
Qed.

Lemma no_int_POI : no_int POI.
Proof.
  repeat (apply Forall_cons; split;
          [split; [discriminate|intros z; discriminate]|]).
  apply Forall_nil; exact I.
Qed.

(** Claim C4.  A request [POST /api/admin/pois] with a token of the set and
    a payload the POI model accepts, that is a string for the name, for each
    coordinate a number of [0, 1] (a JSON number, a boolean or a numeric
    string, read as a float), a string or nothing for the icon, a string,
    [None] or nothing for the article, served by a connected store whose
    driver draws a well-formed ObjectId not yet in the collection: the
    payload is validated, the answer is the created record, and a later
    [GET /api/pois] lists the record whose [id] is the string form of that
    ObjectId and whose fields hold the submitted name, the two coordinates
    as read, the icon (the default "marker" if none was given) and the
    article. *)
Theorem C4_create_then_list (r r' : request) (e e' : entropy) (w : world)
        (t : string) (b : doc) (d : Database)
        (name : string) (x y : Q) (icon : string) (lore : value) :
  r_method r = POST -> r_path r = ["api"; "admin"; "pois"] ->
  r_token r = Some t -> t ∈ TOKENS w ->
  r_body r = Some b -> POI_payload b name x y icon lore ->
  db w = Some d ->
  valid_oid (new_oid e) = true ->
  Some (VOid (new_oid e)) ∉ ids (coll d "poi") ->
  r_method r' = GET -> r_path r' = ["api"; "pois"] ->
  let w1 := (handle r e w).2 in
  validate POI b = Some (POI_instance name x y icon lore)
  /\ (handle r e w).1
     = Return (JObj (<["id" := VStr (oid_hex (new_oid e))]>
                       (POI_instance name x y icon lore)))
  /\ exists listed,
      (handle r' e' w1).1 = Return (JArr listed)
      /\ Some {[ "id" := VStr (oid_hex (new_oid e));
                 "name" := VStr name;
                 "x_coordinate" := VFloat x;
                 "y_coordinate" := VFloat y;
                 "lore_article_id" := lore;
                 "icon_type" := VStr icon ]} ∈ listed.
Proof.
  intros Hm Hp Htok Ht Hb Hpay Hd Hvalid Hfresh Hm' Hp'.
  pose proof (validate_POI_payload _ _ _ _ _ _ Hpay) as Hv.
  set (p := POI_instance name x y icon lore) in *.
  rewrite (handle_create_poi r e Hm Hp).
  rewrite (accepted_runs r t w _ Htok Ht).
  rewrite (bind_Return _ _ _ _ _ (body_as_valid _ _ _ _ w Hb Hv)).
  assert (p !! "_id" = None) as Hpid by reflexivity.
  unfold admin_create_poi.
  rewrite (create_connected "poi" p e w d Hd Hpid
             (validate_bson_ok _ _ _ no_int_POI Hv) Hvalid Hfresh).
  cbn zeta. cbn [fst snd]. split; [exact Hv|]. split; [reflexivity|].
  set (new := <["_id" := VOid (new_oid e)]> p).
  set (d1 := <["poi" := coll d "poi" ++ [new]]> d).
  set (w1 := log_call _ _).
  assert (db w1 = Some d1) as Hd1 by reflexivity.
  rewrite (handle_get_pois r' e' Hm' Hp'), (get_pois_connected w1 d1 Hd1).
  unfold d1 at 1. rewrite coll_insert, decide_True by reflexivity.
  eexists. split; [reflexivity|].
  rewrite map_app. apply elem_of_app. right.
  apply list_elem_of_singleton. reflexivity.
Qed.

(** ** C2: versions of the map asset *)

Lemma key_lt_int a b :
  key_lt (key_desc (Some (VInt a))) (key_desc (Some (VInt b))) = Z.ltb a b.
Proof.
  cbn. destruct (Qle_bool (inject_Z b) (inject_Z a)) eqn:Hq; cbn; symmetry.
  - apply Qle_bool_iff in Hq. rewrite <- Zle_Qle in Hq. apply Z.ltb_ge. lia.
  - apply Z.ltb_lt. destruct (Z.lt_ge_cases a b) as [|Hge]; [assumption|].
    rewrite Zle_Qle in Hge. apply Qle_bool_iff in Hge. congruence.
Qed.

Lemma version_of_Some a z :
  version_of a = Some z <-> a !! "version" = Some (VInt z).
Proof.
  unfold version_of. split.
  - destruct (a !! "version") as [[]|]; congruence.
  - now intros ->.
Qed.

(** Among documents with integer versions, the sort picks a greatest one. *)
Lemma greatest_version best zb (l : list doc) :
  version_of best = Some zb -> versioned l ->
  exists z, version_of (greatest "version" best l) = Some z
            /\ zb <= z
            /\ forall a za, a ∈ l -> version_of a = Some za -> za <= z.
Proof.
  revert best zb. induction l as [|x l IH]; intros best zb Hb Hl; cbn.
  - exists zb. split; [assumption|]. split; [lia|].
    intros a za Ha. now apply not_elem_of_nil in Ha.
  - apply Forall_cons in Hl as [[zx Hx] Hl].
    pose proof (proj1 (version_of_Some _ _) Hb) as Hb'.
    pose proof (proj1 (version_of_Some _ _) Hx) as Hx'.
    rewrite Hb', Hx', key_lt_int.
    destruct (Z.ltb zb zx) eqn:Hlt.
    + apply Z.ltb_lt in Hlt.
      destruct (IH x zx Hx Hl) as (z & Hz & Hle & Hall).
      exists z. split; [assumption|]. split; [lia|].
      intros a za Ha Hza. apply elem_of_cons in Ha as [->|Ha]; [|eauto].
      rewrite Hx in Hza. injection Hza as <-. assumption.
    + apply Z.ltb_ge in Hlt.
      destruct (IH best zb Hb Hl) as (z & Hz & Hle & Hall).
      exists z. split; [assumption|]. split; [assumption|].
      intros a za Ha Hza. apply elem_of_cons in Ha as [->|Ha]; [|eauto].
      rewrite Hx in Hza. injection Hza as <-. lia.
Qed.

Lemma greatest_current x (l : list doc) :
  versioned (x :: l) ->
  exists z, current_of (x :: l) (greatest "version" x l) z.
Proof.
  intros Hv. apply Forall_cons in Hv as [[zx Hx] Hl].
  destruct (greatest_version x zx l Hx Hl) as (z & Hz & Hle & Hall).
  exists z. split; [apply greatest_In|]. split; [assumption|].
  intros a za Ha Hza. apply elem_of_cons in Ha as [->|Ha]; [|eauto].
  rewrite Hx in Hza. injection Hza as <-. assumption.
Qed.

(** The greatest version is one number, whichever document holds it. *)
Lemma current_of_unique (l : list doc) a za c zc :
  current_of l a za -> current_of l c zc -> za = zc.
Proof.
  intros (Ha & Hza & Hamax) (Hc & Hzc & Hcmax).
  pose proof (Hamax c zc Hc Hzc). pose proof (Hcmax a za Ha Hza). lia.
Qed.

Lemma find_one_sorted_desc_connected c k w d :
  db w = Some d ->
  find_one_sorted_desc c k w
  = (Return (match coll d c with
             | [] => None
             | x :: l => Some (greatest k x l)
             end), log_call (FindOne c) w).
Proof. intros H. unfold find_one_sorted_desc, bind, collection. now rewrite H. Qed.

Lemma falsy_version a z : version_of a = Some z -> falsy (Some a) = false.
Proof.
  intros H. apply version_of_Some in H. cbn. apply bool_decide_eq_false_2.
  intros ->. rewrite lookup_empty in H. discriminate.
Qed.

(** The test [if db] of the two map reads: a connected handle refuses it. *)
Lemma public_get_map_connected w d :
  db w = Some d ->
  public_get_map w = (HTTPException 500 "Internal Server Error", w).
Proof. intros Hd. unfold public_get_map, bind, db_truth. now rewrite Hd. Qed.

Lemma public_get_map_disconnected w :
  db w = None -> public_get_map w = (Return JNull, w).
Proof. intros Hd. unfold public_get_map, bind, db_truth. now rewrite Hd. Qed.

Lemma validate_field_required_str n b v :
  validate_field (required_str n) b = Some v -> exists s, v = VStr s.
Proof.
  unfold validate_field. cbn. destruct (b !! n) as [x|]; [|discriminate].
  destruct x; cbn; try discriminate. intros [= <-]. eauto.
Qed.

Lemma validate_field_optional_int n b v :
  validate_field (optional_int n) b = Some v ->
  v = VNone \/ exists z, v = VInt z.
Proof.
  unfold validate_field. cbn [optional_int f_name f_type f_optional f_default].
  destruct (b !! n) as [x|]; [|intros [= <-]; auto].
  destruct (true && negb (is_not_None x)); [intros [= <-]; auto|].
  unfold check_type. destruct (read_int x); cbn; [|discriminate].
  intros [= <-]. eauto.
Qed.

Lemma bson_ok_insert k v (p : doc) :
  bson_value_ok v = true -> bson_ok p = true -> bson_ok (<[k := v]> p) = true.
Proof.
  intros Hv Hp. apply bool_decide_eq_true_2. apply bool_decide_eq_true_1 in Hp.
  now apply map_Forall_insert_2.
Qed.

(** The model built by [set_map] from a validated payload is valid, and is
    the payload with the version added. *)
Lemma validate_MapAsset_of b p z :
  validate MapAssetUpdate b = Some p ->
  validate MapAsset {[ "image_url" := get p "image_url";
                       "width" := get p "width";
                       "height" := get p "height";
                       "version" := VInt z ]}
  = Some (<["version" := VInt z]> p).
Proof.
  intros Hv. unfold MapAssetUpdate in Hv.
  apply validate_cons in Hv as (v1 & m1 & Hf1 & Hv & ->).
  apply validate_cons in Hv as (v2 & m2 & Hf2 & Hv & ->).
  apply validate_cons in Hv as (v3 & m3 & Hf3 & Hv & ->).
  injection Hv as <-.
  apply validate_field_required_str in Hf1 as [s ->].
  apply validate_field_optional_int in Hf2 as [->|[z2 ->]];
    apply validate_field_optional_int in Hf3 as [->|[z3 ->]];
    reflexivity.
Qed.

Lemma set_map_version p e w d z :
  db w = Some d ->
  (match coll d "mapasset" with
   | [] => z = 1
   | x :: l => version_of (greatest "version" x l) = Some (z - 1)
   end) ->
  set_map p e w
  = match validate MapAsset {[ "image_url" := get p "image_url";
                               "width" := get p "width";
                               "height" := get p "height";
                               "version" := VInt z ]} with
    | None => unhandled (log_call (FindOne "mapasset") w)
    | Some new_doc =>
        admin_create "mapasset" new_doc e (log_call (FindOne "mapasset") w)
    end.
Proof.
  intros Hd Hz. unfold set_map.
  rewrite (bind_Return _ _ _ _ _
             (find_one_sorted_desc_connected _ _ _ _ Hd)).
  destruct (coll d "mapasset") as [|x l].
  - subst z. cbn beta iota. now destruct (validate MapAsset _).
  - rewrite (falsy_version _ _ Hz). apply version_of_Some in Hz.
    unfold get_default. rewrite Hz. unfold default. cbn [from_option id add_one].
    replace (z - 1 + 1) with z by lia. now destruct (validate MapAsset _).
Qed.

Lemma handle_set_map r e :
  r_method r = POST -> r_path r = ["api"; "admin"; "map"] ->
  handle r e
  = (let! _ := require_admin (r_token r) in
     let! _ := query_token r in
     let! p := body_as MapAssetUpdate r in
     set_map p e).
Proof. intros Hm Hp. unfold handle. rewrite Hm, Hp. reflexivity. Qed.

Lemma handle_get_map r e :
  r_method r = GET -> r_path r = ["api"; "admin"; "map"] ->
  handle r e
  = (let! _ := require_admin (r_token r) in
     let! _ := query_token r in
     get_map).
Proof. intros Hm Hp. unfold handle. rewrite Hm, Hp. reflexivity. Qed.

Lemma handle_public_get_map r e :
  r_method r = GET -> r_path r = ["api"; "map"] ->
  handle r e = public_get_map.
Proof. intros Hm Hp. unfold handle. rewrite Hm, Hp. reflexivity. Qed.

(** Claim C2.  On a connected store whose map assets all carry an integer
    version, [POST /api/admin/map] does what the claim says: with a token of
    the set and a valid payload that the driver can encode, it appends one
    document to the collection and changes nothing else, and the version of
    the document is 1 when the collection was empty and otherwise the
    greatest version plus one.  The two reads do not: [GET /api/map], and
    [GET /api/admin/map] with a token of the set, test the handle with
    [if db], which a connected handle refuses, and are answered 500
    whatever the collection holds, with no call to the store. *)
Theorem C2_map_reads_fail (r : request) (e : entropy) (w : world)
        (d : Database) :
  db w = Some d -> versioned (coll d "mapasset") ->
  (forall t b p,
      r_method r = POST -> r_path r = ["api"; "admin"; "map"] ->
      r_token r = Some t -> t ∈ TOKENS w ->
      r_body r = Some b -> validate MapAssetUpdate b = Some p ->
      bson_ok p = true ->
      (forall a za, a ∈ coll d "mapasset" -> version_of a = Some za ->
                    int64 (za + 1) = true) ->
      valid_oid (new_oid e) = true ->
      Some (VOid (new_oid e)) ∉ ids (coll d "mapasset") ->
      exists z,
        let new := <["_id" := VOid (new_oid e)]> (<["version" := VInt z]> p) in
        db (handle r e w).2
        = Some (<["mapasset" := coll d "mapasset" ++ [new]]> d)
        /\ version_of new = Some z
        /\ (coll d "mapasset" = [] -> z = 1)
        /\ (coll d "mapasset" <> [] ->
            exists cur zc, current_of (coll d "mapasset") cur zc
                           /\ z = zc + 1)
        /\ (handle r e w).1
           = Return (JObj (<["id" := VStr (oid_hex (new_oid e))]>
                             (<["version" := VInt z]> p))))
  /\ (r_method r = GET -> r_path r = ["api"; "map"] ->
      handle r e w = (HTTPException 500 "Internal Server Error", w))
  /\ (forall t,
        r_method r = GET -> r_path r = ["api"; "admin"; "map"] ->
        r_token r = Some t -> t ∈ TOKENS w ->
        handle r e w = (HTTPException 500 "Internal Server Error", w)).
Proof.
  intros Hd Hver. split; [|split].
  - intros t b p Hm Hp Htok Ht Hb Hv Hbson Hbound Hvalid Hfresh.
    rewrite (handle_set_map r e Hm Hp), (accepted_runs r t w _ Htok Ht).
    rewrite (bind_Return _ _ _ _ _ (body_as_valid _ _ _ _ w Hb Hv)).
    assert (exists z,
               match coll d "mapasset" with
               | [] => z = 1
               | x :: l => version_of (greatest "version" x l) = Some (z - 1)
               end
               /\ (coll d "mapasset" = [] -> z = 1)
               /\ (coll d "mapasset" <> [] ->
                   exists cur zc, current_of (coll d "mapasset") cur zc
                                  /\ z = zc + 1)) as (z & Hz & Hz1 & Hz2).
    { destruct (coll d "mapasset") as [|x l] eqn:Hl.
      - exists 1. repeat split; congruence.
      - destruct (greatest_current x l Hver) as (zc & Hcur).
        exists (zc + 1). split; [|split; [congruence|]].
        + destruct Hcur as (_ & Hzc & _). rewrite Hzc. f_equal. lia.
        + intros _. eauto. }
    assert (int64 z = true) as Hz64.
    { destruct (coll d "mapasset") as [|x l] eqn:Hl.
      - rewrite (Hz1 eq_refl). reflexivity.
      - destruct Hz2 as (cur & zc & (Hin & Hzc & _) & ->); [discriminate|].
        exact (Hbound cur zc Hin Hzc). }
    exists z. cbn zeta.
    rewrite (set_map_version p e w d z Hd Hz).
    rewrite (validate_MapAsset_of b p z Hv).
    assert ((<["version" := VInt z]> p) !! "_id" = None) as Hpid.
    { rewrite lookup_insert_ne by discriminate.
      apply (validate_no_id MapAssetUpdate b); [|assumption].
      cbn. intuition discriminate. }
    set (w1 := log_call (FindOne "mapasset") w).
    assert (db w1 = Some d) as Hd1 by exact Hd.
    rewrite (create_connected "mapasset" _ e w1 d Hd1 Hpid
               (bson_ok_insert "version" (VInt z) p Hz64 Hbson) Hvalid Hfresh).
    cbn [fst snd]. split; [reflexivity|]. split.
    { apply version_of_Some.
      rewrite lookup_insert_ne by discriminate. apply lookup_insert_eq. }
    auto.
  - intros Hm Hp. rewrite (handle_public_get_map r e Hm Hp).
    now apply (public_get_map_connected w d).
  - intros t Hm Hp Htok Ht.
    rewrite (handle_get_map r e Hm Hp), (accepted_runs r t w _ Htok Ht).
    now apply (public_get_map_connected w d).
Qed.

(** ** The stores that requests can reach *)

Lemma triple_ret {A} I (a : A) (Q : A -> Prop) : Q a -> triple I (ret a) Q.
Proof. intros H w Hw. split; [exact Hw|]. now intros a' [= <-]. Qed.

Lemma triple_raise {A} I s d (Q : A -> Prop) : triple I (raise s d) Q.
Proof. intros w Hw. split; [exact Hw|]. intros a [=]. Qed.

Lemma triple_bind {A B} I (m : M A) (k : A -> M B) P Q :
  triple I m P -> (forall a, P a -> triple I (k a) Q) ->
  triple I (bind m k) Q.
Proof.
  intros Hm Hk w Hw. unfold bind. destruct (Hm w Hw) as [Hi Hq].
  destruct (m w) as [[a|s d] w1]; cbn in *.
  - apply (Hk a (Hq a eq_refl)). exact Hi.
  - split; [exact Hi|]. intros a [=].
Qed.

Lemma triple_weaken {A} I (m : M A) (P Q : A -> Prop) :
  triple I m P -> (forall a, P a -> Q a) -> triple I m Q.
Proof.
  intros Hm HPQ w Hw. destruct (Hm w Hw) as [Hi Hq]. split; eauto.
Qed.

(** A computation that leaves the store alone keeps [store_ok]. *)
Lemma triple_same_db {A} (m : M A) :
  (forall w, db (m w).2 = db w) -> triple store_ok m (fun _ => True).
Proof.
  intros H w Hw. split; [|auto]. unfold store_ok in *. now rewrite H.
Qed.

Lemma db_ok_insert c l d :
  db_ok d -> Forall has_oid l -> NoDup (ids l) ->
  (c = "mapasset" -> versioned l) -> db_ok (<[c := l]> d).
Proof.
  intros [Hd Hv] Hl Hn Hc. split.
  - apply map_Forall_insert_2; auto.
  - rewrite coll_insert. case_decide; auto.
Qed.

Lemma db_ok_coll d c :
  db_ok d -> Forall has_oid (coll d c) /\ NoDup (ids (coll d c)).
Proof.
  intros [Hd _]. unfold coll. destruct (d !! c) as [l|] eqn:Hl.
  - exact (Hd c l Hl).
  - split; constructor.
Qed.

Lemma db_ok_alter f c d :
  db_ok d -> f [] = [] ->
  (forall l, Forall has_oid l -> NoDup (ids l) ->
             Forall has_oid (f l) /\ NoDup (ids (f l))) ->
  (forall l, versioned l -> versioned (f l)) ->
  db_ok (alter f c d).
Proof.
  intros [Hd Hv] Hnil Hf Hfv. split.
  - intros c' l Hl. apply lookup_alter_Some in Hl as [(-> & l0 & Hl0 & ->)|[_ Hl]].
    + destruct (Hd c' l0 Hl0). auto.
    + exact (Hd c' l Hl).
  - rewrite coll_alter by assumption. case_decide; auto.
Qed.

Lemma ids_update_first o (upd : doc) (l : list doc) :
  upd !! "_id" = None ->
  ids (update_first (has_id o) (fun a => upd ∪ a) l) = ids l.
Proof.
  intros Hu. induction l as [|x l IH]; [reflexivity|]. cbn [update_first].
  destruct (has_id o x); unfold ids in *; cbn [map]; f_equal;
    [now apply lookup_union_r|exact IH].
Qed.

Lemma Forall_ids (l l' : list doc) :
  ids l' = ids l -> Forall has_oid l -> Forall has_oid l'.
Proof.
  revert l'. induction l as [|x l IH]; intros [|x' l'] Hids Hl;
    try discriminate; [constructor|].
  injection Hids as Hx Hids. apply Forall_cons in Hl as [[o Ho] Hl].
  apply Forall_cons. split; [|now apply IH].
  exists o. congruence.
Qed.

Lemma versioned_update_first o (upd : doc) (l : list doc) :
  upd !! "version" = None -> versioned l ->
  versioned (update_first (has_id o) (fun a => upd ∪ a) l).
Proof.
  intros Hu. induction l as [|x l IH]; intros Hl; [constructor|]. cbn.
  apply Forall_cons in Hl as [Hx Hl].
  destruct (has_id o x); apply Forall_cons; split;
    try assumption; [|now apply IH].
  unfold version_of in *. now rewrite lookup_union_r.
Qed.

Lemma ids_delete_first (flt : doc -> bool) (l : list doc) x :
  x ∈ ids (delete_first flt l) -> x ∈ ids l.
Proof.
  unfold ids. intros H. apply list_elem_of_fmap in H as (a & -> & Ha).
  apply list_elem_of_fmap. exists a. split; [reflexivity|].
  now apply delete_first_sublist in Ha.
Qed.

Lemma NoDup_delete_first (flt : doc -> bool) (l : list doc) :
  NoDup (ids l) -> NoDup (ids (delete_first flt l)).
Proof.
  induction l as [|x l IH]; [auto|]. cbn. intros Hn.
  apply NoDup_cons in Hn as [Hx Hn]. destruct (flt x); [assumption|].
  cbn. apply NoDup_cons. split; [|auto].
  intros H. apply Hx. now apply ids_delete_first in H.
Qed.

Lemma Forall_delete_first (P : doc -> Prop) (flt : doc -> bool) (l : list doc) :
  Forall P l -> Forall P (delete_first flt l).
Proof.
  intros H. apply Forall_forall. intros a Ha.
  apply delete_first_sublist in Ha. exact (proj1 (Forall_forall _ _) H a Ha).
Qed.

Lemma insert_one_cases c p o w d :
  db w = Some d -> p !! "_id" = None ->
  insert_one c p o w
  = if negb (bson_ok p)
       || existsb (fun a : doc => bool_decide (a !! "_id" = Some (VOid o)))
                  (coll d c)
    then (HTTPException 500 "Internal Server Error",
          log_call (InsertOne c) w)
    else (Return (VOid o),
          set_db (<[c := coll d c ++ [<["_id" := VOid o]> p]]> d)
                 (log_call (InsertOne c) w)).
Proof.
  intros Hd Hp. unfold insert_one.
  rewrite (bind_Return _ _ _ _ _ (collection_connected c w d Hd)).
  unfold bind at 1. cbn [call]. unfold get_default. rewrite Hp. cbn [default].
  destruct (bson_ok p); [|reflexivity]. cbn [negb orb].
  destruct (existsb _ (coll d c)); [reflexivity|].
  unfold bind, store. cbn. rewrite Hd. reflexivity.
Qed.

Lemma triple_insert_one c p o :
  p !! "_id" = None -> (c = "mapasset" -> is_Some (version_of p)) ->
  triple store_ok (insert_one c p o) (fun _ => True).
Proof.
  intros Hp Hc w Hw. split; [|auto].
  destruct (db w) as [d|] eqn:Hd.
  - rewrite (insert_one_cases c p o w d Hd Hp).
    unfold store_ok in Hw. rewrite Hd in Hw.
    destruct (negb (bson_ok p) || existsb _ (coll d c)) eqn:Hex;
      unfold store_ok; cbn; [now rewrite Hd|].
    apply orb_false_elim in Hex as [_ Hex].
    destruct (db_ok_coll d c Hw) as [Hoid Hnd].
    apply db_ok_insert; [assumption| | |].
    + apply Forall_app. split; [assumption|]. apply Forall_cons.
      split; [|constructor]. exists o. apply lookup_insert_eq.
    + unfold ids. rewrite fmap_app. apply NoDup_app. split; [assumption|].
      split; [|apply NoDup_singleton]. cbn. intros x Hx Hx'.
      apply list_elem_of_singleton in Hx'. subst x.
      rewrite lookup_insert_eq in Hx.
      apply not_true_iff_false in Hex. apply Hex.
      apply list_elem_of_fmap in Hx as (a & Ha & Hin).
      apply existsb_exists. exists a. split; [now apply list_elem_of_In|].
      now apply bool_decide_eq_true.
    + intros ->. apply Forall_app. split; [apply Hw|].
      apply Forall_cons. split; [|constructor].
      unfold version_of in *. rewrite lookup_insert_ne by discriminate. auto.
  - unfold insert_one, bind, collection, store_ok. rewrite Hd. cbn.
    now rewrite Hd.
Qed.

Lemma triple_update_one c o upd :
  upd !! "_id" = None -> upd !! "version" = None ->
  triple store_ok (update_one c (has_id o) upd) (fun _ => True).
Proof.
  intros Hi Hv w Hw. split; [|auto].
  destruct (db w) as [d|] eqn:Hd;
    [|unfold update_one, bind, collection, store_ok; rewrite Hd; cbn;
      now rewrite Hd].
  destruct (bson_ok upd) eqn:Hb;
    [|unfold update_one, bind, collection, call; rewrite Hd, Hb; exact Hw].
  rewrite (update_one_connected _ _ _ _ _ Hd Hb).
  unfold store_ok in *. rewrite Hd in Hw. cbn.
  apply db_ok_alter; [assumption|reflexivity| |].
  - intros l Hl Hn. rewrite ids_update_first by assumption.
    split; [|assumption].
    apply (Forall_ids l); [now apply ids_update_first|assumption].
  - intros l. now apply versioned_update_first.
Qed.

Lemma triple_delete_one c flt :
  triple store_ok (delete_one c flt) (fun _ => True).
Proof.
  intros w Hw. split; [|auto].
  destruct (db w) as [d|] eqn:Hd;
    [|unfold delete_one, bind, collection, store_ok; rewrite Hd; cbn;
      now rewrite Hd].
  rewrite (delete_one_connected _ _ _ _ Hd).
  unfold store_ok in *. rewrite Hd in Hw. cbn.
  apply db_ok_alter; [assumption|reflexivity| |].
  - intros l Hl Hn. split; [now apply Forall_delete_first|].
    now apply NoDup_delete_first.
  - intros l. apply Forall_delete_first.
Qed.

Lemma triple_find_one c flt : triple store_ok (find_one c flt) (fun _ => True).
Proof.
  apply triple_same_db. intros w. unfold find_one, bind, collection.
  destruct (db w) eqn:Hd; cbn; assumption.
Qed.

Lemma triple_find c flt n : triple store_ok (find c flt n) (fun _ => True).
Proof.
  apply triple_same_db. intros w. unfold find, bind, collection.
  destruct (db w) eqn:Hd; cbn; assumption.
Qed.

Lemma triple_find_one_sorted_desc c k :
  triple store_ok (find_one_sorted_desc c k) (fun _ => True).
Proof.
  apply triple_same_db. intros w. unfold find_one_sorted_desc, bind, collection.
  destruct (db w) eqn:Hd; cbn; assumption.
Qed.

Lemma triple_body_as schema r :
  triple store_ok (body_as schema r) (instance_of schema).
Proof.
  intros w Hw. unfold body_as.
  destruct (r_body r) as [b|]; [|split; [exact Hw|intros a [=]]].
  destruct (validate schema b) as [p|] eqn:Hv;
    [|split; [exact Hw|intros a [=]]].
  split; [exact Hw|]. intros a [= <-]. now exists b.
Qed.

Lemma instance_no_field schema p k :
  ~ In k (map f_name schema) -> instance_of schema p -> p !! k = None.
Proof.
  intros Hn [b Hv]. destruct (p !! k) eqn:Hp; [|reflexivity].
  destruct Hn. eapply validate_dom; eauto.
Qed.

Lemma update_doc_of_no_field (p : doc) k :
  p !! k = None -> update_doc_of p !! k = None.
Proof. intros H. apply map_lookup_filter_None. now left. Qed.

Lemma triple_pure {A} (m : M A) : pure m -> triple store_ok m (fun _ => True).
Proof. intros H. apply triple_same_db. intros w. now rewrite H. Qed.

Lemma triple_collection c : triple store_ok (collection c) (fun _ => True).
Proof.
  apply triple_pure. intros w. unfold collection. now destruct (db w).
Qed.

Lemma triple_call k : triple store_ok (call k) (fun _ => True).
Proof. now apply triple_same_db. Qed.

Lemma triple_require_admin t :
  triple store_ok (require_admin t) (fun _ => True).
Proof. apply triple_pure, pure_require_admin. Qed.

Lemma triple_bind_True {A B} I (m : M A) (k : A -> M B) :
  triple I m (fun _ => True) -> (forall a, triple I (k a) (fun _ => True)) ->
  triple I (bind m k) (fun _ => True).
Proof. intros Hm Hk. eapply triple_bind; [exact Hm|]. intros a _. apply Hk. Qed.

Ltac triple_with tac :=
  repeat first
    [ tac
    | apply triple_ret; exact I | apply triple_raise
    | apply triple_find_one | apply triple_find
    | apply triple_find_one_sorted_desc | apply triple_delete_one
    | apply triple_collection | apply triple_call
    | apply triple_pure; first [apply pure_query_token | apply pure_query_q]
    | eapply triple_bind; [apply triple_body_as|intros ? ?]
    | apply triple_bind_True; [|intros ?]
    | match goal with
      | |- triple _ (match ?x with _ => _ end) _ => destruct x eqn:?
      end
    | progress unfold unhandled, unprocessable, get_documents, fetch_created,
        create_document ].

Lemma triple_public_get_map : triple store_ok public_get_map (fun _ => True).
Proof.
  apply triple_same_db. intros w. unfold public_get_map, bind, db_truth.
  destruct (db w) eqn:Hd; cbn; assumption.
Qed.

Lemma triple_test_database : triple store_ok test_database (fun _ => True).
Proof.
  apply triple_same_db. intros w. unfold test_database, db_truth.
  destruct (db w) eqn:Hd; cbn; assumption.
Qed.

Lemma triple_admin_login p e :
  triple store_ok (admin_login p e) (fun _ => True).
Proof.
  apply triple_same_db. intros w. unfold admin_login.
  now destruct (_ && _).
Qed.

Lemma triple_admin_create c schema p e :
  instance_of schema p ->
  ~ In "_id" (map f_name schema) ->
  (c = "mapasset" -> is_Some (version_of p)) ->
  triple store_ok (admin_create c p e) (fun _ => True).
Proof.
  intros Hp Hid Hv. unfold admin_create.
  triple_with ltac:(apply triple_insert_one;
                    [exact (instance_no_field schema p "_id" Hid Hp)
                    |exact Hv]).
Qed.

Lemma triple_admin_update c schema id p :
  instance_of schema p ->
  ~ In "_id" (map f_name schema) -> ~ In "version" (map f_name schema) ->
  triple store_ok (admin_update c id p) (fun _ => True).
Proof.
  intros Hp Hid Hv. unfold admin_update.
  triple_with ltac:(apply triple_update_one;
                    [apply update_doc_of_no_field;
                     exact (instance_no_field schema p "_id" Hid Hp)
                    |apply update_doc_of_no_field;
                     exact (instance_no_field schema p "version" Hv Hp)]).
Qed.

Lemma triple_admin_delete c id :
  triple store_ok (admin_delete c id) (fun _ => True).
Proof. unfold admin_delete. triple_with fail. Qed.

Lemma instance_MapAsset_version p :
  instance_of MapAsset p -> is_Some (version_of p).
Proof.
  intros [b Hv]. unfold MapAsset in Hv.
  apply validate_cons in Hv as (v1 & m1 & _ & Hv & ->).
  apply validate_cons in Hv as (v2 & m2 & _ & Hv & ->).
  apply validate_cons in Hv as (v3 & m3 & _ & Hv & ->).
  apply validate_cons in Hv as (v4 & m4 & Hf4 & Hv & ->).
  assert (exists z, v4 = VInt z) as [z ->].
  { revert Hf4. unfold validate_field, check_type. cbn [f_name f_type f_optional f_default andb].
    destruct (b !! "version") as [x|]; [|intros [= <-]; eauto].
    destruct (read_int x); cbn; [|discriminate]. intros [= <-]. eauto. }
  exists z. apply version_of_Some. cbn [f_name required_str optional_int].
  rewrite !lookup_insert_ne by discriminate. apply lookup_insert_eq.
Qed.

Lemma triple_set_map p e : triple store_ok (set_map p e) (fun _ => True).
Proof.
  unfold set_map.
  apply triple_bind_True; [apply triple_find_one_sorted_desc|]. intros cur.
  destruct (match cur with Some _ => _ | None => _ end) as [v|];
    [|apply triple_raise].
  destruct (validate MapAsset _) as [new_doc|] eqn:Hv; [|apply triple_raise].
  apply (triple_admin_create "mapasset" MapAsset new_doc e).
  - eexists. exact Hv.
  - cbn. intuition discriminate.
  - intros _. apply instance_MapAsset_version. eexists. exact Hv.
Qed.

Lemma store_ok_routes :
  Forall (fun rt => forall ps r e,
              triple store_ok (rt_call rt ps r e) (fun _ => True)) routes.
Proof.
  unfold routes, login_route.
  repeat (apply Forall_cons; split;
          [intros ps r e; cbn [rt_call];
           unfold root, get_pois, get_lore_article, search_lore, get_map,
             admin_list_pois, admin_create_poi, admin_update_poi,
             admin_delete_poi, admin_list_lore, admin_create_lore,
             admin_update_lore, admin_delete_lore, admin_list_categories,
             admin_create_category, admin_update_category,
             admin_delete_category, admin_list;
           solve [triple_with
                    ltac:(first
                            [ apply triple_public_get_map
                            | apply triple_test_database
                            | apply triple_admin_login
                            | apply triple_set_map
                            | apply triple_admin_delete
                            | eapply triple_admin_create;
                              [eassumption|cbn; intuition discriminate
                              |discriminate]
                            | eapply triple_admin_update;
                              [eassumption|cbn; intuition discriminate
                              |cbn; intuition discriminate] ])] |]).
  apply Forall_nil. exact I.
Qed.

(** Every request keeps the store well formed, whatever it draws. *)
Lemma store_ok_handle r e w : store_ok w -> store_ok (handle r e w).2.
Proof.
  intros Hw. unfold handle.
  destruct (resolve routes (r_method r) (r_path r) false) as [rt ps| |] eqn:Hr;
    [|exact Hw|destruct (redirect_slashes _); exact Hw].
  apply resolve_In in Hr as (Hin & _ & _).
  pose proof (proj1 (List.Forall_forall _ _) store_ok_routes rt Hin ps r e)
    as Hrt.
  unfold serve. destruct (rt_guard rt); [|now apply Hrt].
  apply (triple_bind_True store_ok);
    [apply triple_require_admin|intros _; exact Hrt|exact Hw].
Qed.

(** Property X19.  The stores reached from a well-formed one, the empty one
    for instance, are well formed: the hypotheses of C2, C8 and C9 on the
    store hold along every run. *)
Theorem store_ok_run rs w : store_ok w -> store_ok (run rs w).2.
Proof.
  revert w. induction rs as [|[r e] rs IH]; intros w Hw; cbn; [exact Hw|].
  pose proof (store_ok_handle r e w Hw) as H.
  destruct (handle r e w) as [o w1]. specialize (IH w1 H).
  now destruct (run rs w1) as [os w2].
Qed.

Lemma store_ok_empty env toks log : store_ok (mkWorld env toks (Some ∅) log).
Proof.
  split; [apply map_Forall_empty|]. unfold coll. rewrite lookup_empty.
  constructor.
Qed.

Lemma store_ok_hypotheses w d :
  store_ok w -> db w = Some d ->
  ids_typed w /\ versioned (coll d "mapasset")
  /\ forall c, NoDup (ids (coll d c)).
Proof.
  unfold store_ok, ids_typed. intros Hw Hd. rewrite Hd in *.
  split; [|split].
  - intros c l Hl. exact (proj1 (proj1 Hw c l Hl)).
  - apply Hw.
  - intros c. apply (db_ok_coll d c Hw).
Qed.

(** ** The search handler, were it reached *)

Lemma search_lore_connected q m w d :
  regex_compile q = Some m -> db w = Some d ->
  search_lore q w
  = (Return
       (JArr (map (fun a : doc =>
                     Some {[ "id" := VStr (oid_str (get a "_id"));
                             "title" := get a "title";
                             "short_description" :=
                               get a "short_description" ]})
                  (take 20 (List.filter
                              (fun a => regex_field m "title" a
                                        || regex_field m "short_description" a)
                              (coll d "lorearticle"))))),
     log_call (Find "lorearticle") w).
Proof.
  intros Hq Hd. unfold search_lore. rewrite Hq.
  now rewrite (bind_Return _ _ _ _ _ (find_connected _ _ _ _ _ Hd)).
Qed.

(** Property X17.  Called directly on a connected store with a query the
    engine accepts, [search_lore] answers at most twenty records, each of
    an article whose title or short description the query, compiled as a
    pattern, matches. *)
Lemma search_lore_results q m w d l :
  regex_compile q = Some m -> db w = Some d ->
  (search_lore q w).1 = Return (JArr l) ->
  (length l <= 20)%nat
  /\ forall x, Some x ∈ l ->
       exists a, a ∈ coll d "lorearticle"
         /\ (regex_field m "title" a = true
             \/ regex_field m "short_description" a = true)
         /\ x = {[ "id" := VStr (oid_str (get a "_id"));
                   "title" := get a "title";
                   "short_description" := get a "short_description" ]}.
Proof.
  intros Hq Hd. rewrite (search_lore_connected q m w d Hq Hd). cbn.
  intros [= <-]. split.
  - rewrite length_map, length_take. lia.
  - intros x Hx. apply list_elem_of_fmap in Hx as (a & [= ->] & Ha).
    exists a. apply elem_of_take in Ha as (i & Hi & _).
    apply list_elem_of_lookup_2 in Hi.
    apply list_elem_of_In, filter_In in Hi as [Hin Hm].
    split; [now apply list_elem_of_In|]. split; [|reflexivity].
    now apply orb_true_iff in Hm.
Qed.

(** ** Reads *)

Lemma unchanged_refl w : unchanged w w.
Proof. now repeat split. Qed.

Lemma unchanged_trans a b c : unchanged a b -> unchanged b c -> unchanged a c.
Proof. intros (? & ? & ?) (? & ? & ?). repeat split; congruence. Qed.

Lemma unchanged_log k w : unchanged w (log_call k w).
Proof. now repeat split. Qed.

Ltac reads :=
  repeat first
    [ apply (steps_ret _ unchanged_refl)
    | apply (steps_raise _ unchanged_refl)
    | apply (steps_collection _ unchanged_refl)
    | apply (steps_call _ unchanged_log)
    | apply (steps_test_database _ unchanged_refl)
    | apply (steps_public_get_map _ unchanged_refl unchanged_trans
                                  unchanged_log)
    | apply (steps_bind _ unchanged_trans); [|intros ?]
    | match goal with
      | |- steps _ (match ?x with _ => _ end) => destruct x
      end
    | progress unfold unhandled, unprocessable, find_one, find,
        get_documents, query_token, query_q ].

Lemma GET_routes_read :
  Forall (fun rt => rt_method rt = GET ->
                    forall ps r e, steps unchanged (rt_call rt ps r e))
         routes.
Proof.
  unfold routes, login_route.
  repeat (apply Forall_cons; split;
          [cbn [rt_method]; intros Hm ps r e;
           first [discriminate Hm
                 | cbn [rt_call];
                   unfold root, get_pois, get_lore_article, search_lore,
                     get_map, admin_list_pois, admin_list_lore,
                     admin_list_categories, admin_list;
                   solve [reads]] |]).
  apply Forall_nil. exact I.
Qed.

(** Property X1.  A [GET] request, whatever its path, its token and the
    state of the store, leaves the documents, the token set and the
    environment as they were: only the log of calls can grow. *)
Theorem X1_GET_changes_nothing (r : request) (e : entropy) (w : world) :
  r_method r = GET ->
  db (handle r e w).2 = db w
  /\ TOKENS (handle r e w).2 = TOKENS w
  /\ environ (handle r e w).2 = environ w.
Proof.
  intros Hm. change (unchanged w (handle r e w).2). revert w.
  change (steps unchanged (handle r e)). unfold handle.
  destruct (resolve routes (r_method r) (r_path r) false) as [rt ps| |] eqn:Hr;
    [|apply (steps_raise _ unchanged_refl)
     |destruct (redirect_slashes _); apply (steps_raise _ unchanged_refl)].
  apply resolve_In in Hr as (Hin & _ & Hrt). rewrite Hm in Hrt.
  pose proof (proj1 (List.Forall_forall _ _) GET_routes_read rt Hin Hrt) as Hs.
  unfold serve. destruct (rt_guard rt); [|apply Hs].
  apply (steps_bind _ unchanged_trans);
    [apply (steps_require_admin _ unchanged_refl)|intros _; apply Hs].
Qed.

(** ** Ids that do not parse, and a store that is not connected *)

(** Property X2.  On the three update and the three delete routes, with a
    token of the set, an id that the constructor of ObjectIds refuses (it is
    not 24 characters long, or is not made of two-digit hexadecimal bytes
    and whitespace) is answered 400 "Invalid id" and the world stays as it
    was; on an update the id is looked at before the payload, so this holds
    for every valid payload, a blank one included. *)
Theorem X2_malformed_id (r : request) (e : entropy) (w : world)
        (seg c : string) (schema : list field) (id t : string) :
  In (seg, c, schema) crud ->
  r_path r = ["api"; "admin"; seg; id] -> id <> "" ->
  ObjectId_of_str id = None ->
  r_token r = Some t -> t ∈ TOKENS w ->
  (r_method r = DELETE ->
   handle r e w = (HTTPException 400 "Invalid id", w))
  /\ (forall b p,
        r_method r = PUT -> r_body r = Some b -> validate schema b = Some p ->
        handle r e w = (HTTPException 400 "Invalid id", w)).
Proof.
  intros Hin Hp Hne Hid Htok Ht. split.
  - intros Hm. rewrite (handle_delete r e seg c schema id Hin Hm Hp Hne).
    rewrite (accepted_runs r t w _ Htok Ht).
    unfold admin_delete. now rewrite Hid.
  - intros b p Hm Hb Hv.
    rewrite (handle_update r e seg c schema id Hin Hm Hp Hne).
    rewrite (accepted_runs r t w _ Htok Ht).
    rewrite (bind_Return _ _ _ _ _ (body_as_valid _ _ _ _ w Hb Hv)).
    unfold admin_update. now rewrite Hid.
Qed.

Lemma collection_disconnected {A} c (k : list doc -> M A) w :
  db w = None ->
  bind (collection c) k w = (HTTPException 500 "Internal Server Error", w).
Proof. intros H. unfold bind, collection. now rewrite H. Qed.

(** Property X3.  With no connection to the store ([db] is [None]) the two
    map reads answer null with status 200, while the fetch of a lore
    article and the delete routes answer 500; none of them changes the
    world. *)
Theorem X3_not_connected (r : request) (e : entropy) (w : world) :
  db w = None ->
  (r_method r = GET -> r_path r = ["api"; "map"] ->
   handle r e w = (Return JNull, w))
  /\ (forall t,
        r_method r = GET -> r_path r = ["api"; "admin"; "map"] ->
        r_token r = Some t -> t ∈ TOKENS w ->
        handle r e w = (Return JNull, w))
  /\ (forall id o,
        r_method r = GET -> r_path r = ["api"; "lore"; id] ->
        ObjectId_of_str id = Some o ->
        handle r e w = (HTTPException 500 "Internal Server Error", w))
  /\ (forall seg c schema id o t,
        In (seg, c, schema) crud ->
        r_method r = DELETE -> r_path r = ["api"; "admin"; seg; id] ->
        ObjectId_of_str id = Some o ->
        r_token r = Some t -> t ∈ TOKENS w ->
        handle r e w = (HTTPException 500 "Internal Server Error", w)).
Proof.
  intros Hd. repeat split.
  - intros Hm Hp. rewrite (handle_public_get_map r e Hm Hp).
    now apply public_get_map_disconnected.
  - intros t Hm Hp Htok Ht.
    rewrite (handle_get_map r e Hm Hp), (accepted_runs r t w _ Htok Ht).
    now apply public_get_map_disconnected.
  - intros id o Hm Hp Hid.
    rewrite (handle_lore r e id Hm Hp (ObjectId_of_str_nonempty _ _ Hid)).
    unfold get_lore_article. rewrite Hid. unfold find_one.
    rewrite !bind_assoc. now apply collection_disconnected.
  - intros seg c schema id o t Hin Hm Hp Hid Htok Ht.
    rewrite (handle_delete r e seg c schema id Hin Hm Hp
               (ObjectId_of_str_nonempty _ _ Hid)).
    rewrite (accepted_runs r t w _ Htok Ht).
    unfold admin_delete. rewrite Hid. unfold delete_one.
    rewrite !bind_assoc. now apply collection_disconnected.
Qed.

(** ** Logging in *)

(** Property X4.  A login whose payload is valid is answered a token, added
    to the set, exactly when both its fields equal the configured values;
    otherwise it is answered 401 "Invalid credentials" and the world stays
    as it was.  Where the environment sets neither variable the configured
    values are "admin" and "changeme". *)
Theorem X4_login (r : request) (e : entropy) (w : world) (b p : doc) :
  is_login r = true -> r_body r = Some b ->
  validate AuthRequest b = Some p ->
  (get p "username" = VStr (ADMIN_USERNAME w)
   /\ get p "password" = VStr (ADMIN_PASSWORD w) ->
   handle r e w
   = (Return (JObj {[ "token" := VStr (urandom_hex e) ]}),
      set_TOKENS ({[ urandom_hex e ]} ∪ TOKENS w) w))
  /\ (~ (get p "username" = VStr (ADMIN_USERNAME w)
         /\ get p "password" = VStr (ADMIN_PASSWORD w)) ->
      handle r e w = (HTTPException 401 "Invalid credentials", w))
  /\ (environ w !! "ADMIN_USERNAME" = None ->
      environ w !! "ADMIN_PASSWORD" = None ->
      ADMIN_USERNAME w = "admin" /\ ADMIN_PASSWORD w = "changeme").
Proof.
  intros Hl Hb Hv. rewrite (handle_login r e Hl).
  rewrite (bind_Return _ _ _ _ _ (body_as_valid _ _ _ _ w Hb Hv)).
  unfold admin_login. split; [|split].
  - intros [Hu Hp]. now rewrite !bool_decide_eq_true_2 by assumption.
  - intros Hn. destruct (bool_decide _ && bool_decide _) eqn:Hc;
      [|reflexivity].
    apply andb_prop in Hc as [Hu Hp].
    apply bool_decide_eq_true in Hu. apply bool_decide_eq_true in Hp.
    now destruct Hn.
  - intros Hu Hp. unfold ADMIN_USERNAME, ADMIN_PASSWORD.
    now rewrite Hu, Hp.
Qed.

(** ** Creating *)

Lemma handle_create r e seg c schema :
  In (seg, c, schema) creates ->
  r_method r = POST -> r_path r = ["api"; "admin"; seg] ->
  handle r e
  = (let! _ := require_admin (r_token r) in
     let! _ := query_token r in
     let! p := body_as schema r in
     admin_create c p e).
Proof.
  intros Hin Hm Hp. unfold handle. rewrite Hm, Hp.
  destruct Hin as [[= <- <- <-]|[[= <- <- <-]|[[= <- <- <-]|[]]]];
    reflexivity.
Qed.

(** Property X5.  On the three create routes, with a token of the set, a
    request without a body, or with a payload lacking a field the model
    declares as required, is answered 422 and the world stays as it was:
    the store is not called. *)
Theorem X5_required_field (r : request) (e : entropy) (w : world)
        (seg c : string) (schema : list field) (t : string) :
  In (seg, c, schema) creates ->
  r_method r = POST -> r_path r = ["api"; "admin"; seg] ->
  r_token r = Some t -> t ∈ TOKENS w ->
  (r_body r = None ->
   handle r e w = (HTTPException 422 "Unprocessable Entity", w))
  /\ (forall b f,
        r_body r = Some b ->
        In f schema -> f_default f = Required -> b !! f_name f = None ->
        handle r e w = (HTTPException 422 "Unprocessable Entity", w)).
Proof.
  intros Hin Hm Hp Htok Ht.
  rewrite (handle_create r e seg c schema Hin Hm Hp).
  rewrite (accepted_runs r t w _ Htok Ht). unfold bind, body_as. split.
  - now intros ->.
  - intros b f -> Hf Hreq Hb.
    rewrite (validate_None schema f b Hf); [reflexivity|].
    unfold validate_field. now rewrite Hb, Hreq.
Qed.

Lemma validate_present schema b p f :
  validate schema b = Some p -> In f schema -> is_Some (p !! f_name f).
Proof.
  revert p. induction schema as [|g schema IH]; intros p Hv Hf;
    [destruct Hf|].
  apply validate_cons in Hv as (v & m & _ & Hm & ->).
  rewrite lookup_insert. case_decide; [eauto|].
  destruct Hf as [->|Hf]; [congruence|]. now apply IH.
Qed.

Lemma creates_no_id seg c schema :
  In (seg, c, schema) creates -> ~ In "_id" (map f_name schema).
Proof.
  intros [[= <- <- <-]|[[= <- <- <-]|[[= <- <- <-]|[]]]]; cbn;
    intuition discriminate.
Qed.

Lemma creates_no_int seg c schema :
  In (seg, c, schema) creates -> no_int schema.
Proof.
  intros [[= <- <- <-]|[[= <- <- <-]|[[= <- <- <-]|[]]]];
    repeat (apply Forall_cons; split;
            [split; [discriminate|intros z; discriminate]|]);
    apply Forall_nil; exact I.
Qed.

(** Property X6.  On the three create routes, with a token of the set, a
    valid payload and a well-formed ObjectId not yet in the collection, the
    request appends one document and changes nothing else.  The document
    holds the fields the model declares, with the validated values, and the
    [_id] drawn by the driver, and no other key: what else the payload
    carried, an [_id] of its own included, is not stored.  The answer is
    the validated model with the id as a string. *)
Theorem X6_create_stores_the_model (r : request) (e : entropy) (w : world)
        (seg c : string) (schema : list field) (t : string) (b p : doc)
        (d : Database) :
  In (seg, c, schema) creates ->
  r_method r = POST -> r_path r = ["api"; "admin"; seg] ->
  r_token r = Some t -> t ∈ TOKENS w ->
  r_body r = Some b -> validate schema b = Some p ->
  db w = Some d ->
  valid_oid (new_oid e) = true ->
  Some (VOid (new_oid e)) ∉ ids (coll d c) ->
  let new := <["_id" := VOid (new_oid e)]> p in
  db (handle r e w).2 = Some (<[c := coll d c ++ [new]]> d)
  /\ (handle r e w).1
     = Return (JObj (<["id" := VStr (oid_hex (new_oid e))]> p))
  /\ new !! "_id" = Some (VOid (new_oid e))
  /\ (forall k, k <> "_id" -> new !! k = p !! k)
  /\ (forall k, is_Some (new !! k) <->
                k = "_id" \/ In k (map f_name schema)).
Proof.
  intros Hin Hm Hp Htok Ht Hb Hv Hd Hvalid Hfresh new.
  rewrite (handle_create r e seg c schema Hin Hm Hp).
  rewrite (accepted_runs r t w _ Htok Ht).
  rewrite (bind_Return _ _ _ _ _ (body_as_valid _ _ _ _ w Hb Hv)).
  assert (p !! "_id" = None) as Hpid
      by exact (validate_no_id schema b p (creates_no_id _ _ _ Hin) Hv).
  rewrite (create_connected c p e w d Hd Hpid
             (validate_bson_ok _ _ _ (creates_no_int _ _ _ Hin) Hv)
             Hvalid Hfresh).
  split; [reflexivity|]. split; [reflexivity|].
  split; [apply lookup_insert_eq|]. split.
  - intros k Hk. unfold new. now rewrite lookup_insert_ne by congruence.
  - intros k. unfold new. rewrite lookup_insert. case_decide as Hk.
    + split; [auto|eauto].
    + split.
      * intros Hs. right. exact (validate_dom schema b p k Hv Hs).
      * intros [Hk'|Hk']; [congruence|].
        apply in_map_iff in Hk' as (f & <- & Hf).
        exact (validate_present schema b p f Hv Hf).
Qed.

Lemma existsb_taken id (l : list doc) :
  Some id ∈ ids l ->
  existsb (fun a : doc => bool_decide (a !! "_id" = Some id)) l = true.
Proof.
  intros H. unfold ids in H. apply list_elem_of_fmap in H as (a & Ha & Hin).
  apply existsb_exists. exists a. split; [now apply list_elem_of_In|].
  now apply bool_decide_eq_true.
Qed.

(** Property X7.  On the three create routes, when the ObjectId drawn for
    the new document is already the [_id] of a document of the collection,
    the insert is refused: the answer is 500 and the store holds the
    documents it held. *)
Theorem X7_duplicate_id (r : request) (e : entropy) (w : world)
        (seg c : string) (schema : list field) (t : string) (b p : doc)
        (d : Database) :
  In (seg, c, schema) creates ->
  r_method r = POST -> r_path r = ["api"; "admin"; seg] ->
  r_token r = Some t -> t ∈ TOKENS w ->
  r_body r = Some b -> validate schema b = Some p ->
  db w = Some d ->
  Some (VOid (new_oid e)) ∈ ids (coll d c) ->
  (handle r e w).1 = HTTPException 500 "Internal Server Error"
  /\ db (handle r e w).2 = Some d.
Proof.
  intros Hin Hm Hp Htok Ht Hb Hv Hd Htaken.
  rewrite (handle_create r e seg c schema Hin Hm Hp).
  rewrite (accepted_runs r t w _ Htok Ht).
  rewrite (bind_Return _ _ _ _ _ (body_as_valid _ _ _ _ w Hb Hv)).
  assert (p !! "_id" = None) as Hpid
      by exact (validate_no_id schema b p (creates_no_id _ _ _ Hin) Hv).
  assert (admin_create c p e w
          = (HTTPException 500 "Internal Server Error",
             log_call (InsertOne c) w)) as ->.
  { unfold admin_create, create_document. rewrite !bind_assoc.
    unfold bind at 1. rewrite (insert_one_cases c p (new_oid e) w d Hd Hpid).
    now rewrite (existsb_taken _ _ Htaken), orb_true_r. }
  split; [reflexivity|exact Hd].
Qed.

(** ** Updating and deleting, then reading *)

Lemma find_unique o (l : list doc) a :
  NoDup (ids l) -> a ∈ l -> a !! "_id" = Some (VOid o) ->
  List.find (has_id o) l = Some a.
Proof.
  intros Hnd Ha Hid. induction l as [|x l IH]; [now apply not_elem_of_nil in Ha|].
  cbn in Hnd. apply NoDup_cons in Hnd as [Hx Hnd]. cbn.
  destruct (has_id o x) eqn:Ho.
  - apply has_id_true in Ho. apply elem_of_cons in Ha as [->|Ha];
      [reflexivity|].
    destruct Hx. rewrite Ho, <- Hid. unfold ids. apply list_elem_of_fmap. eauto.
  - apply elem_of_cons in Ha as [->|Ha]; [|auto].
    apply has_id_true in Hid. congruence.
Qed.

Lemma crud_no_id seg c schema :
  In (seg, c, schema) crud -> ~ In "_id" (map f_name schema).
Proof.
  intros [[= <- <- <-]|[[= <- <- <-]|[[= <- <- <-]|[]]]]; cbn;
    intuition discriminate.
Qed.

Lemma merged_id (p a : doc) :
  p !! "_id" = None -> (update_doc_of p ∪ a) !! "_id" = a !! "_id".
Proof. intros Hp. now rewrite lookup_merged, Hp. Qed.

(** An update of a document that is there: what it answers and stores. *)
Lemma admin_update_found c id o p w d a :
  ObjectId_of_str id = Some o -> update_doc_of p <> ∅ ->
  p !! "_id" = None -> bson_ok (update_doc_of p) = true -> db w = Some d ->
  List.find (has_id o) (coll d c) = Some a ->
  let a' := update_doc_of p ∪ a in
  let d' := alter (update_first (has_id o) (fun x => update_doc_of p ∪ x)) c d in
  admin_update c id p w
  = (Return (JObj (<["id" := VStr (oid_hex o)]> (delete "_id" a'))),
     log_call (FindOne c) (set_db d' (log_call (UpdateOne c) w)))
  /\ List.find (has_id o) (coll d' c) = Some a'
  /\ a' !! "_id" = Some (VOid o).
Proof.
  intros Hid Hne Hp Hbs Hd Hfind a' d'.
  assert (a !! "_id" = Some (VOid o)) as Ha.
  { apply find_some in Hfind as [_ H]. now apply has_id_true. }
  assert (a' !! "_id" = Some (VOid o)) as Ha'
      by (unfold a'; now rewrite merged_id).
  assert (List.find (has_id o) (coll d' c) = Some a') as Hfind'.
  { unfold d'. rewrite coll_alter by reflexivity.
    rewrite decide_True by reflexivity.
    apply update_first_find; [assumption|]. now apply has_id_true. }
  split; [|auto]. unfold admin_update. rewrite Hid.
  rewrite bool_decide_eq_false_2 by assumption.
  rewrite (bind_Return _ _ _ _ _ (update_one_connected _ _ _ _ _ Hd Hbs)).
  fold d'. set (w1 := set_db d' (log_call (UpdateOne c) w)).
  assert (db w1 = Some d') as Hd1 by reflexivity.
  rewrite (bind_Return _ _ _ _ _ (find_one_connected _ _ _ _ Hd1)).
  rewrite Hfind'. cbn [ret]. now rewrite (doc_to_public_oid _ _ Ha').
Qed.

(** Property X8.  On the three update routes, with a token of the set, a
    valid payload with a field other than [None] and a collection of
    unique ids holding a document of the given id: the answer is the public
    form of that document with the given fields merged in, its [_id]
    rendered as the string [id]. *)
Theorem X8_update_answers_merged (r : request) (e : entropy) (w : world)
        (seg c : string) (schema : list field) (id t : string)
        (o : ObjectId) (b p a : doc) (d : Database) :
  In (seg, c, schema) crud ->
  r_method r = PUT -> r_path r = ["api"; "admin"; seg; id] ->
  ObjectId_of_str id = Some o ->
  r_token r = Some t -> t ∈ TOKENS w ->
  r_body r = Some b -> validate schema b = Some p ->
  update_doc_of p <> ∅ ->
  db w = Some d -> NoDup (ids (coll d c)) ->
  a ∈ coll d c -> a !! "_id" = Some (VOid o) ->
  (handle r e w).1
  = Return (JObj (<["id" := VStr (oid_hex o)]>
                    (delete "_id" (update_doc_of p ∪ a)))).
Proof.
  intros Hin Hm Hp Hid Htok Ht Hb Hv Hne Hd Hnd Ha Haid.
  rewrite (handle_update r e seg c schema id Hin Hm Hp
             (ObjectId_of_str_nonempty _ _ Hid)).
  rewrite (accepted_runs r t w _ Htok Ht).
  rewrite (bind_Return _ _ _ _ _ (body_as_valid _ _ _ _ w Hb Hv)).
  pose proof (validate_no_id schema b p (crud_no_id _ _ _ Hin) Hv) as Hpid.
  pose proof (find_unique o _ a Hnd Ha Haid) as Hfind.
  destruct (admin_update_found c id o p w d a Hid Hne Hpid
              (crud_update_encodes _ _ _ _ _ Hin Hv) Hd Hfind)
    as (-> & _ & _).
  reflexivity.
Qed.

(** The fetch of an article that is there. *)
Lemma get_lore_article_found id o w d a :
  ObjectId_of_str id = Some o -> db w = Some d ->
  List.find (has_id o) (coll d "lorearticle") = Some a ->
  get_lore_article id w
  = (Return (JObj {[ "id" := VStr (oid_hex o);
                     "title" := get a "title";
                     "short_description" := get a "short_description";
                     "main_image_url" := get a "main_image_url";
                     "content_body" := get a "content_body" ]}),
     log_call (FindOne "lorearticle") w).
Proof.
  intros Hid Hd Hfind.
  assert (a !! "_id" = Some (VOid o)) as Ha.
  { apply find_some in Hfind as [_ H]. now apply has_id_true. }
  unfold get_lore_article. rewrite Hid.
  rewrite (bind_Return _ _ _ _ _ (find_one_connected _ _ _ _ Hd)).
  rewrite Hfind, (falsy_has_id _ _ Ha), (doc_to_public_oid _ _ Ha).
  rewrite lookup_insert_eq. now rewrite !get_public by discriminate.
Qed.

(** Property X9.  After [PUT /api/admin/lore/{id}] has updated an article
    (token of the set, valid payload with a field other than [None],
    unique ids), [GET /api/lore/{id}] answers the merged article: each of
    its four fields is the one given by the update when it gave one, and
    the stored one otherwise. *)
Theorem X9_update_then_fetch (r r' : request) (e e' : entropy) (w : world)
        (id t : string) (o : ObjectId) (b p a : doc) (d : Database) :
  r_method r = PUT -> r_path r = ["api"; "admin"; "lore"; id] ->
  ObjectId_of_str id = Some o ->
  r_token r = Some t -> t ∈ TOKENS w ->
  r_body r = Some b -> validate LoreUpdate b = Some p ->
  update_doc_of p <> ∅ ->
  db w = Some d -> NoDup (ids (coll d "lorearticle")) ->
  a ∈ coll d "lorearticle" -> a !! "_id" = Some (VOid o) ->
  r_method r' = GET -> r_path r' = ["api"; "lore"; id] ->
  let a' := update_doc_of p ∪ a in
  (handle r' e' (handle r e w).2).1
  = Return (JObj {[ "id" := VStr (oid_hex o);
                    "title" := get a' "title";
                    "short_description" := get a' "short_description";
                    "main_image_url" := get a' "main_image_url";
                    "content_body" := get a' "content_body" ]})
  /\ forall k, get a' k
               = match p !! k with
                 | Some v => if is_not_None v then v else get a k
                 | None => get a k
                 end.
Proof.
  intros Hm Hp Hid Htok Ht Hb Hv Hne Hd Hnd Ha Haid Hm' Hp' a'.
  pose proof (ObjectId_of_str_nonempty _ _ Hid) as Hnid.
  assert (In ("lore", "lorearticle", LoreUpdate) crud) as Hin
      by (right; left; reflexivity).
  rewrite (handle_update r e _ _ _ id Hin Hm Hp Hnid).
  rewrite (accepted_runs r t w _ Htok Ht).
  rewrite (bind_Return _ _ _ _ _ (body_as_valid _ _ _ _ w Hb Hv)).
  pose proof (validate_no_id _ b p (crud_no_id _ _ _ Hin) Hv) as Hpid.
  pose proof (find_unique o _ a Hnd Ha Haid) as Hfind.
  destruct (admin_update_found "lorearticle" id o p w d a Hid Hne Hpid
              (crud_update_encodes _ _ _ _ _ Hin Hv) Hd Hfind)
    as (-> & Hfind' & _).
  cbn [snd]. rewrite (handle_lore r' e' id Hm' Hp' Hnid). split.
  - erewrite get_lore_article_found; [reflexivity|exact Hid| |exact Hfind'].
    reflexivity.
  - intros k. unfold get, a'. rewrite lookup_merged.
    destruct (p !! k) as [v|]; [|reflexivity]. now destruct (is_not_None v).
Qed.

Lemma delete_first_keeps (flt : doc -> bool) (l : list doc) a :
  a ∈ l -> flt a = false -> a ∈ delete_first flt l.
Proof.
  intros Ha Hf. induction l as [|x l IH]; [assumption|]. cbn.
  destruct (flt x) eqn:Hx.
  - apply elem_of_cons in Ha as [->|Ha]; [congruence|assumption].
  - apply elem_of_cons in Ha as [->|Ha]; [left|right; auto].
Qed.

Lemma length_delete_first (flt : doc -> bool) (l : list doc) :
  (length l <= S (length (delete_first flt l)))%nat.
Proof.
  induction l as [|x l IH]; cbn; [lia|]. destruct (flt x); cbn; lia.
Qed.

(** Property X10.  On the three delete routes, with a token of the set, a
    connected store and a well-formed id: the request removes at most one
    document, keeps every document of another id and every document of the
    other collections, and adds none. *)
Theorem X10_delete_removes_one (r : request) (e : entropy) (w : world)
        (seg c : string) (schema : list field) (id t : string)
        (o : ObjectId) (d : Database) :
  In (seg, c, schema) crud ->
  r_method r = DELETE -> r_path r = ["api"; "admin"; seg; id] ->
  ObjectId_of_str id = Some o ->
  r_token r = Some t -> t ∈ TOKENS w ->
  db w = Some d ->
  exists d',
    db (handle r e w).2 = Some d'
    /\ (forall c', c' <> c -> coll d' c' = coll d c')
    /\ (forall a, a ∈ coll d c -> a !! "_id" <> Some (VOid o) ->
                  a ∈ coll d' c)
    /\ (forall a, a ∈ coll d' c -> a ∈ coll d c)
    /\ (length (coll d c) <= S (length (coll d' c)))%nat.
Proof.
  intros Hin Hm Hp Hid Htok Ht Hd.
  rewrite (handle_delete r e seg c schema id Hin Hm Hp
             (ObjectId_of_str_nonempty _ _ Hid)).
  rewrite (delete_connected r t w c id o d Htok Ht Hid Hd).
  eexists. split; [reflexivity|].
  rewrite coll_alter, decide_True by reflexivity.
  split; [|split; [|split]].
  - intros c' Hc. rewrite coll_alter by reflexivity.
    now rewrite decide_False by congruence.
  - intros a Ha Hn. apply delete_first_keeps; [assumption|].
    apply not_true_is_false. now rewrite has_id_true.
  - intros a. apply delete_first_sublist.
  - apply length_delete_first.
Qed.

(** Property X11.  After [DELETE /api/admin/lore/{id}] (token of the set,
    connected store, unique ids), [GET /api/lore/{id}] answers 404. *)
Theorem X11_delete_then_fetch (r r' : request) (e e' : entropy) (w : world)
        (id t : string) (o : ObjectId) (d : Database) :
  r_method r = DELETE -> r_path r = ["api"; "admin"; "lore"; id] ->
  ObjectId_of_str id = Some o ->
  r_token r = Some t -> t ∈ TOKENS w ->
  db w = Some d -> NoDup (ids (coll d "lorearticle")) ->
  r_method r' = GET -> r_path r' = ["api"; "lore"; id] ->
  (handle r' e' (handle r e w).2).1
  = HTTPException 404 "Article not found".
Proof.
  intros Hm Hp Hid Htok Ht Hd Hnd Hm' Hp'.
  pose proof (ObjectId_of_str_nonempty _ _ Hid) as Hnid.
  assert (In ("lore", "lorearticle", LoreUpdate) crud) as Hin
      by (right; left; reflexivity).
  rewrite (handle_delete r e _ _ _ id Hin Hm Hp Hnid).
  rewrite (delete_connected r t w _ id o d Htok Ht Hid Hd). cbn [snd].
  rewrite (handle_lore r' e' id Hm' Hp' Hnid).
  unfold get_lore_article. rewrite Hid.
  set (d1 := alter _ _ d). set (w1 := set_db d1 _).
  assert (db w1 = Some d1) as Hd1 by reflexivity.
  rewrite (bind_Return _ _ _ _ _ (find_one_connected _ _ _ _ Hd1)).
  unfold d1. rewrite coll_alter, decide_True by reflexivity.
  now rewrite (delete_first_gone o _ Hnd).
Qed.

(** Property X12.  The model of a POI update puts no bound on the
    coordinates: [PUT /api/admin/pois/{id}] with the payload
    [{"x_coordinate": q}] is accepted for every number [q], and the
    document of that id is stored and answered with [x_coordinate = q],
    also when [q] lies outside [0, 1]. *)
Theorem X12_update_any_coordinate (r : request) (e : entropy) (w : world)
        (id t : string) (o : ObjectId) (q : Q) (a : doc) (d : Database) :
  r_method r = PUT -> r_path r = ["api"; "admin"; "pois"; id] ->
  ObjectId_of_str id = Some o ->
  r_token r = Some t -> t ∈ TOKENS w ->
  r_body r = Some {[ "x_coordinate" := VFloat q ]} ->
  db w = Some d -> NoDup (ids (coll d "poi")) ->
  a ∈ coll d "poi" -> a !! "_id" = Some (VOid o) ->
  let a' := <["x_coordinate" := VFloat q]> a in
  (handle r e w).1
  = Return (JObj (<["id" := VStr (oid_hex o)]> (delete "_id" a')))
  /\ exists d', db (handle r e w).2 = Some d' /\ a' ∈ coll d' "poi".
Proof.
  intros Hm Hp Hid Htok Ht Hb Hd Hnd Ha Haid a'.
  pose proof (ObjectId_of_str_nonempty _ _ Hid) as Hnid.
  assert (In ("pois", "poi", POIUpdate) crud) as Hin by (left; reflexivity).
  set (p := ({[ "name" := VNone; "x_coordinate" := VFloat q;
                "y_coordinate" := VNone; "icon_type" := VNone;
                "lore_article_id" := VNone ]} : doc)).
  assert (validate POIUpdate {[ "x_coordinate" := VFloat q ]} = Some p) as Hv
      by reflexivity.
  assert (update_doc_of p ∪ a = a') as Hmerge.
  { apply map_eq. intros k. rewrite lookup_merged. unfold a', p.
    destruct (decide (k = "x_coordinate")) as [->|Hk].
    - now rewrite lookup_insert_eq.
    - rewrite (lookup_insert_ne a) by congruence.
      repeat (rewrite lookup_insert; case_decide;
              [subst; first [reflexivity|congruence]|]).
      rewrite lookup_singleton. now case_decide. }
  assert (update_doc_of p <> ∅) as Hne.
  { intros Hempty.
    assert (update_doc_of p !! "x_coordinate" = Some (VFloat q)) as Hl.
    { apply map_lookup_filter_Some. split; reflexivity. }
    rewrite Hempty, lookup_empty in Hl. discriminate. }
  rewrite (handle_update r e _ _ _ id Hin Hm Hp Hnid).
  rewrite (accepted_runs r t w _ Htok Ht).
  rewrite (bind_Return _ _ _ _ _ (body_as_valid _ _ _ _ w Hb Hv)).
  pose proof (find_unique o _ a Hnd Ha Haid) as Hfind.
  destruct (admin_update_found "poi" id o p w d a Hid Hne eq_refl
              (crud_update_encodes _ _ _ _ _ Hin Hv) Hd Hfind)
    as (-> & Hfind' & _).
  rewrite Hmerge in *. split; [reflexivity|].
  eexists. split; [reflexivity|].
  apply find_some in Hfind' as [Hin' _]. now apply list_elem_of_In.
Qed.

(** ** The map asset after a post *)

Lemma greatest_last best zb (l : list doc) new z :
  version_of best = Some zb -> zb < z ->
  versioned l ->
  (forall a za, a ∈ l -> version_of a = Some za -> za < z) ->
  version_of new = Some z ->
  greatest "version" best (l ++ [new]) = new.
Proof.
  intros Hb Hlt Hl Hall Hnew. revert best zb Hb Hlt.
  apply version_of_Some in Hnew.
  induction l as [|x l IH]; intros best zb Hb Hlt; cbn.
  - apply version_of_Some in Hb. rewrite Hb, Hnew, key_lt_int.
    now rewrite (proj2 (Z.ltb_lt _ _) Hlt).
  - apply Forall_cons in Hl as [[zx Hx] Hl].
    pose proof (Hall x zx ltac:(left) Hx) as Hzx.
    assert (forall a za, a ∈ l -> version_of a = Some za -> za < z) as Hall'.
    { intros a za Ha. apply Hall. now right. }
    pose proof (proj1 (version_of_Some _ _) Hb) as Hb'.
    pose proof (proj1 (version_of_Some _ _) Hx) as Hx'.
    rewrite Hb', Hx', key_lt_int.
    destruct (Z.ltb zb zx); eauto.
Qed.

(** What a post of a map asset answers and stores, given the version [z]
    that follows the one the sort finds. *)
Lemma set_map_connected b p e w d z :
  db w = Some d ->
  (match coll d "mapasset" with
   | [] => z = 1
   | x :: l => version_of (greatest "version" x l) = Some (z - 1)
   end) ->
  int64 z = true -> bson_ok p = true ->
  validate MapAssetUpdate b = Some p ->
  valid_oid (new_oid e) = true ->
  Some (VOid (new_oid e)) ∉ ids (coll d "mapasset") ->
  set_map p e w
  = (Return (JObj (<["id" := VStr (oid_hex (new_oid e))]>
                     (<["version" := VInt z]> p))),
     log_call (FindOne "mapasset")
       (set_db (<["mapasset" :=
                    coll d "mapasset"
                    ++ [<["_id" := VOid (new_oid e)]>
                          (<["version" := VInt z]> p)]]> d)
               (log_call (InsertOne "mapasset")
                         (log_call (FindOne "mapasset") w)))).
Proof.
  intros Hd Hz Hz64 Hbson Hv Hvalid Hfresh.
  assert ((<["version" := VInt z]> p) !! "_id" = None) as Hpid.
  { rewrite lookup_insert_ne by discriminate.
    apply (validate_no_id MapAssetUpdate b); [|assumption].
    cbn. intuition discriminate. }
  rewrite (set_map_version p e w d z Hd Hz).
  rewrite (validate_MapAsset_of b p z Hv).
  set (w1 := log_call (FindOne "mapasset") w).
  assert (db w1 = Some d) as Hd1 by exact Hd.
  exact (create_connected "mapasset" _ e w1 d Hd1 Hpid
           (bson_ok_insert "version" (VInt z) p Hz64 Hbson) Hvalid Hfresh).
Qed.

(** Property X13.  After a post of a map asset has succeeded (token of the
    set, valid payload, versioned collection, well-formed ObjectId not yet
    in it), its version exceeds every version found before, and a second
    post finds the new document as the current one: it is answered the
    next version. *)
Theorem X13_successive_posts (r r' : request) (e e' : entropy) (w : world)
        (t t' : string) (b p b' p' : doc) (d : Database) :
  r_method r = POST -> r_path r = ["api"; "admin"; "map"] ->
  r_token r = Some t -> t ∈ TOKENS w ->
  r_body r = Some b -> validate MapAssetUpdate b = Some p ->
  bson_ok p = true ->
  r_method r' = POST -> r_path r' = ["api"; "admin"; "map"] ->
  r_token r' = Some t' -> t' ∈ TOKENS w ->
  r_body r' = Some b' -> validate MapAssetUpdate b' = Some p' ->
  bson_ok p' = true ->
  db w = Some d -> versioned (coll d "mapasset") ->
  (forall a za, a ∈ coll d "mapasset" -> version_of a = Some za ->
                int64 (za + 1) = true /\ int64 (za + 2) = true) ->
  valid_oid (new_oid e) = true -> valid_oid (new_oid e') = true ->
  Some (VOid (new_oid e)) ∉ ids (coll d "mapasset") ->
  Some (VOid (new_oid e')) ∉ ids (coll d "mapasset") ->
  new_oid e' <> new_oid e ->
  exists z,
    (handle r e w).1
    = Return (JObj (<["id" := VStr (oid_hex (new_oid e))]>
                      (<["version" := VInt z]> p)))
    /\ (handle r' e' (handle r e w).2).1
       = Return (JObj (<["id" := VStr (oid_hex (new_oid e'))]>
                         (<["version" := VInt (z + 1)]> p')))
    /\ forall a za, a ∈ coll d "mapasset" -> version_of a = Some za ->
                    za < z.
Proof.
  intros Hm Hp Htok Ht Hb Hv Hbson Hm' Hp' Htok' Ht' Hb' Hv' Hbson'
         Hd Hver Hbound Hvalid Hvalid' Hfresh Hfresh' Hne.
  assert (exists z,
             match coll d "mapasset" with
             | [] => z = 1
             | x :: l => version_of (greatest "version" x l) = Some (z - 1)
             end
             /\ (forall a za, a ∈ coll d "mapasset" ->
                              version_of a = Some za -> za < z)
             /\ int64 z = true /\ int64 (z + 1) = true)
    as (z & Hz & Hall & Hz64 & Hz64').
  { destruct (coll d "mapasset") as [|x l] eqn:Hl.
    - exists 1. split; [reflexivity|]. split; [|split; reflexivity].
      intros a za Ha. now apply not_elem_of_nil in Ha.
    - destruct (greatest_current x l Hver) as (zc & Hin & Hzc & Hmax).
      destruct (Hbound _ _ Hin Hzc) as [H1 H2].
      exists (zc + 1). split; [rewrite Hzc; f_equal; lia|]. split.
      + intros a za Ha Hza. pose proof (Hmax a za Ha Hza). lia.
      + split; [exact H1|]. now replace (zc + 1 + 1) with (zc + 2) by lia. }
  exists z.
  rewrite (handle_set_map r e Hm Hp), (accepted_runs r t w _ Htok Ht).
  rewrite (bind_Return _ _ _ _ _ (body_as_valid _ _ _ _ w Hb Hv)).
  rewrite (set_map_connected b p e w d z Hd Hz Hz64 Hbson Hv Hvalid Hfresh).
  split; [reflexivity|]. split; [|exact Hall]. cbn [fst snd].
  set (new := <["_id" := VOid (new_oid e)]> (<["version" := VInt z]> p)).
  set (d1 := <["mapasset" := coll d "mapasset" ++ [new]]> d).
  set (w1 := log_call _ _).
  assert (db w1 = Some d1) as Hd1 by reflexivity.
  assert (TOKENS w1 = TOKENS w) as Htw by reflexivity.
  assert (version_of new = Some z) as Hnew.
  { apply version_of_Some. unfold new.
    rewrite lookup_insert_ne by discriminate. apply lookup_insert_eq. }
  assert (coll d1 "mapasset" = coll d "mapasset" ++ [new]) as Hc1.
  { unfold d1. now rewrite coll_insert, decide_True by reflexivity. }
  rewrite (handle_set_map r' e' Hm' Hp').
  rewrite (accepted_runs r' t' w1 _ Htok'); [|now rewrite Htw].
  rewrite (bind_Return _ _ _ _ _ (body_as_valid _ _ _ _ w1 Hb' Hv')).
  rewrite (set_map_connected b' p' e' w1 d1 (z + 1) Hd1); try assumption;
    [reflexivity| |].
  - rewrite Hc1. replace (z + 1 - 1) with z by lia.
    destruct (coll d "mapasset") as [|x l] eqn:Hl; cbn [app]; [exact Hnew|].
    apply Forall_cons in Hver as [[zx Hx] Hver].
    rewrite (greatest_last x zx l new z Hx); try assumption.
    + apply (Hall x zx); [left|assumption].
    + intros a za Ha. apply Hall. now right.
  - rewrite Hc1. unfold ids. rewrite fmap_app. intros Hin.
    apply elem_of_app in Hin as [Hin|Hin]; [now apply Hfresh'|].
    cbn in Hin. apply list_elem_of_singleton in Hin.
    unfold new in Hin. rewrite lookup_insert_eq in Hin. congruence.
Qed.

(** ** Lists *)

Lemma doc_to_public_Some (a : doc) :
  doc_to_public (Some a)
  = Some (if truthy (a !! "_id")
          then <["id" := VStr (oid_str (get a "_id"))]> (delete "_id" a)
          else a).
Proof.
  unfold doc_to_public. cbn [falsy]. case_bool_decide as He.
  - subst a. now rewrite lookup_empty.
  - now destruct (truthy (a !! "_id")).
Qed.

(** Property X14.  [doc_to_public] applied twice gives what it gives
    applied once, for every document and for [None]. *)
Theorem X14_doc_to_public_idempotent (d : option doc) :
  doc_to_public (doc_to_public d) = doc_to_public d.
Proof.
  destruct d as [a|]; [|reflexivity].
  rewrite (doc_to_public_Some a).
  destruct (truthy (a !! "_id")) eqn:Ht; rewrite doc_to_public_Some.
  - rewrite lookup_insert_ne by discriminate. now rewrite lookup_delete_eq.
  - now rewrite Ht.
Qed.

Lemma handle_list r e seg c schema :
  In (seg, c, schema) crud ->
  r_method r = GET -> r_path r = ["api"; "admin"; seg] ->
  handle r e
  = (let! _ := require_admin (r_token r) in
     let! _ := query_token r in
     admin_list c).
Proof.
  intros Hin Hm Hp. unfold handle. rewrite Hm, Hp.
  destruct Hin as [[= <- <- <-]|[[= <- <- <-]|[[= <- <- <-]|[]]]];
    reflexivity.
Qed.

(** Property X15.  On the three admin list routes, with a token of the set
    and a connected store, the answer lists the documents of the
    collection, as many and in the same order; a document whose [_id] is
    truthy comes with the key [_id] replaced by the string [id], and a
    document whose [_id] is missing or falsy comes as it is stored. *)
Theorem X15_admin_list (r : request) (e : entropy) (w : world)
        (seg c : string) (schema : list field) (t : string) (d : Database) :
  In (seg, c, schema) crud ->
  r_method r = GET -> r_path r = ["api"; "admin"; seg] ->
  r_token r = Some t -> t ∈ TOKENS w ->
  db w = Some d ->
  exists l,
    (handle r e w).1 = Return (JArr l)
    /\ length l = length (coll d c)
    /\ forall i a,
        coll d c !! i = Some a ->
        l !! i
        = Some (Some (if truthy (a !! "_id")
                      then <["id" := VStr (oid_str (get a "_id"))]>
                             (delete "_id" a)
                      else a)).
Proof.
  intros Hin Hm Hp Htok Ht Hd.
  rewrite (handle_list r e seg c schema Hin Hm Hp).
  rewrite (accepted_runs r t w _ Htok Ht).
  unfold admin_list, get_documents.
  rewrite (bind_Return _ _ _ _ _ (find_connected _ _ _ _ _ Hd)).
  rewrite filter_all. eexists. split; [reflexivity|]. split.
  - apply length_map.
  - intros i a Hi. rewrite list_lookup_fmap, Hi. cbn.
    now rewrite doc_to_public_Some.
Qed.

Lemma dom_poi_record (a : doc) : dom (poi_record a) = POI_keys.
Proof.
  unfold poi_record, POI_keys.
  rewrite !dom_insert_L, dom_singleton_L. set_solver.
Qed.

(** Property X16.  [GET /api/pois] needs no token; on a connected store it
    answers one record per stored POI, in the order of the store, whatever
    the documents hold.  Each record has the six public keys and no other:
    a field the document lacks is null, a missing [icon_type] is "marker",
    and the request leaves the store as it was. *)
Theorem X16_get_pois (r : request) (e : entropy) (w : world) (d : Database) :
  r_method r = GET -> r_path r = ["api"; "pois"] ->
  db w = Some d ->
  exists l,
    handle r e w = (Return (JArr l), log_call (Find "poi") w)
    /\ length l = length (coll d "poi")
    /\ forall i a,
        coll d "poi" !! i = Some a ->
        exists record,
          l !! i = Some (Some record)
          /\ dom record = POI_keys
          /\ record !! "id" = Some (VStr (oid_str (get a "_id")))
          /\ (forall k, k ∈ ["name"; "x_coordinate"; "y_coordinate";
                              "lore_article_id"] ->
                        record !! k = Some (get a k))
          /\ record !! "icon_type"
             = Some (match a !! "icon_type" with
                     | Some v => v
                     | None => VStr "marker"
                     end).
Proof.
  intros Hm Hp Hd.
  rewrite (handle_get_pois r e Hm Hp), (get_pois_connected w d Hd).
  eexists. split; [reflexivity|]. split; [apply length_map|].
  intros i a Hi. exists (poi_record a).
  split; [now rewrite list_lookup_fmap, Hi|].
  split; [apply dom_poi_record|]. split; [reflexivity|]. split.
  - intros k Hk.
    repeat (apply elem_of_cons in Hk as [->|Hk]; [reflexivity|]).
    now apply not_elem_of_nil in Hk.
  - unfold poi_record, get_default.
    rewrite !lookup_insert_ne by discriminate. rewrite lookup_singleton_eq.
    now destruct (a !! "icon_type").
Qed.

End Handlers.

(** ** The theorems at the sample data *)

Lemma C5_get_lore_article_witness :
  exists a,
    a ∈ coll Sample.store "lorearticle"
    /\ a !! "_id" = Some (VOid Sample.oid1)
    /\ handle Sample.str Sample.regex Sample.str_as_float Sample.str_as_int
              Sample.get_forest Sample.e Sample.w
       = (Return (JObj {[ "id" := VStr (oid_hex Sample.oid1);
                          "title" := get a "title";
                          "short_description" := get a "short_description";
                          "main_image_url" := get a "main_image_url";
                          "content_body" := get a "content_body" ]}),
          log_call (FindOne "lorearticle") Sample.w).
Proof.
  refine (proj1 (proj2 (proj2 (proj2 (proj2
            (C5_get_lore_article Sample.str Sample.regex Sample.str_as_float
               Sample.str_as_int Sample.get_forest Sample.e Sample.w
               (oid_hex Sample.oid1) _ _ _)))))
                Sample.oid1 Sample.store _ _ _).
  - reflexivity.
  - reflexivity.
  - discriminate.
  - reflexivity.
  - reflexivity.
  - exists Sample.forest. split; [|reflexivity].
    apply list_elem_of_singleton. reflexivity.
Defined.

(** An id that is not an object id, eight hex bytes with spaces, goes
    through the constructor: the answer is 404, not 400. *)
Lemma C5_spaced_id_answered_404 :
  well_formed_id Sample.spaced_id = false
  /\ handle Sample.str Sample.regex Sample.str_as_float Sample.str_as_int
            Sample.get_spaced Sample.e Sample.w
     = (HTTPException 404 "Article not found",
        log_call (FindOne "lorearticle") Sample.w).
Proof. split; reflexivity. Qed.

Lemma C1_admin_guard_witness :
  TOKENS Sample.started = ∅
  /\ let w := (run_received Sample.str Sample.regex Sample.str_as_float
                            Sample.str_as_int
                            [(Readable Sample.login, Sample.e)]
                            Sample.started).2 in
     receive Sample.str Sample.regex Sample.str_as_float Sample.str_as_int
             (Readable Sample.list_lore_unauthenticated) Sample.e w
     = (HTTPException 401 "Unauthorized", w).
Proof.
  split; [reflexivity|].
  apply (proj1 (C1_admin_guard Sample.str Sample.regex Sample.str_as_float
                  Sample.str_as_int
                  [(Readable Sample.login, Sample.e)] Sample.started eq_refl)
               (Readable Sample.list_lore_unauthenticated) Sample.e).
  - reflexivity.
  - left. reflexivity.
Defined.

(** A create on an admin route, without a token, whose body is not JSON:
    the answer is 422, not 401. *)
Lemma C1_unreadable_body_before_guard :
  admin_operation Sample.create_poi_unauthenticated = true
  /\ r_token Sample.create_poi_unauthenticated = None
  /\ receive Sample.str Sample.regex Sample.str_as_float Sample.str_as_int
             (Unreadable Sample.create_poi_unauthenticated NotJSON)
             Sample.e Sample.started
     = (HTTPException 422 "Unprocessable Entity", Sample.started).
Proof. repeat split. Qed.

Lemma C3_poi_out_of_range_witness :
  client_error
    (status_of (handle Sample.str Sample.regex Sample.str_as_float Sample.str_as_int Sample.create_poi_outside
                       Sample.e Sample.w).1)
  /\ (handle Sample.str Sample.regex Sample.str_as_float Sample.str_as_int Sample.create_poi_outside
             Sample.e Sample.w).2 = Sample.w.
Proof.
  apply (C3_poi_out_of_range Sample.str Sample.regex Sample.str_as_float Sample.str_as_int
           Sample.create_poi_outside Sample.e Sample.w
           (<["x_coordinate" := VFloat (3 # 2)]> Sample.harbour)).
  - reflexivity.
  - reflexivity.
  - reflexivity.
  - left. exists (3 # 2). split; [reflexivity|].
    intros [_ H]. vm_compute in H. apply H. reflexivity.
Defined.

Lemma C8_delete_idempotent_witness :
  let w1 := (handle Sample.str Sample.regex Sample.str_as_float Sample.str_as_int Sample.delete_town
                    Sample.e Sample.w).2 in
  (handle Sample.str Sample.regex Sample.str_as_float Sample.str_as_int Sample.delete_town Sample.e Sample.w).1
  = Return (JObj {[ "deleted" := VBool true ]})
  /\ db (handle Sample.str Sample.regex Sample.str_as_float Sample.str_as_int Sample.delete_town Sample.e w1).2
     = db w1.
Proof.
  destruct (C8_delete_idempotent Sample.str Sample.regex Sample.str_as_float Sample.str_as_int Sample.delete_town
              Sample.e Sample.e Sample.w "pois" "poi" POIUpdate
              (oid_hex Sample.oid1) Sample.token Sample.oid1 Sample.store)
    as (H1 & _ & H3 & _).
  - left. reflexivity.
  - reflexivity.
  - reflexivity.
  - reflexivity.
  - reflexivity.
  - apply (bool_decide_unpack _). vm_compute. exact I.
  - reflexivity.
  - apply (bool_decide_unpack _). vm_compute. exact I.
  - split; [exact H1|exact H3].
Defined.

Lemma C10_update_missing_witness :
  (handle Sample.str Sample.regex Sample.str_as_float Sample.str_as_int Sample.rename_missing
          Sample.e Sample.w).1 = Return JNull
  /\ status_of (handle Sample.str Sample.regex Sample.str_as_float Sample.str_as_int Sample.rename_missing
                       Sample.e Sample.w).1 = 200
  /\ db (handle Sample.str Sample.regex Sample.str_as_float Sample.str_as_int Sample.rename_missing
                Sample.e Sample.w).2 = Some Sample.store.
Proof.
  apply (C10_update_missing Sample.str Sample.regex Sample.str_as_float Sample.str_as_int Sample.rename_missing
           Sample.e Sample.w "pois" "poi" POIUpdate
           (oid_hex Sample.oid2) Sample.token Sample.oid2
           {[ "name" := VStr "Nowhere" ]}
           {[ "name" := VStr "Nowhere"; "x_coordinate" := VNone;
              "y_coordinate" := VNone; "icon_type" := VNone;
              "lore_article_id" := VNone ]}
           Sample.store).
  - left. reflexivity.
  - reflexivity.
  - reflexivity.
  - reflexivity.
  - reflexivity.
  - apply (bool_decide_unpack _). vm_compute. exact I.
  - reflexivity.
  - reflexivity.
  - exists "name", (VStr "Nowhere"). split; [reflexivity|discriminate].
  - reflexivity.
  - intros a Ha. apply list_elem_of_singleton in Ha. subst a.
    intros H. vm_compute in H. discriminate H.
Defined.

Lemma C7_partial_update_witness :
  handle Sample.str Sample.regex Sample.str_as_float Sample.str_as_int
         Sample.blank_update Sample.e Sample.w
  = (Return (JObj {[ "updated" := VBool false ]}), Sample.w)
  /\ exists d' a',
      db (handle Sample.str Sample.regex Sample.str_as_float
                 Sample.str_as_int Sample.rename_town Sample.e Sample.w).2
      = Some d'
      /\ coll d' "poi" !! 0%nat = Some a'
      /\ a' !! "name" = Some (VStr "Old Town")
      /\ a' !! "icon_type" = Some (VStr "city")
      /\ a' !! "_id" = Some (VOid Sample.oid1)
      /\ d' !! "lorearticle" = Sample.store !! "lorearticle".
Proof.
  assert (Sample.token ∈ TOKENS Sample.w) as Ht.
  { apply (bool_decide_unpack _). vm_compute. exact I. }
  split.
  - apply (proj1 (C7_partial_update Sample.str Sample.regex
                    Sample.str_as_float Sample.str_as_int
                    Sample.blank_update
                    Sample.e Sample.w "pois" "poi" POIUpdate
                    (oid_hex Sample.oid1) Sample.token Sample.oid1
                    {[ "name" := VNone ]}
                    (or_introl eq_refl) eq_refl eq_refl eq_refl eq_refl
                    Ht eq_refl)).
    repeat (apply Forall_cons; split;
            [first [left; reflexivity | right; reflexivity]|]).
    apply Forall_nil. exact I.
  - destruct (proj2 (C7_partial_update Sample.str Sample.regex
                       Sample.str_as_float Sample.str_as_int
                       Sample.rename_town
                       Sample.e Sample.w "pois" "poi" POIUpdate
                       (oid_hex Sample.oid1) Sample.token Sample.oid1
                       {[ "name" := VStr "Old Town" ]}
                       (or_introl eq_refl) eq_refl eq_refl eq_refl eq_refl
                       Ht eq_refl)
                    {[ "name" := VStr "Old Town"; "x_coordinate" := VNone;
                       "y_coordinate" := VNone; "icon_type" := VNone;
                       "lore_article_id" := VNone ]}
                    Sample.store)
      as (d' & Hdb & _ & Hother & _ & Hdocs).
    + reflexivity.
    + intros Hempty.
      assert (update_doc_of
                ({[ "name" := VStr "Old Town"; "x_coordinate" := VNone;
                    "y_coordinate" := VNone; "icon_type" := VNone;
                    "lore_article_id" := VNone ]} : doc) !! "name"
              = Some (VStr "Old Town")) as Hl by reflexivity.
      rewrite Hempty in Hl. discriminate Hl.
    + reflexivity.
    + destruct (Hdocs 0%nat Sample.town eq_refl) as (a' & Ha' & Hfirst & _).
      assert (first_carrying Sample.oid1 (coll Sample.store "poi") 0) as Hfc.
      { split; [exists Sample.town; split; reflexivity|].
        intros j x Hj. lia. }
      exists d', a'. split; [exact Hdb|]. split; [exact Ha'|].
      split; [exact (Hfirst Hfc "name")|].
      split; [exact (Hfirst Hfc "icon_type")|].
      split; [exact (Hfirst Hfc "_id")|].
      apply Hother. discriminate.
Defined.


Lemma C4_create_then_list_witness :
  exists listed,
    (handle Sample.str Sample.regex Sample.str_as_float Sample.str_as_int
            Sample.list_pois Sample.e
            (handle Sample.str Sample.regex Sample.str_as_float
                    Sample.str_as_int Sample.create_poi
                    Sample.e Sample.w).2).1 = Return (JArr listed)
    /\ Some {[ "id" := VStr (oid_hex Sample.oid3);
               "name" := VStr "Harbour";
               "x_coordinate" := VFloat (1 # 2);
               "y_coordinate" := VFloat (inject_Z 1);
               "lore_article_id" := VStr (oid_hex Sample.oid1);
               "icon_type" := VStr "marker" ]} ∈ listed.
Proof.
  destruct (C4_create_then_list Sample.str Sample.regex Sample.str_as_float
              Sample.str_as_int
              Sample.create_poi Sample.list_pois Sample.e Sample.e Sample.w
              Sample.token Sample.harbour Sample.store
              "Harbour" (1 # 2) (inject_Z 1) "marker"
              (VStr (oid_hex Sample.oid1)))
    as (_ & _ & listed & Hl & Hin).
  - reflexivity.
  - reflexivity.
  - reflexivity.
  - apply (bool_decide_unpack _). vm_compute. exact I.
  - reflexivity.
  - split; [reflexivity|].
    split; [split; [reflexivity|split; vm_compute; discriminate]|].
    split; [split; [reflexivity|split; vm_compute; discriminate]|].
    split; [right; split; reflexivity|reflexivity].
  - reflexivity.
  - reflexivity.
  - apply (bool_decide_unpack _). vm_compute. exact I.
  - reflexivity.
  - reflexivity.
  - exists listed. split; assumption.
Defined.

Lemma C2_map_reads_fail_witness :
  handle Sample.str Sample.regex Sample.str_as_float Sample.str_as_int
         Sample.get_map Sample.e Sample.w
  = (HTTPException 500 "Internal Server Error", Sample.w)
  /\ handle Sample.str Sample.regex Sample.str_as_float Sample.str_as_int
            Sample.get_map_admin Sample.e Sample.w
     = (HTTPException 500 "Internal Server Error", Sample.w)
  /\ exists z new,
      db (handle Sample.str Sample.regex Sample.str_as_float
                 Sample.str_as_int Sample.new_map Sample.e Sample.w).2
      = Some (<["mapasset" := coll Sample.store "mapasset" ++ [new]]>
                Sample.store)
      /\ version_of new = Some z
      /\ exists cur zc, current_of (coll Sample.store "mapasset") cur zc
                        /\ z = zc + 1.
Proof.
  assert (versioned (coll Sample.store "mapasset")) as Hver.
  { repeat (apply Forall_cons; split; [eexists; reflexivity|]).
    apply Forall_nil. exact I. }
  assert (Sample.token ∈ TOKENS Sample.w) as Ht.
  { apply (bool_decide_unpack _). vm_compute. exact I. }
  split; [|split].
  - apply (proj1 (proj2 (C2_map_reads_fail Sample.str Sample.regex
                           Sample.str_as_float Sample.str_as_int
                           Sample.get_map Sample.e Sample.w Sample.store
                           eq_refl Hver))); reflexivity.
  - apply (proj2 (proj2 (C2_map_reads_fail Sample.str Sample.regex
                           Sample.str_as_float Sample.str_as_int
                           Sample.get_map_admin Sample.e Sample.w
                           Sample.store eq_refl Hver)) Sample.token);
      [reflexivity|reflexivity|reflexivity|exact Ht].
  - destruct (proj1 (C2_map_reads_fail Sample.str Sample.regex
                       Sample.str_as_float Sample.str_as_int Sample.new_map
                       Sample.e Sample.w Sample.store eq_refl Hver)
                    Sample.token
                    {[ "image_url" := VStr "https://example.org/map3.png";
                       "width" := VInt 2048 ]}
                    {[ "image_url" := VStr "https://example.org/map3.png";
                       "width" := VInt 2048; "height" := VNone ]})
      as (z & Hdb & Hz & _ & Hcur & _).
    + reflexivity.
    + reflexivity.
    + reflexivity.
    + exact Ht.
    + reflexivity.
    + reflexivity.
    + reflexivity.
    + intros a za Ha Hza.
      apply elem_of_cons in Ha as [->|Ha];
        [injection Hza as <-; reflexivity|].
      apply list_elem_of_singleton in Ha. subst a.
      injection Hza as <-. reflexivity.
    + reflexivity.
    + apply (bool_decide_unpack _). vm_compute. exact I.
    + eexists z, _. split; [exact Hdb|]. split; [exact Hz|].
      apply Hcur. discriminate.
Defined.

(** The sample store through the handlers, by computation. *)

Example test_database_connected :
  (test_database Sample.w).1
  = Return (JObj {[ "backend" := VStr "✅ Running";
                    "database" :=
                      VStr "⚠️ Database objects do not implement truth value testing or bool(). Please compare with None instead: database is not No";
                    "database_url" := VStr "❌ Not Set";
                    "database_name" := VStr "❌ Not Set";
                    "collections" := VStrs [] ]}).
Proof. vm_compute. reflexivity. Qed.

Example create_poi_numeric_string :
  (handle Sample.str Sample.regex Sample.str_as_float Sample.str_as_int
          (Sample.req POST ["api"; "admin"; "pois"] (Some Sample.token)
             (Some {[ "name" := VStr "Mill"; "x_coordinate" := VStr "0.5";
                      "y_coordinate" := VBool true ]}))
          Sample.e Sample.w).1
  = Return (JObj {[ "id" := VStr (oid_hex Sample.oid3);
                    "name" := VStr "Mill";
                    "x_coordinate" := VFloat (1 # 2);
                    "y_coordinate" := VFloat 1;
                    "icon_type" := VStr "marker";
                    "lore_article_id" := VNone ]}).
Proof. vm_compute. reflexivity. Qed.

Example trailing_slash_redirected :
  handle Sample.str Sample.regex Sample.str_as_float Sample.str_as_int
         (Sample.req GET ["api"; "pois"; ""] None None) Sample.e Sample.w
  = (HTTPException 307 "Temporary Redirect", Sample.w).
Proof. reflexivity. Qed.

Example search_lore_forest :
  (search_lore Sample.str Sample.regex "forest" Sample.w).1
  = Return (JArr [Some {[ "id" := VStr (oid_hex Sample.oid1);
                          "title" := VStr "The Dark Forest";
                          "short_description" :=
                            VStr "Where the road ends" ]}]).
Proof. vm_compute. reflexivity. Qed.

Example rename_town_answer :
  (handle Sample.str Sample.regex Sample.str_as_float Sample.str_as_int Sample.rename_town Sample.e Sample.w).1
  = Return (JObj (<["id" := VStr (oid_hex Sample.oid1)]>
                    (<["name" := VStr "Old Town"]>
                       (delete "_id" Sample.town)))).
Proof. vm_compute. reflexivity. Qed.

Example login_then_list :
  map status_of
      (run Sample.str Sample.regex Sample.str_as_float Sample.str_as_int
           [ (Sample.list_lore_unauthenticated, Sample.e);
             (Sample.login, Sample.e);
             (Sample.req GET ["api"; "admin"; "lore"]
                         (Some (urandom_hex Sample.e)) None, Sample.e);
             (Sample.req GET ["api"; "admin"; "lore"]
                         (Some "not-a-token") None, Sample.e) ]
           Sample.started).1
  = [401; 200; 200; 401].
Proof. vm_compute. reflexivity. Qed.

Example sample_store_ok : store_ok Sample.w.
Proof.
  split.
  - apply (bool_decide_unpack _). vm_compute. exact I.
  - repeat (apply Forall_cons; split; [eexists; reflexivity|]).
    apply Forall_nil. exact I.
Qed.

(** ** The further properties at the sample data *)

Lemma X1_GET_changes_nothing_witness :
  db (handle Sample.str Sample.regex Sample.str_as_float Sample.str_as_int Sample.list_pois_admin
             Sample.e Sample.w).2 = db Sample.w
  /\ TOKENS (handle Sample.str Sample.regex Sample.str_as_float Sample.str_as_int Sample.list_pois_admin
                    Sample.e Sample.w).2 = TOKENS Sample.w
  /\ environ (handle Sample.str Sample.regex Sample.str_as_float Sample.str_as_int Sample.list_pois_admin
                     Sample.e Sample.w).2 = environ Sample.w.
Proof.
  apply (X1_GET_changes_nothing Sample.str Sample.regex Sample.str_as_float Sample.str_as_int
           Sample.list_pois_admin Sample.e Sample.w).
  reflexivity.
Defined.

Lemma X2_malformed_id_witness :
  handle Sample.str Sample.regex Sample.str_as_float Sample.str_as_int Sample.delete_not_an_id Sample.e Sample.w
  = (HTTPException 400 "Invalid id", Sample.w).
Proof.
  apply (proj1 (X2_malformed_id Sample.str Sample.regex Sample.str_as_float Sample.str_as_int
                  Sample.delete_not_an_id Sample.e Sample.w
                  "pois" "poi" POIUpdate "not-an-id" Sample.token
                  (or_introl eq_refl) eq_refl ltac:(discriminate) eq_refl
                  eq_refl
                  ltac:(apply (bool_decide_unpack _); vm_compute; exact I))).
  reflexivity.
Defined.

Lemma X3_not_connected_witness :
  handle Sample.str Sample.regex Sample.str_as_float Sample.str_as_int Sample.get_map Sample.e Sample.disconnected
  = (Return JNull, Sample.disconnected).
Proof.
  apply (proj1 (X3_not_connected Sample.str Sample.regex Sample.str_as_float Sample.str_as_int Sample.get_map
                  Sample.e Sample.disconnected eq_refl)).
  - reflexivity.
  - reflexivity.
Defined.

Lemma X4_login_witness :
  handle Sample.str Sample.regex Sample.str_as_float Sample.str_as_int Sample.login_wrong Sample.e Sample.started
  = (HTTPException 401 "Invalid credentials", Sample.started).
Proof.
  apply (proj1 (proj2 (X4_login Sample.str Sample.regex Sample.str_as_float Sample.str_as_int Sample.login_wrong
                         Sample.e Sample.started
                         {[ "username" := VStr "admin";
                            "password" := VStr "guess" ]}
                         {[ "username" := VStr "admin";
                            "password" := VStr "guess" ]}
                         eq_refl eq_refl eq_refl))).
  intros [_ H]. vm_compute in H. discriminate H.
Defined.

Lemma X5_required_field_witness :
  handle Sample.str Sample.regex Sample.str_as_float Sample.str_as_int Sample.create_poi_nameless
         Sample.e Sample.w
  = (HTTPException 422 "Unprocessable Entity", Sample.w).
Proof.
  apply (proj2 (X5_required_field Sample.str Sample.regex Sample.str_as_float Sample.str_as_int
                  Sample.create_poi_nameless Sample.e Sample.w
                  "pois" "poi" POICreate Sample.token
                  (or_introl eq_refl) eq_refl eq_refl eq_refl
                  ltac:(apply (bool_decide_unpack _); vm_compute; exact I))
               (delete "name" Sample.harbour) (required_str "name")).
  - reflexivity.
  - left. reflexivity.
  - reflexivity.
  - reflexivity.
Defined.

Lemma X6_create_stores_the_model_witness :
  let p : doc :=
    {[ "name" := VStr "Harbour"; "x_coordinate" := VFloat (1 # 2);
       "y_coordinate" := VFloat (inject_Z 1); "icon_type" := VStr "marker";
       "lore_article_id" := VStr (oid_hex Sample.oid1) ]} in
  db (handle Sample.str Sample.regex Sample.str_as_float Sample.str_as_int Sample.create_poi Sample.e Sample.w).2
  = Some (<["poi" := coll Sample.store "poi"
                     ++ [<["_id" := VOid Sample.oid3]> p]]> Sample.store).
Proof.
  intros p.
  apply (X6_create_stores_the_model Sample.str Sample.regex Sample.str_as_float Sample.str_as_int
           Sample.create_poi Sample.e Sample.w "pois" "poi" POICreate
           Sample.token Sample.harbour p Sample.store).
  - left. reflexivity.
  - reflexivity.
  - reflexivity.
  - reflexivity.
  - apply (bool_decide_unpack _). vm_compute. exact I.
  - reflexivity.
  - reflexivity.
  - reflexivity.
  - reflexivity.
  - apply (bool_decide_unpack _). vm_compute. exact I.
Defined.

Lemma X7_duplicate_id_witness :
  (handle Sample.str Sample.regex Sample.str_as_float Sample.str_as_int Sample.create_poi
          Sample.e_taken Sample.w).1
  = HTTPException 500 "Internal Server Error"
  /\ db (handle Sample.str Sample.regex Sample.str_as_float Sample.str_as_int Sample.create_poi
                Sample.e_taken Sample.w).2 = Some Sample.store.
Proof.
  apply (X7_duplicate_id Sample.str Sample.regex Sample.str_as_float Sample.str_as_int Sample.create_poi
           Sample.e_taken Sample.w "pois" "poi" POICreate Sample.token
           Sample.harbour
           {[ "name" := VStr "Harbour"; "x_coordinate" := VFloat (1 # 2);
              "y_coordinate" := VFloat (inject_Z 1);
              "icon_type" := VStr "marker";
              "lore_article_id" := VStr (oid_hex Sample.oid1) ]}
           Sample.store).
  - left. reflexivity.
  - reflexivity.
  - reflexivity.
  - reflexivity.
  - apply (bool_decide_unpack _). vm_compute. exact I.
  - reflexivity.
  - reflexivity.
  - reflexivity.
  - apply (bool_decide_unpack _). vm_compute. exact I.
Defined.

Lemma X8_update_answers_merged_witness :
  (handle Sample.str Sample.regex Sample.str_as_float Sample.str_as_int Sample.rename_town Sample.e Sample.w).1
  = Return (JObj (<["id" := VStr (oid_hex Sample.oid1)]>
                    (delete "_id"
                       (update_doc_of
                          {[ "name" := VStr "Old Town";
                             "x_coordinate" := VNone;
                             "y_coordinate" := VNone;
                             "icon_type" := VNone;
                             "lore_article_id" := VNone ]}
                        ∪ Sample.town)))).
Proof.
  apply (X8_update_answers_merged Sample.str Sample.regex Sample.str_as_float Sample.str_as_int Sample.rename_town
           Sample.e Sample.w "pois" "poi" POIUpdate (oid_hex Sample.oid1)
           Sample.token Sample.oid1 {[ "name" := VStr "Old Town" ]}
           _ Sample.town Sample.store).
  - left. reflexivity.
  - reflexivity.
  - reflexivity.
  - reflexivity.
  - reflexivity.
  - apply (bool_decide_unpack _). vm_compute. exact I.
  - reflexivity.
  - reflexivity.
  - intros H. apply (f_equal (fun m : doc => m !! "name")) in H.
    vm_compute in H. discriminate H.
  - reflexivity.
  - apply (bool_decide_unpack _). vm_compute. exact I.
  - apply list_elem_of_singleton. reflexivity.
  - reflexivity.
Defined.

Lemma X9_update_then_fetch_witness :
  let a' : doc :=
    update_doc_of {[ "title" := VStr "The Bright Forest";
                     "short_description" := VNone;
                     "main_image_url" := VNone; "content_body" := VNone;
                     "category_ids" := VNone; "slug" := VNone ]}
    ∪ Sample.forest in
  (handle Sample.str Sample.regex Sample.str_as_float Sample.str_as_int Sample.get_forest Sample.e
          (handle Sample.str Sample.regex Sample.str_as_float Sample.str_as_int Sample.rename_forest
                  Sample.e Sample.w).2).1
  = Return (JObj {[ "id" := VStr (oid_hex Sample.oid1);
                    "title" := get a' "title";
                    "short_description" := get a' "short_description";
                    "main_image_url" := get a' "main_image_url";
                    "content_body" := get a' "content_body" ]}).
Proof.
  intros a'.
  refine (proj1 (X9_update_then_fetch Sample.str Sample.regex Sample.str_as_float Sample.str_as_int
                   Sample.rename_forest Sample.get_forest Sample.e Sample.e
                   Sample.w (oid_hex Sample.oid1) Sample.token Sample.oid1
                   {[ "title" := VStr "The Bright Forest" ]}
                   _ Sample.forest Sample.store
                   eq_refl eq_refl eq_refl eq_refl _ eq_refl eq_refl _
                   eq_refl _ _ eq_refl eq_refl eq_refl)).
  - apply (bool_decide_unpack _). vm_compute. exact I.
  - intros H. apply (f_equal (fun m : doc => m !! "title")) in H.
    vm_compute in H. discriminate H.
  - apply (bool_decide_unpack _). vm_compute. exact I.
  - apply list_elem_of_singleton. reflexivity.
Defined.

Lemma X10_delete_removes_one_witness :
  exists d',
    db (handle Sample.str Sample.regex Sample.str_as_float Sample.str_as_int Sample.delete_town
               Sample.e Sample.w).2 = Some d'
    /\ coll d' "lorearticle" = coll Sample.store "lorearticle".
Proof.
  destruct (X10_delete_removes_one Sample.str Sample.regex Sample.str_as_float Sample.str_as_int Sample.delete_town
              Sample.e Sample.w "pois" "poi" POIUpdate (oid_hex Sample.oid1)
              Sample.token Sample.oid1 Sample.store)
    as (d' & Hd' & Hother & _).
  - left. reflexivity.
  - reflexivity.
  - reflexivity.
  - reflexivity.
  - reflexivity.
  - apply (bool_decide_unpack _). vm_compute. exact I.
  - reflexivity.
  - exists d'. split; [exact Hd'|]. apply Hother. discriminate.
Defined.

Lemma X11_delete_then_fetch_witness :
  (handle Sample.str Sample.regex Sample.str_as_float Sample.str_as_int Sample.get_forest Sample.e
          (handle Sample.str Sample.regex Sample.str_as_float Sample.str_as_int Sample.delete_forest
                  Sample.e Sample.w).2).1
  = HTTPException 404 "Article not found".
Proof.
  apply (X11_delete_then_fetch Sample.str Sample.regex Sample.str_as_float Sample.str_as_int Sample.delete_forest
           Sample.get_forest Sample.e Sample.e Sample.w
           (oid_hex Sample.oid1) Sample.token Sample.oid1 Sample.store).
  - reflexivity.
  - reflexivity.
  - reflexivity.
  - reflexivity.
  - apply (bool_decide_unpack _). vm_compute. exact I.
  - reflexivity.
  - apply (bool_decide_unpack _). vm_compute. exact I.
  - reflexivity.
  - reflexivity.
Defined.

Lemma X12_update_any_coordinate_witness :
  exists d',
    db (handle Sample.str Sample.regex Sample.str_as_float Sample.str_as_int Sample.move_town_outside
               Sample.e Sample.w).2 = Some d'
    /\ <["x_coordinate" := VFloat (3 # 2)]> Sample.town ∈ coll d' "poi".
Proof.
  apply (X12_update_any_coordinate Sample.str Sample.regex Sample.str_as_float Sample.str_as_int
           Sample.move_town_outside Sample.e Sample.w
           (oid_hex Sample.oid1) Sample.token Sample.oid1 (3 # 2)
           Sample.town Sample.store).
  - reflexivity.
  - reflexivity.
  - reflexivity.
  - reflexivity.
  - apply (bool_decide_unpack _). vm_compute. exact I.
  - reflexivity.
  - reflexivity.
  - apply (bool_decide_unpack _). vm_compute. exact I.
  - apply list_elem_of_singleton. reflexivity.
  - reflexivity.
Defined.

Lemma X13_successive_posts_witness :
  exists z,
    (handle Sample.str Sample.regex Sample.str_as_float Sample.str_as_int
            Sample.new_map Sample.e Sample.w).1
    = Return (JObj (<["id" := VStr (oid_hex Sample.oid3)]>
                      (<["version" := VInt z]>
                         {[ "image_url" := VStr "https://example.org/map3.png";
                            "width" := VInt 2048; "height" := VNone ]})))
    /\ (handle Sample.str Sample.regex Sample.str_as_float Sample.str_as_int
               Sample.next_map Sample.e'
               (handle Sample.str Sample.regex Sample.str_as_float
                       Sample.str_as_int Sample.new_map
                       Sample.e Sample.w).2).1
       = Return (JObj (<["id" := VStr (oid_hex Sample.oid4)]>
                         (<["version" := VInt (z + 1)]>
                            {[ "image_url" :=
                                 VStr "https://example.org/map4.png";
                               "width" := VNone; "height" := VNone ]}))).
Proof.
  assert (Sample.token ∈ TOKENS Sample.w) as Ht.
  { apply (bool_decide_unpack _). vm_compute. exact I. }
  destruct (X13_successive_posts Sample.str Sample.regex Sample.str_as_float
              Sample.str_as_int Sample.new_map Sample.next_map
              Sample.e Sample.e' Sample.w Sample.token Sample.token
              {[ "image_url" := VStr "https://example.org/map3.png";
                 "width" := VInt 2048 ]}
              {[ "image_url" := VStr "https://example.org/map3.png";
                 "width" := VInt 2048; "height" := VNone ]}
              {[ "image_url" := VStr "https://example.org/map4.png" ]}
              {[ "image_url" := VStr "https://example.org/map4.png";
                 "width" := VNone; "height" := VNone ]}
              Sample.store)
    as (z & H1 & H2 & _).
  - reflexivity.
  - reflexivity.
  - reflexivity.
  - exact Ht.
  - reflexivity.
  - reflexivity.
  - reflexivity.
  - reflexivity.
  - reflexivity.
  - reflexivity.
  - exact Ht.
  - reflexivity.
  - reflexivity.
  - reflexivity.
  - reflexivity.
  - repeat (apply Forall_cons; split; [eexists; reflexivity|]).
    apply Forall_nil. exact I.
  - intros a za Ha Hza.
    apply elem_of_cons in Ha as [->|Ha];
      [injection Hza as <-; split; reflexivity|].
    apply list_elem_of_singleton in Ha. subst a.
    injection Hza as <-. split; reflexivity.
  - reflexivity.
  - reflexivity.
  - apply (bool_decide_unpack _). vm_compute. exact I.
  - apply (bool_decide_unpack _). vm_compute. exact I.
  - discriminate.
  - exists z. split; [exact H1|exact H2].
Defined.

Lemma X15_admin_list_witness :
  exists l,
    (handle Sample.str Sample.regex Sample.str_as_float Sample.str_as_int Sample.list_pois_admin
            Sample.e Sample.w).1 = Return (JArr l)
    /\ length l = length (coll Sample.store "poi").
Proof.
  destruct (X15_admin_list Sample.str Sample.regex Sample.str_as_float Sample.str_as_int Sample.list_pois_admin
              Sample.e Sample.w "pois" "poi" POIUpdate Sample.token
              Sample.store)
    as (l & Hl & Hlen & _).
  - left. reflexivity.
  - reflexivity.
  - reflexivity.
  - reflexivity.
  - apply (bool_decide_unpack _). vm_compute. exact I.
  - reflexivity.
  - exists l. split; assumption.
Defined.

Lemma X16_get_pois_witness :
  exists l,
    handle Sample.str Sample.regex Sample.str_as_float Sample.str_as_int Sample.list_pois Sample.e Sample.w
    = (Return (JArr l), log_call (Find "poi") Sample.w)
    /\ length l = length (coll Sample.store "poi").
Proof.
  destruct (X16_get_pois Sample.str Sample.regex Sample.str_as_float Sample.str_as_int Sample.list_pois
              Sample.e Sample.w Sample.store eq_refl eq_refl eq_refl)
    as (l & Hl & Hlen & _).
  exists l. split; assumption.
Defined.

Lemma search_lore_results_witness :
  let l := [Some ({[ "id" := VStr (oid_hex Sample.oid1);
                     "title" := VStr "The Dark Forest";
                     "short_description" := VStr "Where the road ends" ]}
                  : doc)] in
  (length l <= 20)%nat.
Proof.
  intros l.
  apply (search_lore_results Sample.str Sample.regex "forest"
           (fun s => Sample.contains (lowercase "forest") (lowercase s))
           Sample.w Sample.store l).
  - reflexivity.
  - reflexivity.
  - vm_compute. reflexivity.
Defined.

Lemma search_route_unreachable_witness :
  handle Sample.str Sample.regex Sample.str_as_float Sample.str_as_int Sample.search_forest Sample.e Sample.w
  = (HTTPException 400 "Invalid article id", Sample.w).
Proof.
  apply (search_route_unreachable Sample.str Sample.regex Sample.str_as_float Sample.str_as_int
           Sample.search_forest Sample.e Sample.w).
  - reflexivity.
  - reflexivity.
Defined.

Lemma store_ok_run_witness :
  store_ok (run Sample.str Sample.regex Sample.str_as_float Sample.str_as_int
                [ (Sample.create_poi, Sample.e);
                  (Sample.delete_town, Sample.e);
                  (Sample.new_map, Sample.e) ] Sample.w).2.
Proof.
  apply (store_ok_run Sample.str Sample.regex Sample.str_as_float Sample.str_as_int). split.
  - apply (bool_decide_unpack _). vm_compute. exact I.
  - repeat (apply Forall_cons; split; [eexists; reflexivity|]).
    apply Forall_nil. exact I.
Defined.
